(** * Luxury campaign analytics: the cleaning-and-aggregation engine

    A shallow embedding of the pandas pipeline of the repository
    ([src/data/data_loader.py], [src/data/data_cleaner.py],
    [src/analysis/cohort_analysis.py], [src/analysis/segment_analysis.py],
    [src/analysis/channel_analysis.py]) and the properties its specification
    states about it.

    Conventions of the model.
    - A float is an exact rational ([Q]); [None] stands for NaN.  IEEE
      rounding and the infinities are not represented.
    - A DataFrame that went through the Loader is a list of typed rows, in
      index order; a column is the list of one field over the rows.
    - A Python exception is the [None] (or [inl]) outcome of the function that
      raises it. *)

From Stdlib Require Import String Ascii List Bool ZArith QArith Qround Lia Lqa.
From Stdlib Require Import Sorted.
From Stdlib Require Import Permutation.
Import ListNotations.

Local Open Scope Z_scope.

(* ------------------------------------------------------------------------- *)
(** ** Floats, NaN and the pandas reductions *)

Module Num.

(** A numeric cell: [None] is NaN. *)
Definition num : Type := option Q.

Definition isnull {A : Type} (x : option A) : bool :=
  match x with None => true | Some _ => false end.

Definition Qltb (a b : Q) : bool := negb (Qle_bool b a).

(** [x < y] on cells; any comparison with NaN is [False]. *)
Definition lt (x y : num) : bool :=
  match x, y with Some a, Some b => Qltb a b | _, _ => false end.

Definition gt (x y : num) : bool := lt y x.

Definition add (x y : num) : num :=
  match x, y with Some a, Some b => Some (a + b)%Q | _, _ => None end.

(** Division of cells.  IEEE gives an infinity or NaN for a zero divisor; the
    model has no infinities and gives NaN there. *)
Definition div (x y : num) : num :=
  match x, y with
  | Some a, Some b => if Qeq_bool b 0 then None else Some (a / b)%Q
  | _, _ => None
  end.

Definition dropna {A : Type} (l : list (option A)) : list A :=
  flat_map (fun x => match x with Some a => [a] | None => [] end) l.

Fixpoint insert_sorted (x : Q) (l : list Q) : list Q :=
  match l with
  | [] => [x]
  | y :: t => if Qle_bool x y then x :: l else y :: insert_sorted x t
  end.

Definition sort (l : list Q) : list Q := fold_right insert_sorted [] l.

(** [Series.median()]: NaN cells are skipped; the middle value of the sorted
    rest, the mean of the two middle values for an even count, NaN when
    nothing is left. *)
Definition median (col : list num) : num :=
  let s := sort (dropna col) in
  let n := length s in
  match n with
  | O => None
  | _ =>
    if Nat.odd n then Some (nth (n / 2) s 0%Q)
    else Some ((nth (n / 2 - 1) s 0%Q + nth (n / 2) s 0%Q) / 2)%Q
  end.

Definition sum (l : list Q) : Q := fold_right Qplus 0%Q l.

(** [Series.mean()]: NaN cells are skipped; NaN for an empty selection. *)
Definition mean (col : list num) : num :=
  match dropna col with
  | [] => None
  | v => Some (sum v / inject_Z (Z.of_nat (length v)))%Q
  end.

(** Rounding to the nearest integer, ties to the even one. *)
Definition round_half_even (x : Q) : Z :=
  let n := Qnum x in
  let d := Zpos (Qden x) in
  let fl := n / d in
  let r2 := 2 * (n mod d) in
  if r2 <? d then fl
  else if d <? r2 then fl + 1
  else if Z.even fl then fl else fl + 1.

(** [round(x, ndigits)] on a finite float. *)
Definition round (x : Q) (ndigits : nat) : Q :=
  let p := inject_Z (10 ^ Z.of_nat ndigits) in
  (inject_Z (round_half_even (x * p)) / p)%Q.

Definition round_num (x : num) (ndigits : nat) : num :=
  option_map (fun v => round v ndigits) x.

End Num.
Export Num.

(* ------------------------------------------------------------------------- *)
(** ** Strings: [str.replace], [float(...)], number formatting *)

Module Str.

(** [s.replace(c, '')] for a one-character pattern [c]. *)
Fixpoint remove_char (c : ascii) (s : string) : string :=
  match s with
  | EmptyString => EmptyString
  | String a t => if Ascii.eqb a c then remove_char c t else String a (remove_char c t)
  end.

Definition is_digit (a : ascii) : bool :=
  let n := nat_of_ascii a in (48 <=? n)%nat && (n <=? 57)%nat.

Definition digit_val (a : ascii) : Z := Z.of_nat (nat_of_ascii a) - 48.

Definition is_space (a : ascii) : bool :=
  let n := nat_of_ascii a in (n =? 32)%nat || ((9 <=? n)%nat && (n <=? 13)%nat).

(** Reads the longest run of digits: its value continuing the accumulator,
    how many digits were read, and the rest. *)
Fixpoint take_digits (acc : Z) (count : nat) (s : string) : Z * nat * string :=
  match s with
  | String a t =>
    if is_digit a then take_digits (10 * acc + digit_val a) (S count) t
    else (acc, count, s)
  | EmptyString => (acc, count, s)
  end.

Fixpoint lstrip (s : string) : string :=
  match s with
  | String a t => if is_space a then lstrip t else s
  | EmptyString => s
  end.

Fixpoint all_space (s : string) : bool :=
  match s with
  | String a t => is_space a && all_space t
  | EmptyString => true
  end.

Definition take_sign (s : string) : bool * string :=
  match s with
  | String "-"%char t => (true, t)
  | String "+"%char t => (false, t)
  | _ => (false, s)
  end.

(** The optional exponent part [e[+-]ddd]; [None] when an [e] is not
    followed by digits. *)
Definition take_exponent (s : string) : option (Z * string) :=
  match s with
  | String a t =>
    if Ascii.eqb a "e"%char || Ascii.eqb a "E"%char then
      let '(neg, t1) := take_sign t in
      let '(e, n, rest) := take_digits 0 0 t1 in
      match n with
      | O => None
      | _ => Some (if neg then - e else e, rest)
      end
    else Some (0, s)
  | EmptyString => Some (0, s)
  end.

Definition scale10 (m : Z) (e : Z) : Q :=
  if 0 <=? e then inject_Z (m * 10 ^ e)
  else (inject_Z m / inject_Z (10 ^ (- e)))%Q.

(** [float(s)] on a decimal literal: blanks around, an optional sign, digits
    with an optional fractional part (at least one digit in all), an optional
    exponent.  The value is the exact decimal; the other spellings Python
    accepts ([inf], [nan], digit-group underscores) are rejected here.
    [None] is the [ValueError]. *)
Definition float_of_string (s : string) : option Q :=
  let '(neg, s1) := take_sign (lstrip s) in
  let '(ip, n1, s2) := take_digits 0 0 s1 in
  let '(m, n2, s3) :=
    match s2 with
    | String "."%char t => take_digits ip 0 t
    | _ => (ip, O, s2)
    end in
  match (n1 + n2)%nat with
  | O => None
  | _ =>
    match take_exponent s3 with
    | None => None
    | Some (e, rest) =>
      if all_space rest then
        let v := scale10 m (e - Z.of_nat n2) in
        Some (if neg then Qopp v else v)
      else None
    end
  end.

(** [s.replace('$', '').replace(',', '')], the currency clean-up both the
    Loader and the Cleaner apply before [astype(float)]. *)
Definition strip_currency (s : string) : string :=
  remove_char ","%char (remove_char "$"%char s).

Definition parse_currency (s : string) : option Q :=
  float_of_string (strip_currency s).

End Str.

(* ------------------------------------------------------------------------- *)
(** ** Calendar: [Timestamp], monthly [Period], [Timedelta.days] *)

Module Calendar.

Inductive month_name :=
  Jan | Feb | Mar | Apr | May | Jun | Jul | Aug | Sep | Oct | Nov | Dec.

Definition month_number (m : month_name) : Z :=
  match m with
  | Jan => 1 | Feb => 2 | Mar => 3 | Apr => 4 | May => 5 | Jun => 6
  | Jul => 7 | Aug => 8 | Sep => 9 | Oct => 10 | Nov => 11 | Dec => 12
  end.

(** A point in time: the civil date and the nanoseconds elapsed in that day
    ([0] for a pure date). *)
Record Timestamp := mkTimestamp {
  year : Z;
  month : month_name;
  day : Z;
  nanos : Z }.

Definition date (y : Z) (m : month_name) (d : Z) : Timestamp := mkTimestamp y m d 0.

(** Chronological order, field by field. *)
Definition compare (a b : Timestamp) : comparison :=
  match year a ?= year b with
  | Eq =>
    match month_number (month a) ?= month_number (month b) with
    | Eq =>
      match day a ?= day b with
      | Eq => nanos a ?= nanos b
      | c => c
      end
    | c => c
    end
  | c => c
  end.

Definition leb (a b : Timestamp) : bool :=
  match compare a b with Gt => false | _ => true end.

Definition min (a b : Timestamp) : Timestamp := if leb a b then a else b.
Definition max (a b : Timestamp) : Timestamp := if leb a b then b else a.

(** [Series.min()] / [Series.max()] of a datetime column: NaT cells are
    skipped, NaT when nothing is left. *)
Definition series_min (col : list (option Timestamp)) : option Timestamp :=
  match dropna col with
  | [] => None
  | t :: rest => Some (fold_left min rest t)
  end.

Definition series_max (col : list (option Timestamp)) : option Timestamp :=
  match dropna col with
  | [] => None
  | t :: rest => Some (fold_left max rest t)
  end.

(** [dt.to_period('M')]: the ordinal of the month, counted from 1970-01. *)
Definition to_period_M (t : Timestamp) : Z :=
  (year t - 1970) * 12 + (month_number (month t) - 1).

Definition quarter (t : Timestamp) : Z := (month_number (month t) - 1) / 3 + 1.

(** Days from 1970-01-01 to a civil date (proleptic Gregorian calendar). *)
Definition days_from_civil (y m d : Z) : Z :=
  let y' := if m <=? 2 then y - 1 else y in
  let era := y' / 400 in
  let yoe := y' - era * 400 in
  let mp := (m + 9) mod 12 in
  let doy := (153 * mp + 2) / 5 + d - 1 in
  let doe := yoe * 365 + yoe / 4 - yoe / 100 + doy in
  era * 146097 + doe - 719468.

Definition ns_per_day : Z := 86400 * 1000000000.

(** Nanoseconds since the epoch, the value a [Timestamp] holds. *)
Definition to_ns (t : Timestamp) : Z :=
  days_from_civil (year t) (month_number (month t)) (day t) * ns_per_day + nanos t.

(** [(a - b).days]: the whole days of the difference, rounded down. *)
Definition timedelta_days (a b : Timestamp) : Z := (to_ns a - to_ns b) / ns_per_day.

End Calendar.
Export Calendar.

(* ------------------------------------------------------------------------- *)
(** ** Exceptions in a loop *)

Module Control.

(** All-or-nothing map of a fallible step over a list: the first element on
    which the step raises aborts the whole. *)
Fixpoint traverse {A B} (f : A -> option B) (l : list A) : option (list B) :=
  match l with
  | [] => Some []
  | x :: t =>
    match f x with
    | None => None
    | Some y => option_map (cons y) (traverse f t)
    end
  end.

End Control.
Export Control.

(* ------------------------------------------------------------------------- *)
(** ** Untyped cells *)

Module Cells.

(** A cell of a column whose type is settled at run time: what [read_csv]
    gives and what the coercions leave. *)
Inductive cell :=
| CNaN
| CNum (q : Q)
| CStr (s : string)
| CDate (t : Timestamp).

Definition Series : Type := list cell.

Definition is_str (c : cell) : bool := match c with CStr _ => true | _ => false end.

(** [s.dtype == object] for a column read from CSV: it holds text, or the
    frame has no row at all. *)
Definition dtype_object (s : Series) : bool :=
  match s with [] => true | _ => existsb is_str s end.

(** The float held by a cell of a float column. *)
Definition float_of_cell (c : cell) : num :=
  match c with CNum q => Some q | _ => None end.

End Cells.
Export Cells.

(* ------------------------------------------------------------------------- *)
(** ** The Loader: [MarketingDataLoader] *)

Module MarketingDataLoader.

(** The frame the Loader handles, a DataFrame whose columns are not typed
    yet: the columns in header order. *)
Definition RawFrame : Type := list (string * Series).

Definition columns (df : RawFrame) : list string := map fst df.

(** [df[name]]; [None] is the [KeyError]. *)
Fixpoint getitem (name : string) (df : RawFrame) : option Series :=
  match df with
  | [] => None
  | (n, s) :: rest => if String.eqb n name then Some s else getitem name rest
  end.

(** [df[name] = s]: the column is replaced in place, or added last. *)
Fixpoint setitem (name : string) (s : Series) (df : RawFrame) : RawFrame :=
  match df with
  | [] => [(name, s)]
  | (n, old) :: rest =>
    if String.eqb n name then (n, s) :: rest else (n, old) :: setitem name s rest
  end.

Definition required_columns : list string :=
  ["Campaign_ID"; "Company"; "Campaign_Type"; "Target_Audience"; "Duration";
   "Channel_Used"; "Conversion_Rate"; "Acquisition_Cost"; "ROI"; "Location";
   "Language"; "Clicks"; "Impressions"; "Engagement_Score"; "Customer_Segment";
   "Date"]%string.

Definition numeric_cols : list string :=
  ["Clicks"; "Impressions"; "Engagement_Score"; "Conversion_Rate"; "ROI"]%string.

Definition mem (x : string) (l : list string) : bool := existsb (String.eqb x) l.

(** [set(self.required_columns) - set(df.columns)]. *)
Definition missing_cols (df : RawFrame) : list string :=
  filter (fun c => negb (mem c (columns df))) required_columns.

(** The body of a [try] block that works on the frame: it mutates the frame
    it is given, and either returns or raises.  The mutations made before a
    raise stay in the frame. *)
Definition Try (A : Type) : Type := RawFrame -> option A * RawFrame.

Definition ret {A} (a : A) : Try A := fun df => (Some a, df).
Definition bind {A B} (m : Try A) (k : A -> Try B) : Try B :=
  fun df => match m df with
            | (Some a, df') => k a df'
            | (None, df') => (None, df')
            end.
Definition lift {A} (o : option A) : Try A := fun df => (o, df).
Definition read (name : string) : Try Series := fun df => (getitem name df, df).
Definition assign (name : string) (s : Series) : Try unit :=
  fun df => (Some tt, setitem name s df).

Notation "x <- m ;; k" := (bind m (fun x => k))
  (at level 61, m at next level, right associativity).
Notation "m ;;; k" := (bind m (fun _ => k))
  (at level 61, right associativity).

Section Coercions.

(** pandas' date parser, on text and on epoch numbers. *)
Variable datetime_of_string : string -> option Timestamp.
Variable datetime_of_number : Q -> option Timestamp.

(** [pd.to_datetime(series)]. *)
Definition to_datetime_cell (c : cell) : option cell :=
  match c with
  | CNaN => Some CNaN
  | CDate t => Some (CDate t)
  | CStr s => option_map CDate (datetime_of_string s)
  | CNum q => option_map CDate (datetime_of_number q)
  end.

Definition to_datetime (s : Series) : option Series := traverse to_datetime_cell s.

(** [pd.to_numeric(series)]. *)
Definition to_numeric_cell (c : cell) : option cell :=
  match c with
  | CNaN => Some CNaN
  | CNum q => Some (CNum q)
  | CStr s => option_map CNum (Str.float_of_string s)
  | CDate _ => None
  end.

Definition to_numeric (s : Series) : option Series := traverse to_numeric_cell s.

(** [series.str.replace('$', '').str.replace(',', '')]: the [.str] accessor
    raises on a column that is not text; a cell that is not a string becomes
    NaN. *)
Definition str_strip_currency (s : Series) : option Series :=
  if dtype_object s then
    Some (map (fun c => match c with
                        | CStr x => CStr (Str.strip_currency x)
                        | _ => CNaN
                        end) s)
  else None.

(** [series.astype(float)] on a text column. *)
Definition astype_float_cell (c : cell) : option cell :=
  match c with
  | CNaN => Some CNaN
  | CNum q => Some (CNum q)
  | CStr x => option_map CNum (Str.float_of_string x)
  | CDate _ => None
  end.

Definition astype_float (s : Series) : option Series := traverse astype_float_cell s.

Definition currency_to_float (s : Series) : option Series :=
  match str_strip_currency s with
  | None => None
  | Some s' => astype_float s'
  end.

(** [df[numeric_cols].apply(pd.to_numeric)]: every column is converted
    before any of them is assigned. *)
Fixpoint apply_to_numeric (cols : list string) : Try (list (string * Series)) :=
  match cols with
  | [] => ret []
  | c :: rest =>
    s <- read c ;;
    s' <- lift (to_numeric s) ;;
    tl <- apply_to_numeric rest ;;
    ret ((c, s') :: tl)
  end.

Fixpoint assign_all (cols : list (string * Series)) : Try unit :=
  match cols with
  | [] => ret tt
  | (c, s) :: rest => assign c s ;;; assign_all rest
  end.

Definition has_column (name : string) : Try bool :=
  fun df => (Some (mem name (columns df)), df).

(** The [try] block of [validate_data]. *)
Definition convert_types : Try unit :=
  d <- read "Date" ;;
  d' <- lift (to_datetime d) ;;
  assign "Date" d' ;;;
  nums <- apply_to_numeric numeric_cols ;;
  assign_all nums ;;;
  present <- has_column "Acquisition_Cost" ;;
  if (present : bool) then
    c <- read "Acquisition_Cost" ;;
    c' <- lift (currency_to_float c) ;;
    assign "Acquisition_Cost" c'
  else ret tt.

(** [validate_data(df)]: the verdict, and the frame as the call leaves it
    (the caller's object is converted in place).  Null cells are counted for
    a warning in the log and change nothing. *)
Definition validate_data (df : RawFrame) : bool * RawFrame :=
  match missing_cols df with
  | _ :: _ => (false, df)
  | [] =>
    match convert_types df with
    | (Some _, df') => (true, df')
    | (None, df') => (false, df')
    end
  end.

(** The file system as [pd.read_csv] sees it: the frame read at a path, or
    an exception. *)
Variable read_csv : string -> option RawFrame.

(** [load_data()]: the validated frame, or [None]. *)
Definition load_data (data_path : string) : option RawFrame :=
  match read_csv data_path with
  | None => None
  | Some df =>
    let '(ok, df') := validate_data df in
    if ok then Some df' else None
  end.

End Coercions.

End MarketingDataLoader.

(* ------------------------------------------------------------------------- *)
(** ** Campaign records *)

Module Records.

(** A text cell: [None] is a missing value. *)
Definition text : Type := option string.

Inductive duration_category := Short | Medium | Long.
Inductive engagement_category := Low | Medium_engagement | High.

(** One campaign, as a row of the validated frame: the sixteen columns of the
    input, then the seven the Cleaner adds (NaN until it has run).
    [Campaign_ID] is the integer key of the data set.  [Duration] and
    [Acquisition_Cost] keep run-time typed cells: the first may be free
    text, the second a currency string. *)
Record Row := mkRow {
  Campaign_ID : Z;
  Company : text;
  Campaign_Type : text;
  Target_Audience : text;
  Duration : cell;
  Channel_Used : text;
  Conversion_Rate : num;
  Acquisition_Cost : cell;
  ROI : num;
  Location : text;
  Language : text;
  Clicks : num;
  Impressions : num;
  Engagement_Score : num;
  Customer_Segment : text;
  Date : option Timestamp;
  Campaign_Duration : num;
  Duration_Category : option duration_category;
  Engagement_Rate : num;
  Month : option Z;
  Quarter : option Z;
  Year : option Z;
  Engagement_Category : option engagement_category }.

Definition DataFrame : Type := list Row.

(** [df[col]] for a typed column. *)
Definition column {A : Type} (get : Row -> A) (df : DataFrame) : list A := map get df.

Definition set_Campaign_Type (v : text) (r : Row) : Row :=
  mkRow (Campaign_ID r) (Company r) v (Target_Audience r) (Duration r)
    (Channel_Used r) (Conversion_Rate r) (Acquisition_Cost r) (ROI r)
    (Location r) (Language r) (Clicks r) (Impressions r) (Engagement_Score r)
    (Customer_Segment r) (Date r) (Campaign_Duration r) (Duration_Category r)
    (Engagement_Rate r) (Month r) (Quarter r) (Year r) (Engagement_Category r).

Definition set_Target_Audience (v : text) (r : Row) : Row :=
  mkRow (Campaign_ID r) (Company r) (Campaign_Type r) v (Duration r)
    (Channel_Used r) (Conversion_Rate r) (Acquisition_Cost r) (ROI r)
    (Location r) (Language r) (Clicks r) (Impressions r) (Engagement_Score r)
    (Customer_Segment r) (Date r) (Campaign_Duration r) (Duration_Category r)
    (Engagement_Rate r) (Month r) (Quarter r) (Year r) (Engagement_Category r).

Definition set_Channel_Used (v : text) (r : Row) : Row :=
  mkRow (Campaign_ID r) (Company r) (Campaign_Type r) (Target_Audience r)
    (Duration r) v (Conversion_Rate r) (Acquisition_Cost r) (ROI r)
    (Location r) (Language r) (Clicks r) (Impressions r) (Engagement_Score r)
    (Customer_Segment r) (Date r) (Campaign_Duration r) (Duration_Category r)
    (Engagement_Rate r) (Month r) (Quarter r) (Year r) (Engagement_Category r).

Definition set_Conversion_Rate (v : num) (r : Row) : Row :=
  mkRow (Campaign_ID r) (Company r) (Campaign_Type r) (Target_Audience r)
    (Duration r) (Channel_Used r) v (Acquisition_Cost r) (ROI r) (Location r)
    (Language r) (Clicks r) (Impressions r) (Engagement_Score r)
    (Customer_Segment r) (Date r) (Campaign_Duration r) (Duration_Category r)
    (Engagement_Rate r) (Month r) (Quarter r) (Year r) (Engagement_Category r).

Definition set_Acquisition_Cost (v : cell) (r : Row) : Row :=
  mkRow (Campaign_ID r) (Company r) (Campaign_Type r) (Target_Audience r)
    (Duration r) (Channel_Used r) (Conversion_Rate r) v (ROI r) (Location r)
    (Language r) (Clicks r) (Impressions r) (Engagement_Score r)
    (Customer_Segment r) (Date r) (Campaign_Duration r) (Duration_Category r)
    (Engagement_Rate r) (Month r) (Quarter r) (Year r) (Engagement_Category r).

Definition set_ROI (v : num) (r : Row) : Row :=
  mkRow (Campaign_ID r) (Company r) (Campaign_Type r) (Target_Audience r)
    (Duration r) (Channel_Used r) (Conversion_Rate r) (Acquisition_Cost r) v
    (Location r) (Language r) (Clicks r) (Impressions r) (Engagement_Score r)
    (Customer_Segment r) (Date r) (Campaign_Duration r) (Duration_Category r)
    (Engagement_Rate r) (Month r) (Quarter r) (Year r) (Engagement_Category r).

Definition set_Location (v : text) (r : Row) : Row :=
  mkRow (Campaign_ID r) (Company r) (Campaign_Type r) (Target_Audience r)
    (Duration r) (Channel_Used r) (Conversion_Rate r) (Acquisition_Cost r)
    (ROI r) v (Language r) (Clicks r) (Impressions r) (Engagement_Score r)
    (Customer_Segment r) (Date r) (Campaign_Duration r) (Duration_Category r)
    (Engagement_Rate r) (Month r) (Quarter r) (Year r) (Engagement_Category r).

Definition set_Language (v : text) (r : Row) : Row :=
  mkRow (Campaign_ID r) (Company r) (Campaign_Type r) (Target_Audience r)
    (Duration r) (Channel_Used r) (Conversion_Rate r) (Acquisition_Cost r)
    (ROI r) (Location r) v (Clicks r) (Impressions r) (Engagement_Score r)
    (Customer_Segment r) (Date r) (Campaign_Duration r) (Duration_Category r)
    (Engagement_Rate r) (Month r) (Quarter r) (Year r) (Engagement_Category r).

Definition set_Clicks (v : num) (r : Row) : Row :=
  mkRow (Campaign_ID r) (Company r) (Campaign_Type r) (Target_Audience r)
    (Duration r) (Channel_Used r) (Conversion_Rate r) (Acquisition_Cost r)
    (ROI r) (Location r) (Language r) v (Impressions r) (Engagement_Score r)
    (Customer_Segment r) (Date r) (Campaign_Duration r) (Duration_Category r)
    (Engagement_Rate r) (Month r) (Quarter r) (Year r) (Engagement_Category r).

Definition set_Impressions (v : num) (r : Row) : Row :=
  mkRow (Campaign_ID r) (Company r) (Campaign_Type r) (Target_Audience r)
    (Duration r) (Channel_Used r) (Conversion_Rate r) (Acquisition_Cost r)
    (ROI r) (Location r) (Language r) (Clicks r) v (Engagement_Score r)
    (Customer_Segment r) (Date r) (Campaign_Duration r) (Duration_Category r)
    (Engagement_Rate r) (Month r) (Quarter r) (Year r) (Engagement_Category r).

Definition set_Engagement_Score (v : num) (r : Row) : Row :=
  mkRow (Campaign_ID r) (Company r) (Campaign_Type r) (Target_Audience r)
    (Duration r) (Channel_Used r) (Conversion_Rate r) (Acquisition_Cost r)
    (ROI r) (Location r) (Language r) (Clicks r) (Impressions r) v
    (Customer_Segment r) (Date r) (Campaign_Duration r) (Duration_Category r)
    (Engagement_Rate r) (Month r) (Quarter r) (Year r) (Engagement_Category r).

Definition set_Customer_Segment (v : text) (r : Row) : Row :=
  mkRow (Campaign_ID r) (Company r) (Campaign_Type r) (Target_Audience r)
    (Duration r) (Channel_Used r) (Conversion_Rate r) (Acquisition_Cost r)
    (ROI r) (Location r) (Language r) (Clicks r) (Impressions r)
    (Engagement_Score r) v (Date r) (Campaign_Duration r)
    (Duration_Category r) (Engagement_Rate r) (Month r) (Quarter r) (Year r)
    (Engagement_Category r).

Definition set_derived 
  (v_Campaign_Duration : num)
  (v_Duration_Category : option duration_category)
  (v_Engagement_Rate : num)
  (v_Month : option Z)
  (v_Quarter : option Z)
  (v_Year : option Z)
  (v_Engagement_Category : option engagement_category)
  (r : Row) : Row :=
  mkRow (Campaign_ID r) (Company r) (Campaign_Type r) (Target_Audience r)
    (Duration r) (Channel_Used r) (Conversion_Rate r) (Acquisition_Cost r)
    (ROI r) (Location r) (Language r) (Clicks r) (Impressions r)
    (Engagement_Score r) (Customer_Segment r) (Date r) v_Campaign_Duration
    v_Duration_Category v_Engagement_Rate v_Month v_Quarter v_Year
    v_Engagement_Category.

(** A float column by name, with the assignment to one of its cells. *)
Record NumCol := mkNumCol {
  num_name : string;
  num_get : Row -> num;
  num_set : num -> Row -> Row }.

Record TextCol := mkTextCol {
  text_name : string;
  text_get : Row -> text;
  text_set : text -> Row -> Row }.

Definition Clicks_col := mkNumCol "Clicks" Clicks set_Clicks.
Definition Impressions_col := mkNumCol "Impressions" Impressions set_Impressions.
Definition Engagement_Score_col := mkNumCol "Engagement_Score" Engagement_Score set_Engagement_Score.
Definition Conversion_Rate_col := mkNumCol "Conversion_Rate" Conversion_Rate set_Conversion_Rate.
Definition ROI_col := mkNumCol "ROI" ROI set_ROI.

Definition Campaign_Type_col := mkTextCol "Campaign_Type" Campaign_Type set_Campaign_Type.
Definition Channel_Used_col := mkTextCol "Channel_Used" Channel_Used set_Channel_Used.
Definition Target_Audience_col := mkTextCol "Target_Audience" Target_Audience set_Target_Audience.
Definition Location_col := mkTextCol "Location" Location set_Location.
Definition Language_col := mkTextCol "Language" Language set_Language.
Definition Customer_Segment_col := mkTextCol "Customer_Segment" Customer_Segment set_Customer_Segment.

End Records.
Export Records.

(* ------------------------------------------------------------------------- *)
(** ** From the validated frame to typed rows *)

Module Typed.

Definition as_text (c : cell) : option text :=
  match c with
  | CNaN => Some None
  | CStr s => Some (Some s)
  | _ => None
  end.

Definition as_num (c : cell) : option num :=
  match c with
  | CNaN => Some None
  | CNum q => Some (Some q)
  | _ => None
  end.

Definition as_date (c : cell) : option (option Timestamp) :=
  match c with
  | CNaN => Some None
  | CDate t => Some (Some t)
  | _ => None
  end.

Definition as_key (c : cell) : option Z :=
  match c with
  | CNum q => if (Qden (Qred q) =? 1)%positive then Some (Qnum (Qred q)) else None
  | _ => None
  end.

Definition cell_of (df : MarketingDataLoader.RawFrame) (name : string) (i : nat) : option cell :=
  match MarketingDataLoader.getitem name df with
  | Some s => nth_error s i
  | None => None
  end.

Definition field {A} (df : MarketingDataLoader.RawFrame) (name : string) (i : nat)
  (read : cell -> option A) : option A :=
  match cell_of df name i with
  | Some c => read c
  | None => None
  end.

Notation "x <- m ;; k" := (match m with Some x => k | None => None end)
  (at level 61, m at next level, right associativity).

(** Row [i] of the frame, read with the types the Loader has converted the
    columns to; [None] when a cell has another type, which the typed rows do
    not cover. *)
Definition record (df : MarketingDataLoader.RawFrame) (i : nat) : option Row :=
  id <- field df "Campaign_ID" i as_key ;;
  company <- field df "Company" i as_text ;;
  campaign_type <- field df "Campaign_Type" i as_text ;;
  audience <- field df "Target_Audience" i as_text ;;
  duration <- cell_of df "Duration" i ;;
  channel <- field df "Channel_Used" i as_text ;;
  rate <- field df "Conversion_Rate" i as_num ;;
  cost <- cell_of df "Acquisition_Cost" i ;;
  roi <- field df "ROI" i as_num ;;
  location <- field df "Location" i as_text ;;
  language <- field df "Language" i as_text ;;
  clicks <- field df "Clicks" i as_num ;;
  impressions <- field df "Impressions" i as_num ;;
  score <- field df "Engagement_Score" i as_num ;;
  segment <- field df "Customer_Segment" i as_text ;;
  d <- field df "Date" i as_date ;;
  Some (mkRow id company campaign_type audience duration channel rate cost roi
          location language clicks impressions score segment d
          None None None None None None None).

(** [len(df)] *)
Definition len (df : MarketingDataLoader.RawFrame) : nat :=
  match df with
  | [] => O
  | (_, s) :: _ => List.length s
  end.

Definition records (df : MarketingDataLoader.RawFrame) : option DataFrame :=
  traverse (record df) (seq 0 (len df)).

End Typed.

(* ------------------------------------------------------------------------- *)
(** ** The Cleaner: [MarketingDataCleaner] *)

Module MarketingDataCleaner.

Definition numeric_columns : list NumCol :=
  [Clicks_col; Impressions_col; Engagement_Score_col; Conversion_Rate_col; ROI_col].

Definition categorical_columns : list TextCol :=
  [Campaign_Type_col; Channel_Used_col; Target_Audience_col; Location_col;
   Language_col; Customer_Segment_col].

(** [df[col].fillna(median_value, inplace=True)] when the column has a null;
    the column object is the frame's own, so the frame is filled. *)
Definition fill_numeric (c : NumCol) (df : DataFrame) : DataFrame :=
  if existsb isnull (column (num_get c) df) then
    let median_value := median (column (num_get c) df) in
    map (fun r => if isnull (num_get c r) then num_set c median_value r else r) df
  else df.

Definition fill_categorical (c : TextCol) (df : DataFrame) : DataFrame :=
  if existsb isnull (column (text_get c) df) then
    map (fun r => if isnull (text_get c r) then text_set c (Some "Unknown"%string) r else r) df
  else df.

(** [handle_missing_values]: the loops run over the columns in order, each
    on the frame the previous one left. *)
Definition handle_missing_values (df : DataFrame) : DataFrame :=
  let df := fold_left (fun d c => fill_numeric c d) numeric_columns df in
  fold_left (fun d c => fill_categorical c d) categorical_columns df.

(** [df.drop_duplicates(subset=['Campaign_ID'], keep='first')]: a row is
    dropped when its key was already seen above it. *)
Fixpoint drop_duplicates (seen : list Z) (df : DataFrame) : DataFrame :=
  match df with
  | [] => []
  | r :: rest =>
    if existsb (Z.eqb (Campaign_ID r)) seen then drop_duplicates seen rest
    else r :: drop_duplicates (Campaign_ID r :: seen) rest
  end.

Definition remove_duplicates (df : DataFrame) : DataFrame := drop_duplicates [] df.

Definition is_upper (a : ascii) : bool :=
  let n := nat_of_ascii a in (65 <=? n)%nat && (n <=? 90)%nat.
Definition is_lower (a : ascii) : bool :=
  let n := nat_of_ascii a in (97 <=? n)%nat && (n <=? 122)%nat.
Definition to_upper (a : ascii) : ascii :=
  if is_lower a then ascii_of_nat (nat_of_ascii a - 32) else a.
Definition to_lower (a : ascii) : ascii :=
  if is_upper a then ascii_of_nat (nat_of_ascii a + 32) else a.

(** [str.title()] on ASCII text: a letter that follows a letter is lowered,
    any other letter is raised. *)
Fixpoint title_from (after_letter : bool) (s : string) : string :=
  match s with
  | EmptyString => EmptyString
  | String a t =>
    if is_upper a || is_lower a
    then String (if after_letter then to_lower a else to_upper a) (title_from true t)
    else String a (title_from false t)
  end.

Definition title (s : string) : string := title_from false s.

Definition title_column (c : TextCol) (df : DataFrame) : DataFrame :=
  map (fun r => text_set c (option_map title (text_get c r)) r) df.

Definition normalize_categorical_values (df : DataFrame) : DataFrame :=
  let df := title_column Campaign_Type_col df in
  let df := title_column Channel_Used_col df in
  let df := title_column Location_col df in
  title_column Customer_Segment_col df.

Definition zero : num := Some 0%Q.
Definition one : num := Some 1%Q.

(** The repair of one of the count columns: the cells under the mask
    [df[col] < 0] receive the median of the column as it stands. *)
Definition repair_negative (c : NumCol) (df : DataFrame) : DataFrame :=
  let invalid r := lt (num_get c r) zero in
  if existsb invalid df then
    let m := median (column (num_get c) df) in
    map (fun r => if invalid r then num_set c m r else r) df
  else df.

(** The cost column, when it is text: currency signs and thousands marks are
    removed and the rest is read as a float; a cell that does not read
    raises. *)
Definition cost_cell_to_float (c : cell) : option cell :=
  match c with
  | CStr x => option_map CNum (Str.parse_currency x)
  | _ => Some CNaN
  end.

Fixpoint parse_costs (df : DataFrame) : option DataFrame :=
  match df with
  | [] => Some []
  | r :: rest =>
    match cost_cell_to_float (Acquisition_Cost r) with
    | None => None
    | Some c => option_map (cons (set_Acquisition_Cost c r)) (parse_costs rest)
    end
  end.

Definition repair_conversion_rate (df : DataFrame) : DataFrame :=
  let invalid r := lt (Conversion_Rate r) zero || gt (Conversion_Rate r) one in
  if existsb invalid df then
    let m := median (column Conversion_Rate df) in
    map (fun r => if invalid r then set_Conversion_Rate m r else r) df
  else df.

(** [if df['Acquisition_Cost'].dtype == object: ...astype(float)] *)
Definition cost_to_float (df : DataFrame) : option DataFrame :=
  if dtype_object (column Acquisition_Cost df) then parse_costs df else Some df.

Definition validate_numeric_ranges (df : DataFrame) : option DataFrame :=
  let df := fold_left (fun d c => repair_negative c d)
              [Clicks_col; Impressions_col; Engagement_Score_col] df in
  match cost_to_float df with
  | None => None
  | Some df => Some (repair_conversion_rate df)
  end.

(** [str.extract(r'(\d+)')]: the first run of digits in the text. *)
Fixpoint extract_digits (s : string) : option Z :=
  match s with
  | EmptyString => None
  | String a t =>
    if Str.is_digit a then Some (fst (fst (Str.take_digits 0 0 s)))
    else extract_digits t
  end.

Definition le (x y : Q) : bool := Qle_bool x y.

(** [pd.cut(x, bins=[0, 7, 30, inf], labels=['Short', 'Medium', 'Long'])]:
    intervals open on the left and closed on the right. *)
Definition cut_duration (x : num) : option duration_category :=
  match x with
  | None => None
  | Some v =>
    if le v 0 then None
    else if le v 7 then Some Short
    else if le v 30 then Some Medium
    else Some Long
  end.

(** [pd.cut(x, bins=[0, 3, 6, 10], labels=['Low', 'Medium', 'High'])]. *)
Definition cut_engagement (x : num) : option engagement_category :=
  match x with
  | None => None
  | Some v =>
    if le v 0 then None
    else if le v 3 then Some Low
    else if le v 6 then Some Medium_engagement
    else if le v 10 then Some High
    else None
  end.

Definition campaign_duration (object_dtype : bool) (c : cell) : num :=
  if object_dtype then
    match c with
    | CStr x => option_map inject_Z (extract_digits x)
    | _ => None
    end
  else float_of_cell c.

Definition create_derived_features (df : DataFrame) : DataFrame :=
  let object_dtype := dtype_object (column Duration df) in
  map (fun r =>
         let d := campaign_duration object_dtype (Duration r) in
         set_derived d
           (cut_duration d)
           (div (Clicks r) (Impressions r))
           (option_map (fun t => month_number (month t)) (Date r))
           (option_map quarter (Date r))
           (option_map year (Date r))
           (cut_engagement (Engagement_Score r))
           r) df.

Record cleaning_summary := mkSummary {
  initial_rows : nat;
  final_rows : nat;
  rows_removed : nat;
  derived_features_added : list string }.

(** [clean_data(df)]: the cleaned frame and the summary; [None] when a step
    raises. *)
Definition clean_data (df : DataFrame) : option (DataFrame * cleaning_summary) :=
  let initial := List.length df in
  let df := handle_missing_values df in
  let df := remove_duplicates df in
  let df := normalize_categorical_values df in
  match validate_numeric_ranges df with
  | None => None
  | Some df =>
    let df := create_derived_features df in
    Some (df,
          mkSummary initial (List.length df) (initial - List.length df)
            ["Campaign_Duration"; "Duration_Category"; "Engagement_Rate"; "Month";
             "Quarter"; "Year"; "Engagement_Category"]%string)
  end.

End MarketingDataCleaner.

(* ------------------------------------------------------------------------- *)
(** ** Grouping keys *)

Module Groups.

(** [a == b] on text cells: a missing value equals nothing. *)
Definition text_eqb (a b : text) : bool :=
  match a, b with
  | Some x, Some y => String.eqb x y
  | _, _ => false
  end.

Fixpoint insert_key (x : string) (l : list string) : list string :=
  match l with
  | [] => [x]
  | y :: t =>
    if String.eqb x y then l
    else if String.leb x y then x :: l
    else y :: insert_key x t
  end.

(** The keys of [groupby(col)]: the distinct values in increasing order,
    missing values left out. *)
Definition group_keys (col : list text) : list string :=
  fold_right insert_key [] (dropna col).

Fixpoint insert_label (x : Z) (l : list Z) : list Z :=
  match l with
  | [] => [x]
  | y :: t =>
    if x =? y then l
    else if x <? y then x :: l
    else y :: insert_label x t
  end.

Definition sorted_labels (col : list Z) : list Z := fold_right insert_label [] col.

Fixpoint distinct (l : list string) : list string :=
  match l with
  | [] => []
  | x :: t => if existsb (String.eqb x) t then distinct t else x :: distinct t
  end.

(** [Series.nunique()]: the number of distinct values, missing ones aside. *)
Definition nunique (col : list text) : nat := List.length (distinct (dropna col)).

(** [Series.unique()]: the values in order of first appearance, the missing
    value (once) among them. *)
Fixpoint unique_from (seen : list text) (col : list text) : list text :=
  match col with
  | [] => []
  | x :: t =>
    if existsb (fun y => match x, y with
                         | None, None => true
                         | _, _ => text_eqb x y
                         end) seen
    then unique_from seen t
    else x :: unique_from (x :: seen) t
  end.

Definition unique (col : list text) : list text := unique_from [] col.

End Groups.
Export Groups.

(* ------------------------------------------------------------------------- *)
(** ** The CohortEngine: [CohortAnalyzer] *)

Module CohortAnalyzer.

Record CohortRow := mkCohortRow {
  campaign : Row;
  Cohort_Month : Z;
  Months_Since_First_Campaign : Z }.

(** Order of [sort_values(['Date', 'Campaign_ID'])]; NaT sorts last. *)
Definition date_compare (a b : option Timestamp) : comparison :=
  match a, b with
  | Some x, Some y => Calendar.compare x y
  | Some _, None => Lt
  | None, Some _ => Gt
  | None, None => Eq
  end.

Definition row_leb (a b : Row) : bool :=
  match date_compare (Date a) (Date b) with
  | Lt => true
  | Gt => false
  | Eq => Campaign_ID a <=? Campaign_ID b
  end.

Fixpoint insert_row (r : Row) (l : DataFrame) : DataFrame :=
  match l with
  | [] => [r]
  | x :: t => if row_leb r x then r :: l else x :: insert_row r t
  end.

Definition sort_values (df : DataFrame) : DataFrame := fold_right insert_row [] df.

(** [df.groupby('Target_Audience')['Date'].transform('min')] at a row with
    the given audience: the earliest date of its group; NaT for a row whose
    audience is missing, as such rows belong to no group. *)
Definition first_date (df : DataFrame) (audience : text) : option Timestamp :=
  series_min (column Date (filter (fun r => text_eqb (Target_Audience r) audience) df)).

(** One row of [create_cohorts].  The month offset is read with [x.n], which
    raises on the NaT that a missing date or a missing audience gives. *)
Definition assign_cohort (df : DataFrame) (r : Row) : option CohortRow :=
  match Date r, first_date df (Target_Audience r) with
  | Some d, Some d0 =>
    Some (mkCohortRow r (to_period_M d) (to_period_M d - to_period_M d0))
  | _, _ => None
  end.

(** [create_cohorts(df)].  A frame without a record has no datetime column
    (its [Date] column is of dtype object), and the [.dt] accessor raises on
    it. *)
Definition create_cohorts (df : DataFrame) : option (list CohortRow) :=
  match df with
  | [] => None
  | _ :: _ =>
    let df := sort_values df in
    traverse (assign_cohort df) df
  end.

(** A pivot table: row labels, column labels, and the cells row by row; an
    absent cell is NaN. *)
Record Matrix := mkMatrix {
  index : list Z;
  labels : list Z;
  values : list (list num) }.

Definition bucket (df : list CohortRow) (i c : Z) : list CohortRow :=
  filter (fun r => (Cohort_Month r =? i) && (Months_Since_First_Campaign r =? c)) df.

(** [df.groupby([Cohort_Month, Months_Since_First_Campaign]).agg(f)
      .reset_index().pivot(index=Cohort_Month, columns=Months_..., values=...)] *)
Definition pivot (agg : list CohortRow -> num) (df : list CohortRow) : Matrix :=
  let index := sorted_labels (map Cohort_Month df) in
  let labels := sorted_labels (map Months_Since_First_Campaign df) in
  mkMatrix index labels
    (map (fun i => map (fun c => match bucket df i c with
                                 | [] => None
                                 | g => agg g
                                 end) labels) index).

Fixpoint position (x : Z) (l : list Z) : option nat :=
  match l with
  | [] => None
  | y :: t => if x =? y then Some O else option_map S (position x t)
  end.

(** [matrix[c]]: the column labelled [c]; [None] is the [KeyError]. *)
Definition matrix_column (m : Matrix) (c : Z) : option (list num) :=
  match position c (labels m) with
  | None => None
  | Some k => Some (map (fun row => nth k row None) (values m))
  end.

(** [matrix.div(series, axis=0)]: each row is divided by its entry of the
    series. *)
Definition div_rows (m : Matrix) (s : list num) : Matrix :=
  mkMatrix (index m) (labels m)
    (map (fun rs => map (fun v => div v (snd rs)) (fst rs)) (combine (values m) s)).

(** The cell at row label [i] and column label [c], when both labels exist. *)
Definition cell_at (m : Matrix) (i c : Z) : option num :=
  match position i (index m), position c (labels m) with
  | Some a, Some b => Some (nth b (nth a (values m) []) None)
  | _, _ => None
  end.

Definition count_audiences (g : list CohortRow) : num :=
  Some (inject_Z (Z.of_nat (nunique (map (fun r => Target_Audience (campaign r)) g)))).

Definition retention_matrix (df : list CohortRow) : option Matrix :=
  let m := pivot count_audiences df in
  match matrix_column m 0 with
  | None => None
  | Some base => Some (div_rows m base)
  end.

Record cohort_metrics := mkMetrics {
  retention : Matrix;
  conversion : Matrix;
  roi : Matrix }.

Definition calculate_cohort_metrics (df : list CohortRow) : option cohort_metrics :=
  match retention_matrix df with
  | None => None
  | Some r =>
    Some (mkMetrics r
            (pivot (fun g => mean (map (fun x => Conversion_Rate (campaign x)) g)) df)
            (pivot (fun g => mean (map (fun x => ROI (campaign x)) g)) df))
  end.

End CohortAnalyzer.

(* ------------------------------------------------------------------------- *)
(** ** The SegmentEngine: [SegmentAnalyzer] *)

Module SegmentAnalyzer.

(** The float cells of the cost column; the engines read the frame the
    Cleaner wrote, where the column is float. *)
Definition cost (r : Row) : num := float_of_cell (Acquisition_Cost r).

Record rfm_row := mkRfm {
  audience : string;
  Recency_Days : option Z;
  Campaign_Frequency : nat;
  Total_Spend : Q;
  Avg_Spend_per_Campaign : num }.

Definition audience_group (df : DataFrame) (a : string) : DataFrame :=
  filter (fun r => text_eqb (Target_Audience r) (Some a)) df.

(** The recency aggregate, [lambda x: (pd.Timestamp.now() - x.max()).days],
    with the reading [now] of the clock at the call. *)
Definition recency (now : Timestamp) (dates : list (option Timestamp)) : option Z :=
  option_map (fun latest => timedelta_days now latest) (series_max dates).

(** [calculate_rfm_metrics(df)], run when the clock reads [now]. *)
Definition calculate_rfm_metrics (now : Timestamp) (df : DataFrame) : list rfm_row :=
  map (fun a =>
         let g := audience_group df a in
         let frequency := List.length g in
         let total := round (sum (dropna (column cost g))) 2 in
         mkRfm a
           (recency now (column Date g))
           frequency
           total
           (round_num (div (Some total) (Some (inject_Z (Z.of_nat frequency)))) 2))
      (group_keys (column Target_Audience df)).

Definition segment_features (r : Row) : list num :=
  [Conversion_Rate r; ROI r; Engagement_Score r; Engagement_Rate r].

Record ClusteredRow := mkClustered {
  campaign : Row;
  Cluster : nat }.

Record cluster_stat := mkClusterStat {
  size : nat;
  avg_conversion_rate : num;
  avg_roi : num;
  avg_acquisition_cost : num;
  avg_engagement_score : num;
  avg_engagement_rate : num }.

Definition describe_cluster (cluster_data : list ClusteredRow) : cluster_stat :=
  let col (f : Row -> num) := mean (map (fun r => f (campaign r)) cluster_data) in
  mkClusterStat (List.length cluster_data)
    (col Conversion_Rate) (col ROI) (col cost) (col Engagement_Score) (col Engagement_Rate).

Definition digit_char (n : nat) : ascii := ascii_of_nat (48 + n).

Fixpoint nat_digits (fuel n : nat) (acc : string) : string :=
  match fuel with
  | O => acc
  | S fuel' =>
    let acc' := String (digit_char (n mod 10)) acc in
    if (n <? 10)%nat then acc' else nat_digits fuel' (n / 10) acc'
  end.

(** [str(n)] for a natural number. *)
Definition string_of_nat (n : nat) : string := nat_digits (S n) n EmptyString.

(** [sklearn.utils.check_random_state]: an integer [random_state] seeds a
    generator of its own; without one the process-wide generator is used. *)
Definition check_random_state (random_state : option Z) (global_state : Z) : Z :=
  match random_state with
  | Some seed => seed
  | None => global_state
  end.

(** *** scikit-learn, as far as the engine uses it

    [StandardScaler] and [KMeans] are library code; they are modelled from
    what they compute.  The scaler centres and scales every column.  [KMeans]
    starts from [k] samples drawn by a seeded generator, moves the centres
    by Lloyd's iterations and labels every sample with the index of the
    centre closest to it.  Which samples the seeding draws, and the float
    square root, are parameters; the tolerance that may end the iterations
    early, the restarts and the relocation of a centre left without samples
    are not modelled: they change which centres are reached, not what a
    label is. *)

(** The column [j] of a feature matrix given by its rows. *)
Definition feature_column (X : list (list num)) (j : nat) : list num :=
  map (fun row => nth j row None) X.

(** The variance [StandardScaler] computes: of the population, NaN aside.
    (Here and below [Qred] keeps a fraction in lowest terms; it does not
    change its value.) *)
Definition variance (v : list Q) : Q :=
  let n := inject_Z (Z.of_nat (List.length v)) in
  let m := Qred (sum v / n) in
  Qred (sum (map (fun x => Qred ((x - m) * (x - m))) v) / n).

(** A sample of [KMeans]: a row without NaN. *)
Definition point : Type := list Q.

(** [KMeans] refuses a matrix that holds NaN. *)
Definition check_array (X : list (list num)) : option (list point) :=
  traverse (traverse (fun v : num => v)) X.

Definition squared_distance (a b : point) : Q :=
  Qred (sum (map (fun p => Qred ((fst p - snd p) * (fst p - snd p))) (combine a b))).

(** The position of the least value, the first one among equals. *)
Fixpoint argmin_from (best : nat) (least : Q) (i : nat) (l : list Q) : nat :=
  match l with
  | [] => best
  | v :: t =>
    if Qltb v least then argmin_from i v (S i) t
    else argmin_from best least (S i) t
  end.

Definition argmin (l : list Q) : nat :=
  match l with
  | [] => O
  | v :: t => argmin_from 0 v 1 t
  end.

(** The label of a sample: the index of the closest centre. *)
Definition nearest (centres : list point) (x : point) : nat :=
  argmin (map (squared_distance x) centres).

(** The mean of the samples of a cluster, feature by feature. *)
Definition centroid (pts : list point) : point :=
  match pts with
  | [] => []
  | p :: _ =>
    map (fun j => Qred (sum (map (fun q => nth j q 0%Q) pts)
                        / inject_Z (Z.of_nat (List.length pts))))
        (seq 0 (List.length p))
  end.

(** One iteration: every centre moves to the mean of the samples that are
    closest to it; a centre without samples stays. *)
Definition update_centres (centres X : list point) : list point :=
  map (fun jc => match filter (fun x => (nearest centres x =? fst jc)%nat) X with
                 | [] => snd jc
                 | pts => centroid pts
                 end)
      (combine (seq 0 (List.length centres)) centres).

Definition same_point (a b : point) : bool :=
  (List.length a =? List.length b)%nat &&
  forallb (fun xy => Qeq_bool (fst xy) (snd xy)) (combine a b).

Definition same_centres (a b : list point) : bool :=
  (List.length a =? List.length b)%nat &&
  forallb (fun pq => same_point (fst pq) (snd pq)) (combine a b).

(** The iterations, until the centres no longer move or [max_iter] of them
    are done. *)
Fixpoint lloyd (max_iter : nat) (centres X : list point) : list point :=
  match max_iter with
  | O => centres
  | S n =>
    let next := update_centres centres X in
    if same_centres next centres then next else lloyd n next X
  end.

(** [max_iter=300], the default of [KMeans]. *)
Definition max_iter : nat := 300.

Section Clustering.

(** What the model leaves to the floating-point unit and to the random
    generator: the float square root, and the sample that the seeding of
    [KMeans] draws, from the generator in a given state, as its [i]-th
    centre. *)
Variable sqrt : Q -> Q.
Variable pick : Z -> list point -> nat -> nat.

(** [scale_] of [StandardScaler]: the standard deviation of the column, 1
    for a column that does not vary. *)
Definition scale_of (col : list num) : num :=
  match dropna col with
  | [] => None
  | v => let sd := sqrt (variance v) in Some (if Qeq_bool sd 0 then 1%Q else sd)
  end.

(** [StandardScaler().fit_transform(X)]: every cell less the mean of its
    column, over the scale of the column; NaN cells stay NaN and count for
    neither.  A matrix without a row is refused. *)
Definition fit_transform (X : list (list num)) : option (list (list num)) :=
  match X with
  | [] => None
  | _ :: _ =>
    Some (map (fun row =>
                 map (fun jv =>
                        let col := feature_column X (fst jv) in
                        match snd jv, mean col, scale_of col with
                        | Some v, Some m, Some sd => Some (Qred ((v - m) / sd))
                        | _, _, _ => None
                        end)
                     (combine (seq 0 (List.length row)) row))
              X)
  end.

Definition initial_centres (k : nat) (state : Z) (X : list point) : list point :=
  map (fun i => nth (pick state X i) X []) (seq 0 k).

(** [KMeans(n_clusters=k, random_state).fit_predict(X)] with the generator in
    [state]: NaN, no cluster to form and fewer samples than clusters are
    refused; the labels are those of the centres the iterations end at. *)
Definition fit_predict (k : nat) (state : Z) (X : list (list num))
  : option (list nat) :=
  match check_array X with
  | None => None
  | Some pts =>
    if (k =? 0)%nat || (List.length pts <? k)%nat then None
    else Some (map (nearest (lloyd max_iter (initial_centres k state pts) pts)) pts)
  end.

(** [perform_cluster_analysis(df, n_clusters=5)], run when the process-wide
    generator is in [global_state].  Assigning the labels as a column raises
    unless there is one label per row. *)
Definition perform_cluster_analysis
  (global_state : Z) (df : DataFrame) (n_clusters : option nat)
  : option (list ClusteredRow * list (string * cluster_stat)) :=
  let n_clusters := match n_clusters with Some k => k | None => 5%nat end in
  match fit_transform (map segment_features df) with
  | None => None
  | Some features_scaled =>
    match fit_predict n_clusters (check_random_state (Some 42) global_state)
            features_scaled with
    | None => None
    | Some cluster_labels =>
      if (List.length cluster_labels =? List.length df)%nat then
        let df' := map (fun rl => mkClustered (fst rl) (snd rl))
                     (combine df cluster_labels) in
        Some (df',
              map (fun i =>
                     (("Cluster_" ++ string_of_nat i)%string,
                      describe_cluster (filter (fun r => (Cluster r =? i)%nat) df')))
                  (seq 0 n_clusters))
      else None
    end
  end.

End Clustering.

End SegmentAnalyzer.

(* ------------------------------------------------------------------------- *)
(** ** The ChannelEngine: [ChannelAnalyzer] *)

Module ChannelAnalyzer.

Definition cost (r : Row) : num := SegmentAnalyzer.cost r.

(** [0.05] *)
Definition alpha : Q := 5 # 100.

Record anova := mkAnova {
  f_statistic : num;
  p_value : num;
  significant : bool }.

(** The entry built from the outcome of the F-test:
    [{'f_statistic': round(f_stat, 3), 'p_value': round(p_value, 3),
      'significant': p_value < 0.05}]. *)
Definition anova_entry (f_stat p : num) : anova :=
  mkAnova (round_num f_stat 3) (round_num p 3) (lt p (Some alpha)).

(** [[group for _, group in df.groupby('Channel_Used')[metric]]] *)
Definition channel_groups (metric : Row -> num) (df : DataFrame) : list (list num) :=
  map (fun ch => column metric (filter (fun r => text_eqb (Channel_Used r) (Some ch)) df))
      (group_keys (column Channel_Used df)).

Definition performance_metrics : list (Row -> num) :=
  [Impressions; Clicks; Conversion_Rate; ROI; cost; Engagement_Score; Engagement_Rate].

Record statistical_results := mkStats {
  anovas : list (string * anova);
  correlations : list (list num) }.

Section Statistics.

(** SciPy's one-way F-test over the groups: the statistic and the p-value, or
    an exception; and pandas' correlation matrix of a list of columns. *)
Variable f_oneway : list (list num) -> option (num * num).
Variable corr : list (list num) -> list (list num).

Definition anova_for (df : DataFrame) (metric : NumCol) : option (string * anova) :=
  match f_oneway (channel_groups (num_get metric) df) with
  | None => None
  | Some (f_stat, p) =>
    Some ((num_name metric ++ "_anova")%string, anova_entry f_stat p)
  end.

Definition perform_statistical_analysis (df : DataFrame) : option statistical_results :=
  match traverse (anova_for df) [Conversion_Rate_col; ROI_col; Engagement_Score_col] with
  | None => None
  | Some entries =>
    Some (mkStats entries
            (map (fun row => map (fun v => round_num v 3) row)
                 (corr (map (fun m => column m df) performance_metrics))))
  end.

End Statistics.

(** Exactly [n] decimal digits of [v], the high ones zero. *)
Fixpoint pad_digits (n : nat) (v : Z) : string :=
  match n with
  | O => EmptyString
  | S n' =>
    (pad_digits n' (v / 10) ++
     String (ascii_of_nat (48 + Z.to_nat (v mod 10))) EmptyString)%string
  end.

Fixpoint Z_digits (fuel : nat) (v : Z) (acc : string) : string :=
  match fuel with
  | O => acc
  | S fuel' =>
    let acc' := String (ascii_of_nat (48 + Z.to_nat (v mod 10))) acc in
    if v <? 10 then acc' else Z_digits fuel' (v / 10) acc'
  end.

Definition string_of_Z_nonneg (v : Z) : string :=
  Z_digits (S (Z.to_nat (Z.log2 v))) v EmptyString.

(** [f"{x:.2f}"]: the nearest decimal with two places, ties to even, the sign
    of [x] kept. *)
Definition format_2f (x : num) : string :=
  match x with
  | None => "nan"
  | Some v =>
    let scaled := Z.abs (round_half_even (v * 100)) in
    ((if Qltb v 0 then "-" else "") ++
     string_of_Z_nonneg (scaled / 100) ++ "." ++ pad_digits 2 (scaled mod 100))%string
  end.

(** [f"{x:.2%}"] *)
Definition format_2pct (x : num) : string :=
  (format_2f (option_map (fun v => v * 100)%Q x) ++ "%")%string.

Definition high_roi (avg : num) : string :=
  ("High ROI performer (ROI: " ++ format_2f avg ++
   "). Consider increasing budget allocation.")%string.

Definition low_roi (avg : num) : string :=
  ("Below average ROI (ROI: " ++ format_2f avg ++
   "). Review campaign strategy and targeting.")%string.

Definition low_conversion (avg : num) : string :=
  ("Below average conversion rate (" ++ format_2pct avg ++
   "). Review targeting and creative strategy.")%string.

Definition high_cost (avg : num) : string :=
  ("High acquisition cost ($" ++ format_2f avg ++
   "). Optimize bidding strategy and targeting.")%string.

Definition low_engagement (avg : num) : string :=
  ("Low engagement score (" ++ format_2f avg ++
   "). Improve content quality and engagement factors.")%string.

Definition low_engagement_rate (avg : num) : string :=
  ("Low engagement rate (" ++ format_2pct avg ++
   "). Review content strategy and audience targeting.")%string.

(** [df[df['Channel_Used'] == channel]] *)
Definition channel_data (df : DataFrame) (channel : text) : DataFrame :=
  filter (fun r => text_eqb (Channel_Used r) channel) df.

(** The list built for one channel, one [append] after the other. *)
Definition recommend (df : DataFrame) (channel : text) : list string :=
  let data := channel_data df channel in
  let avg_roi := mean (column ROI data) in
  let avg_conv_rate := mean (column Conversion_Rate data) in
  let avg_cost := mean (column cost data) in
  let avg_engagement := mean (column Engagement_Score data) in
  let avg_engagement_rate := mean (column Engagement_Rate data) in
  [if gt avg_roi (mean (column ROI df)) then high_roi avg_roi else low_roi avg_roi]
  ++ (if lt avg_conv_rate (mean (column Conversion_Rate df))
      then [low_conversion avg_conv_rate] else [])
  ++ (if gt avg_cost (mean (column cost df)) then [high_cost avg_cost] else [])
  ++ (if lt avg_engagement (mean (column Engagement_Score df))
      then [low_engagement avg_engagement] else [])
  ++ (if lt avg_engagement_rate (mean (column Engagement_Rate df))
      then [low_engagement_rate avg_engagement_rate] else []).

Definition calculate_channel_recommendations (df : DataFrame)
  : list (text * list string) :=
  map (fun channel => (channel, recommend df channel)) (unique (column Channel_Used df)).

End ChannelAnalyzer.

(* ------------------------------------------------------------------------- *)
(** ** Sample data *)

Module Samples.

Import MarketingDataLoader.

Definition month_of_number (n : Z) : option month_name :=
  nth_error [Jan; Feb; Mar; Apr; May; Jun; Jul; Aug; Sep; Oct; Nov; Dec] (Z.to_nat (n - 1)).

(** A date parser for the samples: [YYYY-MM-DD] only. *)
Definition iso_date (s : string) : option Timestamp :=
  let '(y, n1, r1) := Str.take_digits 0 0 s in
  match r1 with
  | String "-"%char r2 =>
    let '(m, n2, r3) := Str.take_digits 0 0 r2 in
    match r3 with
    | String "-"%char r4 =>
      let '(d, n3, r5) := Str.take_digits 0 0 r4 in
      match r5, (if 1 <=? m then month_of_number m else None) with
      | EmptyString, Some mn =>
        if (n1 =? 4)%nat && (n2 =? 2)%nat && (n3 =? 2)%nat && (1 <=? d) && (d <=? 31)
        then Some (date y mn d) else None
      | _, _ => None
      end
    | _ => None
    end
  | _ => None
  end.

Definition no_epoch_dates (q : Q) : option Timestamp := None.

(** The five campaigns of [create_sample_data.py], as [read_csv] gives
    them. *)
Definition sample_csv : RawFrame :=
  [("Campaign_ID", [CNum 1; CNum 2; CNum 3; CNum 4; CNum 5]);
   ("Company", [CStr "Innovate Industries"; CStr "NexGen Systems";
                CStr "Alpha Innovations"; CStr "DataTech Solutions";
                CStr "NexGen Systems"]);
   ("Campaign_Type", [CStr "Email"; CStr "Email"; CStr "Influencer";
                      CStr "Display"; CStr "Email"]);
   ("Target_Audience", [CStr "Men 18-24"; CStr "Women 35-44"; CStr "Men 25-34";
                        CStr "All Ages"; CStr "Men 25-34"]);
   ("Duration", [CStr "30 days"; CStr "60 days"; CStr "30 days"; CStr "60 days";
                 CStr "15 days"]);
   ("Channel_Used", [CStr "Google Ads"; CStr "Google Ads"; CStr "YouTube";
                     CStr "YouTube"; CStr "YouTube"]);
   ("Conversion_Rate", [CNum (4 # 100); CNum (12 # 100); CNum (7 # 100);
                        CNum (11 # 100); CNum (5 # 100)]);
   ("Acquisition_Cost", [CStr "$16,174.00"; CStr "$11,566.00"; CStr "$10,200.00";
                         CStr "$12,724.00"; CStr "$16,452.00"]);
   ("ROI", [CNum (629 # 100); CNum (561 # 100); CNum (718 # 100);
            CNum (555 # 100); CNum (65 # 10)]);
   ("Location", [CStr "Chicago"; CStr "New York"; CStr "Los Angeles"; CStr "Miami";
                 CStr "Los Angeles"]);
   ("Language", [CStr "Spanish"; CStr "German"; CStr "French"; CStr "Mandarin";
                 CStr "Mandarin"]);
   ("Clicks", [CNum 506; CNum 116; CNum 584; CNum 217; CNum 379]);
   ("Impressions", [CNum 1922; CNum 7523; CNum 7698; CNum 1820; CNum 4201]);
   ("Engagement_Score", [CNum 6; CNum 7; CNum 1; CNum 7; CNum 3]);
   ("Customer_Segment", [CStr "Health & Wellness"; CStr "Fashionistas";
                         CStr "Outdoor Adventurers"; CStr "Health & Wellness";
                         CStr "Health & Wellness"]);
   ("Date", [CStr "2021-01-01"; CStr "2021-01-02"; CStr "2021-01-03";
             CStr "2021-01-04"; CStr "2021-01-05"])]%string.

(** The same file with the cost of the last campaign mistyped. *)
Definition broken_csv : RawFrame :=
  setitem "Acquisition_Cost"
    [CStr "$16,174.00"; CStr "$11,566.00"; CStr "$10,200.00"; CStr "$12,724.00";
     CStr "$16.452,00 USD"]%string sample_csv.

Definition disk (path : string) : option RawFrame :=
  if String.eqb path "data/raw/marketing_campaign_dataset.csv" then Some sample_csv
  else if String.eqb path "data/raw/broken.csv" then Some broken_csv
  else None.

Local Open Scope string_scope.

(** A campaign record as the Loader hands it over: no missing cell, the
    derived columns not yet computed. *)
Definition campaign (id : Z) (audience channel : string) (d : Timestamp)
  (rate : Q) (cost : cell) (roi clicks impressions score : Q) : Row :=
  mkRow id (Some "Innovate Industries") (Some "Email") (Some audience)
    (CStr "30 days") (Some channel) (Some rate) cost (Some roi)
    (Some "Chicago") (Some "Spanish") (Some clicks) (Some impressions) (Some score)
    (Some "Health & Wellness") (Some d)
    None None None None None None None.

(** A campaign entered with a refund as its cost. *)
Definition refunded : DataFrame :=
  [campaign 1 "Men 18-24" "Google Ads" (date 2021 Jan 1)
     (4 # 100) (CStr "$-250.00") (629 # 100) 506 1922 6].

(** Three campaigns whose click counts were all entered negative. *)
Definition negative_clicks : DataFrame :=
  [campaign 1 "Men 18-24" "Google Ads" (date 2021 Jan 1)
     (4 # 100) (CNum 16174) (629 # 100) (-506) 1922 6;
   campaign 2 "Women 35-44" "Google Ads" (date 2021 Jan 2)
     (12 # 100) (CNum 11566) (561 # 100) (-116) 7523 7;
   campaign 3 "Men 25-34" "YouTube" (date 2021 Jan 3)
     (7 # 100) (CNum 10200) (718 # 100) (-584) 7698 1].

(** A frame in which the first campaign was entered twice, one click count
    is negative and one conversion rate is a percentage. *)
Definition untidy : DataFrame :=
  [campaign 1 "Men 18-24" "Google Ads" (date 2021 Jan 1)
     (4 # 100) (CStr "$16,174.00") (629 # 100) 506 1922 6;
   campaign 2 "Women 35-44" "Google Ads" (date 2021 Jan 2)
     12 (CStr "$11,566.00") (561 # 100) 116 7523 7;
   campaign 1 "Men 18-24" "Google Ads" (date 2021 Jan 1)
     (4 # 100) (CStr "$16,174.00") (629 # 100) 506 1922 6;
   campaign 3 "Men 25-34" "YouTube" (date 2021 Jan 3)
     (7 # 100) (CStr "$10,200.00") (718 # 100) (-584) 7698 1;
   campaign 4 "All Ages" "YouTube" (date 2021 Jan 4)
     (11 # 100) (CStr "$12,724.00") (555 # 100) 217 1820 7].

(** One audience, addressed in January and again in February. *)
Definition returning : DataFrame :=
  [campaign 1 "Men 18-24" "Google Ads" (date 2021 Jan 15)
     (4 # 100) (CNum 16174) (629 # 100) 506 1922 6;
   campaign 2 "Men 18-24" "YouTube" (date 2021 Feb 10)
     (12 # 100) (CNum 11566) (561 # 100) 116 7523 7].

(** Two audiences over three months. *)
Definition season : DataFrame :=
  [campaign 4 "Women 35-44" "YouTube" (date 2021 Mar 2)
     (11 # 100) (CNum 12724) (555 # 100) 217 1820 7;
   campaign 1 "Men 18-24" "Google Ads" (date 2021 Jan 15)
     (4 # 100) (CNum 16174) (629 # 100) 506 1922 6;
   campaign 3 "Women 35-44" "YouTube" (date 2021 Feb 20)
     (7 # 100) (CNum 10200) (718 # 100) 584 7698 1;
   campaign 2 "Men 18-24" "YouTube" (date 2021 Feb 10)
     (12 # 100) (CNum 11566) (561 # 100) 116 7523 7].

(** The five campaigns of the sample file, cleaned. *)
Definition five_campaigns : DataFrame :=
  MarketingDataCleaner.create_derived_features
    [campaign 1 "Men 18-24" "Google Ads" (date 2021 Jan 1)
       (4 # 100) (CNum 16174) (629 # 100) 506 1922 6;
     campaign 2 "Women 35-44" "Google Ads" (date 2021 Jan 2)
       (12 # 100) (CNum 11566) (561 # 100) 116 7523 7;
     campaign 3 "Men 25-34" "YouTube" (date 2021 Jan 3)
       (7 # 100) (CNum 10200) (718 # 100) 584 7698 1;
     campaign 4 "All Ages" "YouTube" (date 2021 Jan 4)
       (11 # 100) (CNum 12724) (555 # 100) 217 1820 7;
     campaign 5 "Men 25-34" "YouTube" (date 2021 Jan 5)
       (5 # 100) (CNum 16452) (65 # 10) 379 4201 3].

(** Stand-ins for the floating-point unit and the random generator in the
    examples: Newton's iteration for the square root, kept to twelve
    decimals, and a seeding that draws the first samples. *)
Fixpoint newton (steps : nat) (x y : Q) : Q :=
  match steps with
  | O => y
  | S n => newton n x (Qred (round ((y + x / y) / 2) 12))
  end.

Definition newton_sqrt (x : Q) : Q :=
  if Qle_bool x 0 then 0%Q else newton 40 (Qred x) 1.

Definition first_samples (state : Z) (X : list (list Q)) (i : nat) : nat := i.

(** Stand-ins for SciPy and for the correlation matrix in the examples: an
    F-test that ends just under the threshold, and no correlations. *)
Definition borderline_f_oneway (groups : list (list num)) : option (num * num) :=
  Some (Some (42 # 10), Some (496 # 10000)).

Definition no_corr (cols : list (list num)) : list (list num) := [].

(** A cleaned frame in which Google Ads does better than YouTube on every
    metric. *)
Definition two_channels : DataFrame :=
  MarketingDataCleaner.create_derived_features
    [campaign 1 "Men 18-24" "Google Ads" (date 2021 Jan 1)
       (12 # 100) (CNum 10200) (718 # 100) 584 1820 7;
     campaign 2 "Women 35-44" "Google Ads" (date 2021 Jan 2)
       (11 # 100) (CNum 11566) (65 # 10) 506 1922 7;
     campaign 3 "Men 25-34" "YouTube" (date 2021 Jan 3)
       (4 # 100) (CNum 16174) (555 # 100) 116 7523 1;
     campaign 4 "All Ages" "YouTube" (date 2021 Jan 4)
       (5 # 100) (CNum 16452) (561 # 100) 217 7698 3].

End Samples.

(* ------------------------------------------------------------------------- *)
(** ** The properties, as predicates on the model *)

Module Properties.

Import MarketingDataLoader.

(** What [df[numeric_cols].apply(pd.to_numeric)] computes for one column,
    and what assigning one converted column does. *)
Definition converted_column (df : RawFrame) (c : string)
  : option (string * Series) :=
  match getitem c df with
  | None => None
  | Some s => option_map (pair c) (to_numeric s)
  end.

Definition store (df : RawFrame) (cs : string * Series) :=
  setitem (fst cs) (snd cs) df.

Section LoaderProperties.

Variable datetime_of_string : string -> option Timestamp.
Variable datetime_of_number : Q -> option Timestamp.

(** One of the three coercions of [validate_data] raises on the frame. *)
Definition coercion_raises (df : RawFrame) : Prop :=
  (exists s, getitem "Date" df = Some s /\
             to_datetime datetime_of_string datetime_of_number s = None) \/
  (exists c s, In c numeric_cols /\ getitem c df = Some s /\ to_numeric s = None) \/
  (exists s, getitem "Acquisition_Cost" df = Some s /\ currency_to_float s = None).

(** [out] is [df] with every coercion carried out: dates, the five numeric
    columns and the cost. *)
Definition coerced (df out : RawFrame) : Prop :=
  (exists s s', getitem "Date" df = Some s /\
                to_datetime datetime_of_string datetime_of_number s = Some s' /\
                getitem "Date" out = Some s') /\
  (forall c, In c numeric_cols ->
     exists s s', getitem c df = Some s /\ to_numeric s = Some s' /\
                  getitem c out = Some s') /\
  (exists s s', getitem "Acquisition_Cost" df = Some s /\
                currency_to_float s = Some s' /\
                getitem "Acquisition_Cost" out = Some s').

End LoaderProperties.

Import MarketingDataCleaner.

(** The bounds of the specification, on a float cell. *)
Definition nonneg (x : num) : Prop :=
  match x with Some v => (0 <= v)%Q | None => False end.

Definition in_unit (x : num) : Prop :=
  match x with Some v => (0 <= v /\ v <= 1)%Q | None => False end.

(** A cleaned record within all the ranges the specification lists. *)
Definition within_ranges (r : Row) : Prop :=
  in_unit (Conversion_Rate r) /\
  nonneg (float_of_cell (Acquisition_Cost r)) /\
  nonneg (Clicks r) /\ nonneg (Impressions r) /\ nonneg (Engagement_Score r).

(** What the range repair does to one cell, given the median [m] of its
    column. *)
Definition repair_negative_cell (m x : num) : num := if lt x zero then m else x.

Definition repair_rate_cell (m x : num) : num :=
  if lt x zero || gt x one then m else x.

Definition fillna (m x : num) : num := if isnull x then m else x.

(** The frame on which the range repair works: missing values imputed and
    duplicates removed. *)
Definition imputed (df : DataFrame) : DataFrame :=
  remove_duplicates (handle_missing_values df).

Definition ids (df : DataFrame) : list Z := column Campaign_ID df.

(** The frame that reaches the conversion of the cost column. *)
Definition counts_repaired (df : DataFrame) : DataFrame :=
  repair_negative Engagement_Score_col
    (repair_negative Impressions_col
       (repair_negative Clicks_col (normalize_categorical_values (imputed df)))).

Definition floats_only (col : Series) : Prop := Forall (fun c => is_str c = false) col.

(** Chronological order as a proposition. *)
Definition before (a b : Timestamp) : Prop :=
  year a < year b \/
  (year a = year b /\
   (month_number (month a) < month_number (month b) \/
    (month_number (month a) = month_number (month b) /\
     (day a < day b \/ (day a = day b /\ nanos a <= nanos b))))).

Import CohortAnalyzer.

(** The month against which a cohort row counts its offset. *)
Definition baseline_month (r : CohortRow) : Z :=
  Cohort_Month r - Months_Since_First_Campaign r.

Definition same_audience (r r' : CohortRow) : Prop :=
  Target_Audience (campaign r) = Target_Audience (campaign r').

(** The cell of a pivot before any normalisation. *)
Definition pivot_cell (agg : list CohortRow -> num) (df : list CohortRow) (i c : Z) : num :=
  match bucket df i c with
  | [] => None
  | g => agg g
  end.

(** How many of the optional advisories are issued. *)
Definition issued (b : bool) : nat := if b then 1%nat else 0%nat.

End Properties.

(* ------------------------------------------------------------------------- *)
(** ** Further properties, as predicates on the model *)

Module Further.

Import Properties.
Import MarketingDataLoader.

Section LoaderOutcome.

Variable datetime_of_string : string -> option Timestamp.
Variable datetime_of_number : Q -> option Timestamp.

(** The frame with the three conversions of [validate_data] carried out,
    each computed from the column as the file has it. *)
Definition converted (df : RawFrame) : option RawFrame :=
  match getitem "Date" df with
  | None => None
  | Some d =>
    match to_datetime datetime_of_string datetime_of_number d with
    | None => None
    | Some d' =>
      match traverse (converted_column df) numeric_cols with
      | None => None
      | Some nums =>
        match getitem "Acquisition_Cost" df with
        | None => None
        | Some c =>
          match currency_to_float c with
          | None => None
          | Some c' =>
            Some (setitem "Acquisition_Cost" c'
                    (fold_left store nums (setitem "Date" d' df)))
          end
        end
      end
    end
  end.

End LoaderOutcome.

(** The sample file with the costs written as bare numbers. *)
Definition bare_cost_csv : RawFrame :=
  setitem "Acquisition_Cost"
    [CNum 16174; CNum 11566; CNum 10200; CNum 12724; CNum 16452] Samples.sample_csv.

Definition bare_cost_disk (path : string) : option RawFrame :=
  if String.eqb path "data/raw/bare_costs.csv" then Some bare_cost_csv
  else Samples.disk path.

Import MarketingDataCleaner.

(** [fillna('Unknown')] on a cell. *)
Definition fill_unknown (x : text) : text :=
  if isnull x then Some "Unknown"%string else x.

(** [str.lower()] on ASCII text. *)
Fixpoint lowercase (s : string) : string :=
  match s with
  | EmptyString => EmptyString
  | String a t => String (to_lower a) (lowercase t)
  end.

(** The columns [validate_numeric_ranges] checks, each with its upper bound
    when it has one; the lower bound is 0 throughout. *)
Definition range_checks : list (NumCol * option Q) :=
  [(Clicks_col, None); (Impressions_col, None); (Engagement_Score_col, None);
   (Conversion_Rate_col, Some 1%Q)].

Definition in_bounds (upper : option Q) (v : Q) : Prop :=
  (0 <= v)%Q /\ match upper with Some u => (v <= u)%Q | None => True end.

(** Two campaigns, the first without a channel, the second with its channel
    in an unusual spelling. *)
Definition unlabelled : DataFrame :=
  [set_Channel_Used None
     (Samples.campaign 1 "Men 18-24" "Google Ads" (date 2021 Jan 15)
        (4 # 100) (CNum 16174) (629 # 100) 506 1922 6);
   Samples.campaign 2 "Men 18-24" "youTUBE" (date 2021 Feb 10)
     (12 # 100) (CNum 11566) (561 # 100) 116 7523 7]%string.

(** The order in which [sort_values(['Date', 'Campaign_ID'])] leaves two
    rows, the first above the second. *)
Definition in_order (a b : Row) : Prop := CohortAnalyzer.row_leb a b = true.

(** The aggregates of the conversion and ROI matrices on one bucket. *)
Definition mean_conversion (g : list CohortAnalyzer.CohortRow) : num :=
  mean (map (fun x => Conversion_Rate (CohortAnalyzer.campaign x)) g).

Definition mean_roi (g : list CohortAnalyzer.CohortRow) : num :=
  mean (map (fun x => ROI (CohortAnalyzer.campaign x)) g).

(** The order of group keys, character by character, strict. *)
Definition key_before (a b : string) : Prop := String.compare a b = Lt.

(** How many cells of a column hold the key. *)
Definition occurrences (col : list text) (k : string) : nat :=
  List.length (filter (fun x => text_eqb x (Some k)) col).

(** A cost column of dtype float, as the Cleaner leaves it and as the engines
    read it back: numbers and NaN, no text. *)
Definition float_column (col : Series) : Prop :=
  Forall (fun c => match c with CNum _ | CNaN => True | _ => False end) col.

(** A cleaned frame with one channel only. *)
Definition one_channel : DataFrame :=
  MarketingDataCleaner.create_derived_features
    [Samples.campaign 1 "Men 18-24" "Google Ads" (date 2021 Jan 1)
       (12 # 100) (CNum 10200) (718 # 100) 584 1820 7;
     Samples.campaign 2 "Women 35-44" "Google Ads" (date 2021 Jan 2)
       (11 # 100) (CNum 11566) (65 # 10) 506 1922 7]%string.

(** [d] is the date of the latest record of the audience [a]. *)
Definition latest_date (df : DataFrame) (a : string) (d : Timestamp) : Prop :=
  (exists r, In r df /\ Target_Audience r = Some a /\ Date r = Some d) /\
  (forall r d', In r df -> Target_Audience r = Some a -> Date r = Some d' ->
     before d' d).

(** The label [pd.cut] gives a whole number of days. *)
Definition duration_label (n : nat) : option duration_category :=
  if (n =? 0)%nat then None
  else if (n <=? 7)%nat then Some Short
  else if (n <=? 30)%nat then Some Medium
  else Some Long.

End Further.

(* ------------------------------------------------------------------------- *)
(** ** The ChannelEngine: the table of channel metrics *)

Module ChannelTables.

(** The outcome of a float division: IEEE gives an infinity for a non-zero
    dividend over zero, and NaN for zero over zero. *)
Inductive quotient :=
| Finite (q : Q)
| Infinite (positive : bool)
| Undefined.

Definition true_divide (a b : Q) : quotient :=
  if Qeq_bool b 0 then
    if Qeq_bool a 0 then Undefined else Infinite (Qltb 0 a)
  else Finite (a / b)%Q.

Definition round_quotient (x : quotient) (ndigits : nat) : quotient :=
  match x with
  | Finite q => Finite (round q ndigits)
  | other => other
  end.

(** One row of the table, under its channel. *)
Record channel_metrics := mkChannelMetrics {
  channel : string;
  campaign_count : nat;
  impressions : Q;
  clicks : Q;
  acquisition_cost : Q;
  conversion_rate : num;
  roi : num;
  engagement_score : num;
  engagement_rate : num;
  Click_Through_Rate : quotient;
  Cost_per_Click : quotient }.

(** The aggregates ['sum'] and ['mean'] of a group, after [.round(3)]: both
    skip NaN; the sum of nothing is 0, the mean of nothing NaN. *)
Definition total (f : Row -> num) (g : DataFrame) : Q :=
  round (sum (dropna (column f g))) 3.

Definition average (f : Row -> num) (g : DataFrame) : num :=
  round_num (mean (column f g)) 3.

(** [calculate_channel_metrics(df)]: one row for each channel in the order
    of [groupby]; ['count'] of [Campaign_ID] is the size of the group, the
    identifier being present in every record. *)
Definition calculate_channel_metrics (df : DataFrame) : list channel_metrics :=
  map (fun ch =>
         let g := ChannelAnalyzer.channel_data df (Some ch) in
         let impressions := total Impressions g in
         let clicks := total Clicks g in
         let cost := total ChannelAnalyzer.cost g in
         mkChannelMetrics ch (List.length g) impressions clicks cost
           (average Conversion_Rate g) (average ROI g)
           (average Engagement_Score g) (average Engagement_Rate g)
           (round_quotient (true_divide clicks impressions) 3)
           (round_quotient (true_divide cost clicks) 3))
      (group_keys (column Channel_Used df)).

End ChannelTables.

(* ------------------------------------------------------------------------- *)
(** ** The Loader: summary statistics *)

Module SummaryStats.

(** [Series.value_counts().to_dict()], as the lookup of the dictionary: the
    number of cells that hold the key, no entry for a key that does not
    occur; missing cells are not counted. *)
Definition value_counts (col : list text) (k : string) : option nat :=
  match List.length (filter (fun x => text_eqb x (Some k)) col) with
  | O => None
  | n => Some n
  end.

Record summary := mkSummaryStats {
  total_campaigns : nat;
  campaign_types : string -> option nat;
  channels : string -> option nat;
  companies : string -> option nat;
  date_range_start : option Timestamp;
  date_range_end : option Timestamp;
  avg_acquisition_cost : num;
  total_clicks : Q;
  total_impressions : Q;
  avg_conversion_rate : num;
  avg_roi : num;
  customer_segments : string -> option nat }.

(** [get_summary_stats(df)], on a frame whose cost column is float. *)
Definition get_summary_stats (df : DataFrame) : summary :=
  mkSummaryStats
    (List.length df)
    (value_counts (column Campaign_Type df))
    (value_counts (column Channel_Used df))
    (value_counts (column Company df))
    (series_min (column Date df))
    (series_max (column Date df))
    (mean (column SegmentAnalyzer.cost df))
    (sum (dropna (column Clicks df)))
    (sum (dropna (column Impressions df)))
    (mean (column Conversion_Rate df))
    (mean (column ROI df))
    (value_counts (column Customer_Segment df)).

(** The sum of the entries of a dictionary of counts over the given keys. *)
Definition counted (dict : string -> option nat) (keys : list string) : nat :=
  list_sum (map (fun k => match dict k with Some n => n | None => 0%nat end) keys).

End SummaryStats.

(* ========================================================================= *)
(** * Theorems *)

Import Properties.
Import Further.

(* ------------------------------------------------------------------------- *)
(** ** Currency strings *)

(** C7: the currency string ["$16,174.00"], with the currency sign and the
    thousands separators removed and the rest read as a float, is 16174.00
    exactly (a whole number well below 2^53, so the float holds it without
    rounding); so it is in the Loader's conversion of the cost column and in
    the Cleaner's. *)
Theorem parse_currency_16174 :
  exists v : Q,
    Str.parse_currency "$16,174.00" = Some v /\
    (v == 16174)%Q /\
    Qred v = inject_Z 16174 /\
    Str.strip_currency "$16,174.00" = "16174.00"%string /\
    MarketingDataLoader.currency_to_float [CStr "$16,174.00"] = Some [CNum v] /\
    MarketingDataCleaner.cost_cell_to_float (CStr "$16,174.00") = Some (CNum v).
Proof.
  exists (1617400 # 100).
  repeat split; reflexivity.
Qed.

(* ------------------------------------------------------------------------- *)
(** ** The Loader passes or fails *)

Section LoaderFacts.

Import MarketingDataLoader.

Variable datetime_of_string : string -> option Timestamp.
Variable datetime_of_number : Q -> option Timestamp.
Variable read_csv : string -> option RawFrame.

Local Abbreviation to_datetime' := (to_datetime datetime_of_string datetime_of_number).
Local Abbreviation convert_types' := (convert_types datetime_of_string datetime_of_number).
Local Abbreviation validate_data' := (validate_data datetime_of_string datetime_of_number).
Local Abbreviation load_data' := (load_data datetime_of_string datetime_of_number read_csv).

Lemma getitem_setitem_same name s df : getitem name (setitem name s df) = Some s.
Proof.
  induction df as [|[n old] rest IH]; simpl.
  - now rewrite String.eqb_refl.
  - destruct (String.eqb n name) eqn:E; simpl; rewrite E; auto.
Qed.

Lemma getitem_setitem_other name other s df :
  other <> name -> getitem name (setitem other s df) = getitem name df.
Proof.
  intros Hne. induction df as [|[n old] rest IH]; simpl.
  - destruct (String.eqb other name) eqn:E; auto.
    apply String.eqb_eq in E. contradiction.
  - destruct (String.eqb n other) eqn:E; simpl.
    + apply String.eqb_eq in E. subst n.
      destruct (String.eqb other name) eqn:E'; auto.
      apply String.eqb_eq in E'. contradiction.
    + destruct (String.eqb n name); auto.
Qed.

Lemma mem_columns_getitem name df :
  mem name (columns df) = true -> exists s, getitem name df = Some s.
Proof.
  unfold mem, columns. induction df as [|[n s] rest IH]; simpl; [discriminate|].
  rewrite (String.eqb_sym name n).
  destruct (String.eqb n name); simpl; eauto.
Qed.

Lemma getitem_mem_columns name df s :
  getitem name df = Some s -> mem name (columns df) = true.
Proof.
  unfold mem, columns. induction df as [|[n s0] rest IH]; simpl; [discriminate|].
  rewrite (String.eqb_sym name n).
  destruct (String.eqb n name); simpl; auto.
Qed.

Lemma no_missing_cols df c :
  missing_cols df = [] -> In c required_columns -> exists s, getitem c df = Some s.
Proof.
  unfold missing_cols. intros Hnil Hin.
  apply mem_columns_getitem.
  destruct (mem c (columns df)) eqn:E; auto.
  assert (In c (filter (fun c => negb (mem c (columns df))) required_columns)) as Hf.
  { apply filter_In. split; auto. now rewrite E. }
  rewrite Hnil in Hf. destruct Hf.
Qed.

Lemma apply_to_numeric_pure cols df :
  apply_to_numeric cols df = (traverse (converted_column df) cols, df).
Proof.
  induction cols as [|c rest IH]; simpl; auto.
  unfold bind, read, lift, converted_column. simpl.
  destruct (getitem c df) as [s|]; simpl; auto.
  destruct (to_numeric s) as [s'|]; simpl; auto.
  rewrite IH. destruct (traverse _ rest); simpl; auto.
Qed.

Lemma assign_all_fold cols df :
  assign_all cols df = (Some tt, fold_left store cols df).
Proof.
  revert df. induction cols as [|[c s] rest IH]; intros df; simpl; auto.
  unfold bind, assign. simpl. apply IH.
Qed.

Lemma traverse_none {A B} (f : A -> option B) l :
  traverse f l = None <-> exists x, In x l /\ f x = None.
Proof.
  induction l as [|a l IH]; simpl.
  - split; [discriminate | intros [x [[] _]]].
  - destruct (f a) eqn:E.
    + destruct (traverse f l) eqn:T; simpl.
      * split; [discriminate|]. intros [x [[->|Hin] Hx]]; [congruence|].
        assert (Some l0 = None) by (apply IH; eauto). discriminate.
      * split; auto. intros _. destruct IH as [IH _].
        destruct (IH eq_refl) as [x [Hin Hx]]. eauto.
    + split; auto. intros _. eauto.
Qed.

Lemma traverse_some {A B} (f : A -> option B) l out :
  traverse f l = Some out -> Forall2 (fun x y => f x = Some y) l out.
Proof.
  revert out. induction l as [|a l IH]; simpl; intros out H.
  - injection H as <-. constructor.
  - destruct (f a) eqn:E; [|discriminate].
    destruct (traverse f l) eqn:T; simpl in H; [|discriminate].
    injection H as <-. constructor; auto.
Qed.

Lemma fold_store_other name cols df :
  ~ In name (map fst cols) -> getitem name (fold_left store cols df) = getitem name df.
Proof.
  revert df. induction cols as [|[c s] rest IH]; intros df Hn; simpl; auto.
  simpl in Hn. rewrite IH by tauto.
  unfold store. simpl. apply getitem_setitem_other. tauto.
Qed.

Lemma fold_store_same name s cols df :
  NoDup (map fst cols) -> In (name, s) cols ->
  getitem name (fold_left store cols df) = Some s.
Proof.
  revert df. induction cols as [|[c s0] rest IH]; intros df Hnd Hin; simpl.
  - destruct Hin.
  - simpl in Hnd. inversion Hnd as [|? ? Hnot Hnd']; subst.
    destruct Hin as [E|Hin].
    + injection E as -> ->.
      rewrite fold_store_other by assumption.
      unfold store. simpl. apply getitem_setitem_same.
    + apply IH; assumption.
Qed.

Lemma converted_columns_names df cols nums :
  traverse (converted_column df) cols = Some nums -> map fst nums = cols.
Proof.
  intros H. apply traverse_some in H.
  induction H as [|c [c' s'] cols nums Hc _ IH]; simpl; auto.
  unfold converted_column in Hc.
  destruct (getitem c df); [|discriminate].
  destruct (to_numeric s); simpl in Hc; [|discriminate].
  injection Hc as <- _. now rewrite IH.
Qed.

Lemma converted_columns_in df cols nums c :
  traverse (converted_column df) cols = Some nums -> In c cols ->
  exists s s', getitem c df = Some s /\ to_numeric s = Some s' /\ In (c, s') nums.
Proof.
  intros H. apply traverse_some in H.
  induction H as [|c0 cs cols nums Hc _ IH]; simpl; intros Hin; [destruct Hin|].
  destruct Hin as [->|Hin].
  - clear IH. unfold converted_column in Hc.
    destruct (getitem c df) as [s|] eqn:Hs; [|discriminate].
    destruct (to_numeric s) as [s'|] eqn:Hn; simpl in Hc; [|discriminate].
    injection Hc as <-. exists s, s'. simpl. auto.
  - destruct (IH Hin) as (s & s' & ? & ? & ?). exists s, s'. simpl. auto.
Qed.

(** The [try] block, step by step. *)
Lemma convert_types_steps df :
  convert_types' df =
  match getitem "Date" df with
  | None => (None, df)
  | Some d =>
    match to_datetime' d with
    | None => (None, df)
    | Some d' =>
      let df1 := setitem "Date" d' df in
      match traverse (converted_column df1) numeric_cols with
      | None => (None, df1)
      | Some nums =>
        let df2 := fold_left store nums df1 in
        if mem "Acquisition_Cost" (columns df2) then
          match getitem "Acquisition_Cost" df2 with
          | None => (None, df2)
          | Some c =>
            match currency_to_float c with
            | None => (None, df2)
            | Some c' => (Some tt, setitem "Acquisition_Cost" c' df2)
            end
          end
        else (Some tt, df2)
      end
    end
  end.
Proof.
  unfold convert_types, bind, read, lift, assign, has_column, ret.
  destruct (getitem "Date" df) as [d|]; auto.
  destruct (to_datetime' d) as [d'|]; auto.
  rewrite apply_to_numeric_pure.
  destruct (traverse _ numeric_cols) as [nums|]; auto.
  rewrite assign_all_fold. cbv zeta.
  destruct (mem "Acquisition_Cost" (columns _)); reflexivity.
Qed.

Lemma numeric_cols_nodup : NoDup numeric_cols.
Proof.
  unfold numeric_cols.
  repeat (constructor; [simpl; intuition discriminate|]). constructor.
Qed.

Lemma numeric_cols_not_special c :
  In c numeric_cols -> c <> "Date"%string /\ c <> "Acquisition_Cost"%string.
Proof.
  unfold numeric_cols. simpl.
  intros H; repeat (destruct H as [<-|H]; [split; discriminate|]); destruct H.
Qed.

(** C3: when one of the type coercions raises (an unparseable date, a value
    that is not a number in a numeric column, a malformed currency string),
    [load_data] returns [None]; and whatever the file holds, [load_data]
    either returns [None] or returns the frame with every coercion carried
    out, never a frame converted in part. *)
Theorem load_data_pass_or_fail (path : string) (df : RawFrame) :
  read_csv path = Some df ->
  (coercion_raises datetime_of_string datetime_of_number df ->
   load_data' path = None) /\
  (load_data' path = None \/
   exists out, load_data' path = Some out /\
               coerced datetime_of_string datetime_of_number df out).
Proof.
  intros Hread. unfold load_data. rewrite Hread. unfold validate_data.
  destruct (missing_cols df) eqn:Hmiss; [|split; auto].
  rewrite convert_types_steps.
  destruct (getitem "Date" df) as [d|] eqn:Hd.
  2:{ split; auto. }
  destruct (to_datetime' d) as [d'|] eqn:Hd'.
  2:{ split; auto. }
  cbv zeta.
  destruct (traverse _ numeric_cols) as [nums|] eqn:Hnums.
  2:{ split; auto. }
  pose proof (converted_columns_names _ _ _ Hnums) as Hnames.
  assert (Hcost : getitem "Acquisition_Cost" (fold_left store nums (setitem "Date" d' df))
                  = getitem "Acquisition_Cost" df).
  { rewrite fold_store_other.
    - apply getitem_setitem_other. discriminate.
    - rewrite Hnames. unfold numeric_cols. simpl. intuition discriminate. }
  destruct (no_missing_cols df "Acquisition_Cost" Hmiss) as [c Hc].
  { unfold required_columns. simpl. tauto. }
  rewrite Hcost, Hc.
  rewrite (getitem_mem_columns "Acquisition_Cost" _ c) by (rewrite Hcost; exact Hc).
  destruct (currency_to_float c) as [c'|] eqn:Hc'.
  2:{ split; auto. }
  split.
  - (* every conversion went through, so none raises *)
    intros [(s & Hs & Hraise) | [(col & s & Hin & Hs & Hraise) | (s & Hs & Hraise)]].
    + congruence.
    + destruct (converted_columns_in _ _ _ col Hnums Hin) as (s0 & s' & Hs0 & Hnum & _).
      destruct (numeric_cols_not_special col Hin) as [Hdate _].
      rewrite getitem_setitem_other in Hs0 by congruence. congruence.
    + congruence.
  - right. eexists. split; [reflexivity|]. repeat split.
    + exists d, d'. repeat split; auto.
      rewrite getitem_setitem_other by discriminate.
      rewrite fold_store_other.
      * apply getitem_setitem_same.
      * rewrite Hnames. unfold numeric_cols. simpl. intuition discriminate.
    + intros col Hin.
      destruct (converted_columns_in _ _ _ col Hnums Hin) as (s0 & s' & Hs0 & Hnum & Hin').
      destruct (numeric_cols_not_special col Hin) as [Hdate Hcst].
      rewrite getitem_setitem_other in Hs0 by congruence.
      exists s0, s'. repeat split; auto.
      rewrite getitem_setitem_other by congruence.
      apply fold_store_same; auto.
      rewrite Hnames. apply numeric_cols_nodup.
    + exists c, c'. repeat split; auto. apply getitem_setitem_same.
Qed.

End LoaderFacts.

(** The sample file loads; the file with the mistyped cost does not. *)
Lemma load_data_pass_or_fail_witness :
  Samples.disk "data/raw/broken.csv" = Some Samples.broken_csv /\
  coercion_raises Samples.iso_date Samples.no_epoch_dates Samples.broken_csv /\
  MarketingDataLoader.load_data Samples.iso_date Samples.no_epoch_dates Samples.disk
    "data/raw/broken.csv" = None.
Proof.
  assert (Hraise : coercion_raises Samples.iso_date Samples.no_epoch_dates
                     Samples.broken_csv).
  { right; right. eexists. split; reflexivity. }
  split; [reflexivity|]. split; [exact Hraise|].
  exact (proj1 (load_data_pass_or_fail Samples.iso_date Samples.no_epoch_dates
                  Samples.disk "data/raw/broken.csv" Samples.broken_csv eq_refl)
               Hraise).
Defined.

Example load_data_sample :
  exists out,
    MarketingDataLoader.load_data Samples.iso_date Samples.no_epoch_dates Samples.disk
      "data/raw/marketing_campaign_dataset.csv" = Some out /\
    MarketingDataLoader.getitem "Date" out =
      Some (map (fun d => CDate (date 2021 Jan d)) [1; 2; 3; 4; 5]) /\
    MarketingDataLoader.getitem "Acquisition_Cost" out =
      Some [CNum (1617400 # 100); CNum (1156600 # 100); CNum (1020000 # 100);
            CNum (1272400 # 100); CNum (1645200 # 100)].
Proof. eexists. repeat split; reflexivity. Qed.

(* ------------------------------------------------------------------------- *)
(** ** The Cleaner: each step, column by column *)

Section CleanerSteps.

Import MarketingDataCleaner.

Lemma existsb_column {A} (g : Row -> A) (p : A -> bool) (df : DataFrame) :
  existsb p (column g df) = existsb (fun r => p (g r)) df.
Proof.
  unfold column. induction df as [|r df IH]; simpl; auto. now rewrite IH.
Qed.

Lemma map_if_not_exists {A} (p : A -> bool) (f : A -> A) (l : list A) :
  existsb p l = false -> map (fun x => if p x then f x else x) l = l.
Proof.
  induction l as [|a l IH]; simpl; auto.
  intros H. apply orb_false_iff in H as [Ha Hl].
  rewrite Ha, IH; auto.
Qed.

Lemma column_map {A} (g : Row -> A) (f : Row -> Row) (df : DataFrame) :
  column g (map f df) = map (fun r => g (f r)) df.
Proof. unfold column. apply map_map. Qed.

(** A conditional assignment to a column leaves every other column alone,
    and rewrites its own cell by cell. *)
Lemma column_update_other {A} (g : Row -> A) (p : Row -> bool) (f : Row -> Row) df :
  (forall r, g (f r) = g r) ->
  column g (map (fun r => if p r then f r else r) df) = column g df.
Proof.
  intros H. rewrite column_map. unfold column. apply map_ext.
  intros r. destruct (p r); auto.
Qed.

Lemma column_update_same (g : Row -> num) (q : num -> bool) (m : num)
      (set : num -> Row -> Row) df :
  (forall v r, g (set v r) = v) ->
  column g (map (fun r => if q (g r) then set m r else r) df) =
  map (fun x => if q x then m else x) (column g df).
Proof.
  intros H. rewrite column_map. unfold column. rewrite map_map. apply map_ext.
  intros r. destruct (q (g r)); auto.
Qed.

Lemma fill_numeric_map c df :
  fill_numeric c df =
  map (fun r => if isnull (num_get c r)
                then num_set c (median (column (num_get c) df)) r else r) df.
Proof.
  unfold fill_numeric. rewrite existsb_column.
  destruct (existsb _ df) eqn:E; auto.
  symmetry. now apply (map_if_not_exists (fun r => isnull (num_get c r))).
Qed.

Lemma fill_categorical_map c df :
  fill_categorical c df =
  map (fun r => if isnull (text_get c r)
                then text_set c (Some "Unknown"%string) r else r) df.
Proof.
  unfold fill_categorical. rewrite existsb_column.
  destruct (existsb _ df) eqn:E; auto.
  symmetry. now apply (map_if_not_exists (fun r => isnull (text_get c r))).
Qed.

Lemma repair_negative_map c df :
  repair_negative c df =
  map (fun r => if lt (num_get c r) zero
                then num_set c (median (column (num_get c) df)) r else r) df.
Proof.
  unfold repair_negative.
  destruct (existsb _ df) eqn:E; auto.
  symmetry. now apply (map_if_not_exists (fun r => lt (num_get c r) zero)).
Qed.

Lemma repair_conversion_rate_map df :
  repair_conversion_rate df =
  map (fun r => if lt (Conversion_Rate r) zero || gt (Conversion_Rate r) one
                then set_Conversion_Rate (median (column Conversion_Rate df)) r
                else r) df.
Proof.
  unfold repair_conversion_rate.
  destruct (existsb _ df) eqn:E; auto.
  symmetry.
  now apply (map_if_not_exists
               (fun r => lt (Conversion_Rate r) zero || gt (Conversion_Rate r) one)).
Qed.

Lemma column_fill_numeric_other {A} (g : Row -> A) c df :
  (forall v r, g (num_set c v r) = g r) ->
  column g (fill_numeric c df) = column g df.
Proof. intros H. rewrite fill_numeric_map. apply column_update_other. intros; apply H. Qed.

Lemma column_fill_numeric_same c df :
  (forall v r, num_get c (num_set c v r) = v) ->
  column (num_get c) (fill_numeric c df) =
  map (fillna (median (column (num_get c) df))) (column (num_get c) df).
Proof.
  intros H. rewrite fill_numeric_map.
  apply (column_update_same (num_get c) isnull _ (num_set c)). exact H.
Qed.

Lemma column_fill_categorical_other {A} (g : Row -> A) c df :
  (forall v r, g (text_set c v r) = g r) ->
  column g (fill_categorical c df) = column g df.
Proof.
  intros H. rewrite fill_categorical_map. apply column_update_other. intros; apply H.
Qed.

Lemma column_title_other {A} (g : Row -> A) c df :
  (forall v r, g (text_set c v r) = g r) ->
  column g (title_column c df) = column g df.
Proof.
  intros H. unfold title_column. rewrite column_map. unfold column.
  apply map_ext. intros; apply H.
Qed.

Lemma column_repair_negative_other {A} (g : Row -> A) c df :
  (forall v r, g (num_set c v r) = g r) ->
  column g (repair_negative c df) = column g df.
Proof.
  intros H. rewrite repair_negative_map. apply column_update_other. intros; apply H.
Qed.

Lemma column_repair_negative_same c df :
  (forall v r, num_get c (num_set c v r) = v) ->
  column (num_get c) (repair_negative c df) =
  map (repair_negative_cell (median (column (num_get c) df))) (column (num_get c) df).
Proof.
  intros H. rewrite repair_negative_map.
  apply (column_update_same (num_get c) (fun x => lt x zero) _ (num_set c)). exact H.
Qed.

Lemma column_repair_rate_other {A} (g : Row -> A) df :
  (forall v r, g (set_Conversion_Rate v r) = g r) ->
  column g (repair_conversion_rate df) = column g df.
Proof.
  intros H. rewrite repair_conversion_rate_map. apply column_update_other.
  intros; apply H.
Qed.

Lemma column_repair_rate_same df :
  column Conversion_Rate (repair_conversion_rate df) =
  map (repair_rate_cell (median (column Conversion_Rate df))) (column Conversion_Rate df).
Proof.
  rewrite repair_conversion_rate_map.
  apply (column_update_same Conversion_Rate (fun x => lt x zero || gt x one) _
           set_Conversion_Rate).
  reflexivity.
Qed.

Lemma column_parse_costs_other {A} (g : Row -> A) df df' :
  (forall v r, g (set_Acquisition_Cost v r) = g r) ->
  parse_costs df = Some df' -> column g df' = column g df.
Proof.
  intros H. revert df'. induction df as [|r df IH]; simpl; intros df' E.
  - now injection E as <-.
  - destruct (cost_cell_to_float (Acquisition_Cost r)) as [c|]; [|discriminate].
    destruct (parse_costs df) as [t|]; simpl in E; [|discriminate].
    injection E as <-. simpl. rewrite H. f_equal. now apply IH.
Qed.

Lemma column_derived_other {A} (g : Row -> A) df :
  (forall a b c d e f h r, g (set_derived a b c d e f h r) = g r) ->
  column g (create_derived_features df) = column g df.
Proof.
  intros H. unfold create_derived_features. rewrite column_map. unfold column.
  apply map_ext. intros; apply H.
Qed.

End CleanerSteps.

(** A setter that leaves a getter alone does so by computation; the steps of
    the Cleaner that do not touch the column at hand are rewritten away. *)
Ltac lens := intros; reflexivity.

Ltac other_columns :=
  repeat first
    [ rewrite column_derived_other by lens
    | rewrite column_repair_rate_other by lens
    | rewrite column_repair_negative_other by lens
    | rewrite column_title_other by lens
    | rewrite column_fill_categorical_other by lens
    | rewrite column_fill_numeric_other by lens ].

(* ------------------------------------------------------------------------- *)
(** ** Deduplication *)

Section Deduplication.

Import MarketingDataCleaner.

Lemma ids_cons r df : ids (r :: df) = Campaign_ID r :: ids df.
Proof. reflexivity. Qed.

Lemma seen_spec (i : Z) (seen : list Z) : existsb (Z.eqb i) seen = true <-> In i seen.
Proof.
  rewrite existsb_exists. split.
  - intros [x [Hin Hx]]. apply Z.eqb_eq in Hx. now subst.
  - intros Hin. exists i. split; auto. apply Z.eqb_refl.
Qed.

Lemma drop_duplicates_fresh seen df i :
  In i (ids (drop_duplicates seen df)) -> ~ In i seen.
Proof.
  revert seen. induction df as [|r df IH]; simpl; intros seen Hin; [destruct Hin|].
  destruct (existsb (Z.eqb (Campaign_ID r)) seen) eqn:E.
  - now apply IH.
  - simpl in Hin. destruct Hin as [<-|Hin].
    + rewrite <- seen_spec. now rewrite E.
    + apply IH in Hin. simpl in Hin. tauto.
Qed.

Lemma drop_duplicates_nodup seen df : NoDup (ids (drop_duplicates seen df)).
Proof.
  revert seen. induction df as [|r df IH]; simpl; intros seen; [constructor|].
  destruct (existsb (Z.eqb (Campaign_ID r)) seen); auto.
  simpl. constructor; auto.
  intros Hin. apply drop_duplicates_fresh in Hin. simpl in Hin. tauto.
Qed.

Lemma drop_duplicates_fixed seen df :
  NoDup (ids df) -> (forall i, In i (ids df) -> ~ In i seen) ->
  drop_duplicates seen df = df.
Proof.
  revert seen. induction df as [|r df IH]; simpl; intros seen Hnd Hfresh; auto.
  inversion Hnd as [|? ? Hnot Hnd']; subst.
  destruct (existsb (Z.eqb (Campaign_ID r)) seen) eqn:E.
  - apply seen_spec in E. exfalso. apply (Hfresh (Campaign_ID r)); auto.
  - f_equal. apply IH; auto.
    intros i Hin [<-|Hs]; [contradiction|].
    apply (Hfresh i); auto.
Qed.

Lemma drop_duplicates_incl seen df r : In r (drop_duplicates seen df) -> In r df.
Proof.
  revert seen. induction df as [|r0 df IH]; simpl; intros seen Hin; auto.
  destruct (existsb (Z.eqb (Campaign_ID r0)) seen).
  - right. eapply IH; eauto.
  - destruct Hin as [->|Hin]; auto. right. eapply IH; eauto.
Qed.

(** Which rows are kept depends on the keys alone. *)
Lemma drop_duplicates_keys seen df df' :
  ids df = ids df' ->
  ids (drop_duplicates seen df) = ids (drop_duplicates seen df') /\
  List.length (drop_duplicates seen df) = List.length (drop_duplicates seen df').
Proof.
  revert seen df'. induction df as [|r df IH]; intros seen [|r' df'] E;
    try discriminate; simpl; auto.
  simpl in E. injection E as E1 E2. rewrite <- E1.
  destruct (existsb (Z.eqb (Campaign_ID r)) seen); simpl.
  - apply IH; auto.
  - destruct (IH (Campaign_ID r :: seen) df' E2) as [-> ->]. rewrite E1. auto.
Qed.

Lemma remove_duplicates_idempotent df :
  remove_duplicates (remove_duplicates df) = remove_duplicates df.
Proof.
  unfold remove_duplicates. apply drop_duplicates_fixed.
  - apply drop_duplicates_nodup.
  - intros i _ [].
Qed.

End Deduplication.

(* ------------------------------------------------------------------------- *)
(** ** The Cleaner as a whole *)

Section CleanerFacts.

Import MarketingDataCleaner.

Lemma ids_handle_missing_values df : ids (handle_missing_values df) = ids df.
Proof.
  unfold ids, handle_missing_values, numeric_columns, categorical_columns.
  cbn [fold_left]. other_columns. reflexivity.
Qed.

Lemma column_cost_to_float_other {A} (g : Row -> A) df d :
  (forall v r, g (set_Acquisition_Cost v r) = g r) ->
  cost_to_float df = Some d -> column g d = column g df.
Proof.
  unfold cost_to_float. intros H E.
  destruct (dtype_object _).
  - eapply column_parse_costs_other; eauto.
  - now injection E as <-.
Qed.

Lemma parse_costs_floats df d :
  parse_costs df = Some d -> floats_only (column Acquisition_Cost d).
Proof.
  revert d. induction df as [|r df IH]; simpl; intros d E.
  - injection E as <-. constructor.
  - destruct (cost_cell_to_float (Acquisition_Cost r)) as [c|] eqn:Ec; [|discriminate].
    destruct (parse_costs df) as [t|]; simpl in E; [|discriminate].
    injection E as <-. constructor; [|now apply IH].
    simpl. unfold cost_cell_to_float in Ec.
    destruct (Acquisition_Cost r); try (injection Ec as <-; reflexivity).
    destruct (Str.parse_currency s); simpl in Ec; [|discriminate].
    now injection Ec as <-.
Qed.

Lemma not_object_floats (col : Series) : dtype_object col = false -> floats_only col.
Proof.
  unfold dtype_object, floats_only. destruct col as [|c col]; [discriminate|].
  intros E. apply Forall_forall. intros x Hin.
  destruct (is_str x) eqn:Ex; auto.
  assert (existsb is_str (c :: col) = true) by (apply existsb_exists; eauto).
  congruence.
Qed.

Lemma cost_to_float_floats df d :
  cost_to_float df = Some d -> floats_only (column Acquisition_Cost d).
Proof.
  unfold cost_to_float. destruct (dtype_object _) eqn:E; intros H.
  - eapply parse_costs_floats; eauto.
  - injection H as <-. now apply not_object_floats.
Qed.

(** A cost column that is float already is left as it is. *)
Lemma cost_to_float_again df :
  floats_only (column Acquisition_Cost df) -> cost_to_float df = Some df.
Proof.
  unfold cost_to_float, dtype_object, floats_only. intros H.
  destruct df as [|r df]; [reflexivity|].
  cbn [column map] in *.
  destruct (existsb is_str _) eqn:E; auto.
  apply existsb_exists in E as [x [Hin Hx]].
  rewrite Forall_forall in H. rewrite (H x Hin) in Hx. discriminate.
Qed.

Lemma clean_data_unfold df :
  clean_data df =
  match cost_to_float (counts_repaired df) with
  | None => None
  | Some d =>
    let out := create_derived_features (repair_conversion_rate d) in
    Some (out,
          mkSummary (List.length df) (List.length out)
            (List.length df - List.length out)
            ["Campaign_Duration"; "Duration_Category"; "Engagement_Rate"; "Month";
             "Quarter"; "Year"; "Engagement_Category"]%string)
  end.
Proof.
  unfold clean_data, validate_numeric_ranges, counts_repaired, imputed.
  cbn [fold_left]. destruct (cost_to_float _); reflexivity.
Qed.

Lemma clean_data_steps df out s :
  clean_data df = Some (out, s) ->
  exists d,
    cost_to_float (counts_repaired df) = Some d /\
    out = create_derived_features (repair_conversion_rate d) /\
    initial_rows s = List.length df /\
    final_rows s = List.length out /\
    rows_removed s = (List.length df - List.length out)%nat.
Proof.
  rewrite clean_data_unfold.
  destruct (cost_to_float _) as [d|]; [|discriminate].
  cbv zeta. intros E. injection E as <- <-. exists d. repeat split; reflexivity.
Qed.

Lemma ids_length df df' : ids df = ids df' -> List.length df = List.length df'.
Proof.
  unfold ids, column. intros E.
  rewrite <- (length_map Campaign_ID df), E. apply length_map.
Qed.

Lemma ids_normalize df : ids (normalize_categorical_values df) = ids df.
Proof.
  unfold ids, normalize_categorical_values. other_columns. reflexivity.
Qed.

Lemma ids_clean_data df out s :
  clean_data df = Some (out, s) -> ids out = ids (imputed df).
Proof.
  intros H. destruct (clean_data_steps _ _ _ H) as (d & Hd & -> & _).
  unfold ids. other_columns.
  rewrite (column_cost_to_float_other Campaign_ID _ _ ltac:(lens) Hd).
  unfold counts_repaired, normalize_categorical_values. other_columns. reflexivity.
Qed.

Lemma floats_clean_data df out s :
  clean_data df = Some (out, s) -> floats_only (column Acquisition_Cost out).
Proof.
  intros H. destruct (clean_data_steps _ _ _ H) as (d & Hd & -> & _).
  other_columns. eapply cost_to_float_floats; eauto.
Qed.

(** C4: the deduplication keeps the first record of each [Campaign_ID] and
    is idempotent; so when the Cleaner is run on a frame it has already
    cleaned, the run succeeds and removes no row: its [final_rows] is its
    [initial_rows]. *)
Theorem clean_data_twice df out s :
  clean_data df = Some (out, s) ->
  remove_duplicates (remove_duplicates df) = remove_duplicates df /\
  exists out2 s2,
    clean_data out = Some (out2, s2) /\
    initial_rows s2 = List.length out /\
    final_rows s2 = initial_rows s2 /\
    rows_removed s2 = 0%nat /\
    ids out2 = ids out.
Proof.
  intros H. split; [apply remove_duplicates_idempotent|].
  pose proof (ids_clean_data _ _ _ H) as Hids.
  pose proof (floats_clean_data _ _ _ H) as Hfloat.
  (* the keys of a cleaned frame are distinct: the second pass drops nothing *)
  assert (Hkeep : ids (imputed out) = ids out).
  { unfold imputed, remove_duplicates.
    assert (Hnd : NoDup (ids out)).
    { rewrite Hids. unfold imputed, remove_duplicates. apply drop_duplicates_nodup. }
    destruct (drop_duplicates_keys [] (handle_missing_values out) out
                (ids_handle_missing_values out)) as [-> _].
    rewrite drop_duplicates_fixed; auto. }
  (* the cost column is float by now, so nothing is parsed and nothing raises *)
  assert (Hcost : cost_to_float (counts_repaired out) = Some (counts_repaired out)).
  { apply cost_to_float_again.
    unfold counts_repaired, normalize_categorical_values. other_columns.
    unfold imputed, remove_duplicates.
    apply Forall_forall. intros c Hc. unfold column in Hc.
    apply in_map_iff in Hc as [r [<- Hr]].
    apply drop_duplicates_incl in Hr.
    assert (In (Acquisition_Cost r) (column Acquisition_Cost (handle_missing_values out)))
      as Hin by (unfold column; apply in_map; exact Hr).
    revert Hin. unfold handle_missing_values, numeric_columns, categorical_columns.
    cbn [fold_left]. other_columns. intros Hin.
    unfold floats_only in Hfloat. rewrite Forall_forall in Hfloat.
    apply Hfloat. exact Hin. }
  assert (Hout2 : ids (create_derived_features
                         (repair_conversion_rate (counts_repaired out))) = ids out).
  { rewrite <- Hkeep. unfold ids. other_columns. unfold counts_repaired, normalize_categorical_values.
    other_columns. reflexivity. }
  pose proof (ids_length _ _ Hout2) as Hlen.
  rewrite clean_data_unfold, Hcost. cbv zeta.
  eexists _, _. split; [reflexivity|].
  cbn [initial_rows final_rows rows_removed].
  rewrite Hlen. repeat split; auto. apply Nat.sub_diag.
Qed.

End CleanerFacts.

Lemma clean_data_twice_witness :
  exists out s,
    MarketingDataCleaner.clean_data Samples.untidy = Some (out, s) /\
    MarketingDataCleaner.rows_removed s = 1%nat /\
    exists out2 s2,
      MarketingDataCleaner.clean_data out = Some (out2, s2) /\
      MarketingDataCleaner.rows_removed s2 = 0%nat.
Proof.
  destruct (MarketingDataCleaner.clean_data Samples.untidy) as [[out s]|] eqn:E.
  - exists out, s. split; [reflexivity|].
    destruct (clean_data_twice _ _ _ E) as [_ (out2 & s2 & H2 & _ & _ & H0 & _)].
    split.
    + vm_compute in E. injection E as _ <-. reflexivity.
    + exists out2, s2. split; assumption.
  - vm_compute in E. discriminate E.
Defined.

(* ------------------------------------------------------------------------- *)
(** ** Imputation and range repair *)

Section RangeRepair.

Import MarketingDataCleaner.

Lemma insert_sorted_length x l :
  List.length (insert_sorted x l) = S (List.length l).
Proof.
  induction l as [|y t IH]; simpl; auto.
  destruct (Qle_bool x y); simpl; auto.
Qed.

Lemma sort_length l : List.length (Num.sort l) = List.length l.
Proof.
  unfold Num.sort. induction l as [|x l IH]; simpl; auto.
  now rewrite insert_sorted_length, IH.
Qed.

(** The median of a column is NaN exactly when every cell is. *)
Lemma median_nan col : median col = None <-> dropna col = [].
Proof.
  unfold median. pose proof (sort_length (dropna col)) as Hlen.
  destruct (List.length (Num.sort (dropna col))) eqn:E.
  - split; auto. intros _. destruct (dropna col); [auto|discriminate].
  - split.
    + destruct (Nat.odd (S n)); discriminate.
    + intros H. rewrite H in Hlen. discriminate.
Qed.

Lemma dropna_nil {A} (col : list (option A)) :
  dropna col = [] <-> Forall (fun x => x = None) col.
Proof.
  unfold dropna. induction col as [|[a|] col IH]; simpl.
  - split; auto.
  - split; [discriminate|]. intros H. inversion H. discriminate.
  - rewrite IH. split; intros H; [constructor; auto | now inversion H].
Qed.

(** After [fillna(median)] a column has no NaN left, unless it is NaN
    throughout. *)
Lemma fillna_median col :
  Forall (fun x => x = None) (map (fillna (median col)) col) \/
  Forall (fun x => x <> None) (map (fillna (median col)) col).
Proof.
  destruct (median col) as [m|] eqn:E.
  - right. apply Forall_forall. intros x Hin.
    apply in_map_iff in Hin as [y [<- _]].
    unfold fillna. destruct y; simpl; discriminate.
  - left. apply median_nan, dropna_nil in E.
    apply Forall_forall. intros x Hin.
    apply in_map_iff in Hin as [y [<- Hy]].
    rewrite Forall_forall in E. rewrite (E y Hy). reflexivity.
Qed.

Lemma column_handle_missing_values c df :
  In c numeric_columns ->
  column (num_get c) (handle_missing_values df) =
  map (fillna (median (column (num_get c) df))) (column (num_get c) df).
Proof.
  unfold handle_missing_values, numeric_columns, categorical_columns.
  cbn [fold_left In].
  intros H; repeat (destruct H as [<-|H]); [ | | | | | destruct H];
    other_columns;
    (rewrite column_fill_numeric_same by lens); other_columns; reflexivity.
Qed.

Lemma column_imputed_incl {A} (g : Row -> A) df x :
  In x (column g (imputed df)) -> In x (column g (handle_missing_values df)).
Proof.
  unfold imputed, remove_duplicates, column. intros H.
  apply in_map_iff in H as [r [<- Hr]].
  apply in_map. exact (drop_duplicates_incl [] _ _ Hr).
Qed.

(** When the median of an imputed column is a number, so is every cell. *)
Lemma imputed_no_nan c df m :
  In c numeric_columns ->
  median (column (num_get c) (imputed df)) = Some m ->
  Forall (fun x => x <> None) (column (num_get c) (imputed df)).
Proof.
  intros Hc Hm.
  assert (Hsome : exists v, In (Some v) (column (num_get c) (imputed df))).
  { destruct (dropna (column (num_get c) (imputed df))) as [|v t] eqn:E.
    - apply median_nan in E. rewrite E in Hm. discriminate Hm.
    - exists v. clear Hm. revert E. unfold dropna.
      induction (column (num_get c) (imputed df)) as [|[a|] col IH]; simpl; intros E.
      + discriminate.
      + injection E as -> _. auto.
      + auto. }
  destruct Hsome as [v Hv].
  pose proof (fillna_median (column (num_get c) df)) as Hfill.
  rewrite <- column_handle_missing_values in Hfill by assumption.
  apply Forall_forall. intros x Hx.
  destruct Hfill as [Hall|Hnone]; rewrite Forall_forall in *.
  - apply column_imputed_incl in Hv. apply Hall in Hv. discriminate Hv.
  - apply Hnone. apply column_imputed_incl. exact Hx.
Qed.

Lemma not_negative (v : Q) : lt (Some v) zero = false -> (0 <= v)%Q.
Proof.
  unfold lt, zero, Qltb. intros H. apply negb_false_iff in H.
  now apply Qle_bool_iff.
Qed.

Lemma not_above_one (v : Q) : gt (Some v) one = false -> (v <= 1)%Q.
Proof.
  unfold gt, lt, one, Qltb. intros H. apply negb_false_iff in H.
  now apply Qle_bool_iff.
Qed.

Lemma column_out df out s (g : Row -> num) :
  clean_data df = Some (out, s) ->
  (forall v r, g (set_Acquisition_Cost v r) = g r) ->
  (forall v r, g (set_Conversion_Rate v r) = g r) ->
  (forall a b c d e f h r, g (set_derived a b c d e f h r) = g r) ->
  column g out = column g (counts_repaired df).
Proof.
  intros H H1 H2 H3. destruct (clean_data_steps _ _ _ H) as (d & Hd & -> & _).
  rewrite column_derived_other, column_repair_rate_other by assumption.
  eapply column_cost_to_float_other; eauto.
Qed.

Lemma column_counts df out s c :
  clean_data df = Some (out, s) ->
  In c [Clicks_col; Impressions_col; Engagement_Score_col] ->
  column (num_get c) out =
  map (repair_negative_cell (median (column (num_get c) (imputed df))))
      (column (num_get c) (imputed df)).
Proof.
  intros H Hc. cbn [In] in Hc.
  repeat (destruct Hc as [<-|Hc]); [ | | | destruct Hc];
    (rewrite (column_out df out s) by (first [exact H | lens]));
    unfold counts_repaired, normalize_categorical_values;
    other_columns;
    (rewrite column_repair_negative_same by lens); other_columns; reflexivity.
Qed.

Lemma column_rate df out s :
  clean_data df = Some (out, s) ->
  column Conversion_Rate out =
  map (repair_rate_cell (median (column Conversion_Rate (imputed df))))
      (column Conversion_Rate (imputed df)).
Proof.
  intros H. destruct (clean_data_steps _ _ _ H) as (d & Hd & -> & _).
  other_columns. rewrite column_repair_rate_same.
  rewrite (column_cost_to_float_other Conversion_Rate _ _ ltac:(lens) Hd).
  unfold counts_repaired, normalize_categorical_values. other_columns. reflexivity.
Qed.

(** C1, as the code has it: the Cleaner imputes each numeric column with its
    median, and then replaces the negative cells of clicks, impressions and
    engagement score, and the conversion rates outside [0, 1], by the median
    of the imputed, de-duplicated column.  Every cleaned record is within
    the bound of a column whose median is itself within it.  The cost is
    converted to a float and is not checked against any bound. *)
Theorem clean_data_ranges df out s :
  clean_data df = Some (out, s) ->
  (forall c, In c numeric_columns ->
     column (num_get c) (handle_missing_values df) =
     map (fillna (median (column (num_get c) df))) (column (num_get c) df)) /\
  (forall c, In c [Clicks_col; Impressions_col; Engagement_Score_col] ->
     let m := median (column (num_get c) (imputed df)) in
     column (num_get c) out =
       map (repair_negative_cell m) (column (num_get c) (imputed df)) /\
     (nonneg m -> Forall nonneg (column (num_get c) out))) /\
  (let m := median (column Conversion_Rate (imputed df)) in
   column Conversion_Rate out =
     map (repair_rate_cell m) (column Conversion_Rate (imputed df)) /\
   (in_unit m -> Forall in_unit (column Conversion_Rate out))).
Proof.
  intros H. split; [|split].
  - intros c Hc. apply column_handle_missing_values. exact Hc.
  - intros c Hc m. split; [exact (column_counts df out s c H Hc)|].
    intros Hm. rewrite (column_counts df out s c H Hc). fold m.
    destruct m as [mv|] eqn:Em; [|destruct Hm].
    assert (Hnum : In c numeric_columns).
    { unfold numeric_columns. cbn [In] in *. tauto. }
    pose proof (imputed_no_nan c df mv Hnum Em) as Hnn.
    apply Forall_forall. intros x Hx.
    apply in_map_iff in Hx as [y [<- Hy]].
    rewrite Forall_forall in Hnn. specialize (Hnn y Hy).
    unfold repair_negative_cell.
    destruct (lt y zero) eqn:E; [exact Hm|].
    destruct y as [v|]; [|exfalso; apply Hnn; reflexivity].
    apply not_negative. exact E.
  - intros m. split; [exact (column_rate df out s H)|].
    intros Hm. rewrite (column_rate df out s H). fold m.
    destruct m as [mv|] eqn:Em; [|destruct Hm].
    assert (Hnum : In Conversion_Rate_col numeric_columns).
    { unfold numeric_columns. cbn [In]. tauto. }
    pose proof (imputed_no_nan Conversion_Rate_col df mv Hnum Em) as Hnn.
    apply Forall_forall. intros x Hx.
    apply in_map_iff in Hx as [y [<- Hy]].
    rewrite Forall_forall in Hnn. specialize (Hnn y Hy).
    unfold repair_rate_cell.
    destruct (lt y zero || gt y one) eqn:E; [exact Hm|].
    apply orb_false_iff in E as [E0 E1].
    destruct y as [v|]; [|exfalso; apply Hnn; reflexivity].
    split; [apply not_negative; exact E0 | apply not_above_one; exact E1].
Qed.

End RangeRepair.

Lemma clean_data_ranges_witness :
  exists out s,
    MarketingDataCleaner.clean_data Samples.untidy = Some (out, s) /\
    Forall nonneg (column Clicks out) /\
    Forall in_unit (column Conversion_Rate out).
Proof.
  destruct (MarketingDataCleaner.clean_data Samples.untidy) as [[out s]|] eqn:E.
  - exists out, s. split; [reflexivity|].
    destruct (clean_data_ranges _ _ _ E) as (_ & Hcounts & _ & Hrate).
    split.
    + apply (proj2 (Hcounts Clicks_col (or_introl eq_refl))).
      vm_compute. discriminate.
    + apply Hrate. vm_compute. split; discriminate.
  - vm_compute in E. discriminate E.
Defined.

(** C1, as the specification words it, fails: a cost entered as a negative
    amount is converted and kept, so a cleaned record can have a negative
    [Acquisition_Cost]. *)
Lemma clean_data_keeps_negative_cost :
  exists out s,
    MarketingDataCleaner.clean_data Samples.refunded = Some (out, s) /\
    ~ Forall within_ranges out.
Proof.
  eexists _, _. split; [vm_compute; reflexivity|].
  intros H. inversion H as [|r l Hr _]; subst.
  destruct Hr as (_ & Hcost & _). vm_compute in Hcost. apply Hcost. reflexivity.
Qed.

(** The repair can also leave a negative count: the median of a column that
    is negative in its majority is negative itself. *)
Example clean_data_negative_median :
  exists out s,
    MarketingDataCleaner.clean_data Samples.negative_clicks = Some (out, s) /\
    column Clicks out = [Some (-506 # 1); Some (-506 # 1); Some (-506 # 1)].
Proof. eexists _, _. split; vm_compute; reflexivity. Qed.

(* ------------------------------------------------------------------------- *)
(** ** Cohorts *)

Section Cohorts.

Import CohortAnalyzer.

Lemma leb_before a b : Calendar.leb a b = true <-> before a b.
Proof.
  unfold Calendar.leb, Calendar.compare, before.
  destruct (Z.compare_spec (year a) (year b));
    [destruct (Z.compare_spec (month_number (month a)) (month_number (month b)));
     [destruct (Z.compare_spec (day a) (day b));
      [destruct (Z.compare_spec (nanos a) (nanos b))| |] | |] | |];
    split; intros Hx; try reflexivity; try discriminate Hx; lia.
Qed.

Lemma before_trans a b c : before a b -> before b c -> before a c.
Proof. unfold before. lia. Qed.

Lemma before_total a b : before a b \/ before b a.
Proof. unfold before. lia. Qed.

Lemma before_refl a : before a a.
Proof. unfold before. lia. Qed.

Lemma month_number_range m : 1 <= month_number m <= 12.
Proof. destruct m; simpl; lia. Qed.

(** Months are counted the way dates are ordered. *)
Lemma to_period_M_mono a b : before a b -> to_period_M a <= to_period_M b.
Proof.
  unfold before, to_period_M.
  pose proof (month_number_range (month a)).
  pose proof (month_number_range (month b)).
  lia.
Qed.

Lemma min_before_l a b : before (Calendar.min a b) a.
Proof.
  unfold Calendar.min. destruct (Calendar.leb a b) eqn:E.
  - apply before_refl.
  - destruct (before_total a b) as [H|H]; auto.
    apply leb_before in H. congruence.
Qed.

Lemma min_before_r a b : before (Calendar.min a b) b.
Proof.
  unfold Calendar.min. destruct (Calendar.leb a b) eqn:E.
  - now apply leb_before.
  - apply before_refl.
Qed.

Lemma fold_min_before rest t :
  before (fold_left Calendar.min rest t) t /\
  forall x, In x rest -> before (fold_left Calendar.min rest t) x.
Proof.
  revert t. induction rest as [|y rest IH]; intros t; simpl.
  - split; [apply before_refl | intros x []].
  - destruct (IH (Calendar.min t y)) as [H1 H2]. split.
    + eapply before_trans; [exact H1 | apply min_before_l].
    + intros x [<-|Hx]; auto.
      eapply before_trans; [exact H1 | apply min_before_r].
Qed.

Lemma fold_min_in rest t : In (fold_left Calendar.min rest t) (t :: rest).
Proof.
  revert t. induction rest as [|y rest IH]; intros t; simpl; auto.
  destruct (IH (Calendar.min t y)) as [H|H]; auto.
  rewrite <- H. unfold Calendar.min. destruct (Calendar.leb t y); auto.
Qed.

(** [Series.min()] is a date of the column and no date of it is earlier. *)
Lemma series_min_spec col d0 :
  series_min col = Some d0 ->
  In (Some d0) col /\ forall d, In (Some d) col -> before d0 d.
Proof.
  unfold series_min.
  assert (Hin : forall d, In d (dropna col) <-> In (Some d) col).
  { intros d. unfold dropna. rewrite in_flat_map. split.
    - intros [[x|] [Hx Hd]]; simpl in Hd; [|destruct Hd].
      destruct Hd as [<-|[]]. exact Hx.
    - intros H. exists (Some d). simpl. auto. }
  destruct (dropna col) as [|t rest] eqn:E; [discriminate|].
  intros H. injection H as <-. split.
  - apply Hin. apply fold_min_in.
  - intros d Hd. apply Hin in Hd.
    destruct (fold_min_before rest t) as [H1 H2].
    destruct Hd as [<-|Hd]; auto.
Qed.

Lemma text_eqb_eq a b : text_eqb a b = true -> a = b.
Proof.
  destruct a, b; simpl; try discriminate.
  intros H. apply String.eqb_eq in H. now subst.
Qed.

Lemma text_eqb_refl a : text_eqb (Some a) (Some a) = true.
Proof. simpl. apply String.eqb_refl. Qed.

Lemma insert_row_perm r l : Permutation (r :: l) (insert_row r l).
Proof.
  induction l as [|x l IH]; simpl; auto.
  destruct (row_leb r x); auto.
  eapply perm_trans; [apply perm_swap|]. now constructor.
Qed.

Lemma sort_values_perm df : Permutation df (sort_values df).
Proof.
  unfold sort_values. induction df as [|r df IH]; simpl; auto.
  eapply perm_trans; [|apply insert_row_perm]. now constructor.
Qed.

Lemma traverse_campaigns df0 df out :
  traverse (assign_cohort df0) df = Some out -> map campaign out = df.
Proof.
  intros H. apply traverse_some in H.
  induction H as [|r r' df out Hr _ IH]; simpl; auto.
  unfold assign_cohort in Hr.
  destruct (Date r); [|discriminate Hr].
  destruct (first_date df0 _); [|discriminate Hr].
  injection Hr as <-. simpl. now rewrite IH.
Qed.

Lemma traverse_in {A B} (f : A -> option B) l out y :
  traverse f l = Some out -> In y out -> exists x, In x l /\ f x = Some y.
Proof.
  intros H. apply traverse_some in H.
  induction H as [|a b l out Hab _ IH]; simpl; intros Hy; [destruct Hy|].
  destruct Hy as [<-|Hy]; eauto.
  destruct (IH Hy) as [x [Hx Hfx]]. eauto.
Qed.

Lemma traverse_in_source {A B} (f : A -> option B) l out x :
  traverse f l = Some out -> In x l -> exists y, In y out /\ f x = Some y.
Proof.
  intros H. apply traverse_some in H.
  induction H as [|a b l out Hab _ IH]; simpl; intros Hx; [destruct Hx|].
  destruct Hx as [<-|Hx]; eauto.
  destruct (IH Hx) as [y [Hy Hfy]]. eauto.
Qed.

(** What [assign_cohort] establishes for one row. *)
Lemma assign_cohort_spec df0 r r' :
  assign_cohort df0 r = Some r' ->
  exists d d0,
    Date r = Some d /\
    first_date df0 (Target_Audience r) = Some d0 /\
    campaign r' = r /\
    Cohort_Month r' = to_period_M d /\
    Months_Since_First_Campaign r' = to_period_M d - to_period_M d0.
Proof.
  unfold assign_cohort. intros H.
  destruct (Date r) as [d|]; [|discriminate H].
  destruct (first_date df0 _) as [d0|]; [|discriminate H].
  injection H as <-. exists d, d0. repeat split; reflexivity.
Qed.

(** When [create_cohorts] returns, the frame had a record and every row of
    the sorted frame received its cohort. *)
Lemma create_cohorts_some df out :
  create_cohorts df = Some out ->
  df <> [] /\
  traverse (assign_cohort (sort_values df)) (sort_values df) = Some out.
Proof.
  destruct df as [|r df]; intros H; [discriminate H|].
  split; [discriminate | exact H].
Qed.

(** C8: in the frame [create_cohorts] returns, which holds every record of
    the input once, [Months_Since_First_Campaign] is never negative; the
    records of one audience count their offsets from the same month; and
    that month is the month of a record of the audience, whose offset is 0:
    the records at offset 0 are the baseline of the audience. *)
Theorem create_cohorts_offsets df out :
  create_cohorts df = Some out ->
  Permutation df (map campaign out) /\
  Forall (fun r => 0 <= Months_Since_First_Campaign r) out /\
  (forall r r', In r out -> In r' out -> same_audience r r' ->
     baseline_month r = baseline_month r') /\
  (forall r, In r out ->
     exists r0, In r0 out /\ same_audience r0 r /\
                Months_Since_First_Campaign r0 = 0 /\
                Cohort_Month r0 = baseline_month r).
Proof.
  intros H. apply create_cohorts_some in H as [_ H].
  set (df' := sort_values df) in *.
  assert (Hrow : forall r', In r' out ->
            exists d d0,
              In (campaign r') df' /\
              Date (campaign r') = Some d /\
              first_date df' (Target_Audience (campaign r')) = Some d0 /\
              Cohort_Month r' = to_period_M d /\
              Months_Since_First_Campaign r' = to_period_M d - to_period_M d0).
  { intros r' Hr'. destruct (traverse_in _ _ _ _ H Hr') as [r [Hr Ha]].
    destruct (assign_cohort_spec _ _ _ Ha) as (d & d0 & Hd & Hd0 & Hc & Hm & Hn).
    exists d, d0. rewrite Hc. auto. }
  split; [|split; [|split]].
  - rewrite (traverse_campaigns _ _ _ H). apply sort_values_perm.
  - apply Forall_forall. intros r' Hr'.
    destruct (Hrow r' Hr') as (d & d0 & Hin & Hd & Hd0 & _ & ->).
    unfold first_date in Hd0. apply series_min_spec in Hd0 as [_ Hmin].
    assert (before d0 d) as Hb.
    { apply Hmin. unfold column. rewrite <- Hd. apply in_map.
      apply filter_In. split; auto.
      destruct (Target_Audience (campaign r')) as [a|] eqn:Ea.
      - apply text_eqb_refl.
      - (* no group holds a record without audience *)
        exfalso. destruct (Hrow r' Hr') as (_ & d1 & _ & _ & Hd1 & _).
        unfold first_date in Hd1. rewrite Ea in Hd1.
        apply series_min_spec in Hd1 as [Hd1 _].
        unfold column in Hd1. apply in_map_iff in Hd1 as [x [_ Hx]].
        apply filter_In in Hx as [_ Hx]. destruct (Target_Audience x); discriminate Hx. }
    apply to_period_M_mono in Hb. lia.
  - intros r r' Hr Hr' Hsame. unfold baseline_month, same_audience in *.
    destruct (Hrow r Hr) as (d & d0 & _ & _ & Hd0 & -> & ->).
    destruct (Hrow r' Hr') as (d' & d0' & _ & _ & Hd0' & -> & ->).
    rewrite Hsame in Hd0. rewrite Hd0 in Hd0'. injection Hd0' as <-. lia.
  - intros r Hr.
    destruct (Hrow r Hr) as (d & d0 & _ & _ & Hd0 & Hc & Hm).
    pose proof Hd0 as Hmin. unfold first_date in Hmin.
    apply series_min_spec in Hmin as [Hin0 _].
    unfold column in Hin0. apply in_map_iff in Hin0 as [x [Hx Hin0]].
    apply filter_In in Hin0 as [Hx' Haud]. apply text_eqb_eq in Haud.
    destruct (traverse_in_source _ _ _ x H Hx') as [r0 [Hr0 Ha0]].
    destruct (assign_cohort_spec _ _ _ Ha0) as (dx & d0x & Hdx & Hd0x & Hc0 & Hm0 & Hn0).
    exists r0. unfold same_audience, baseline_month.
    rewrite Hc0, Haud. split; [exact Hr0|]. split; [reflexivity|].
    rewrite Hx in Hdx. injection Hdx as <-.
    rewrite Haud, Hd0 in Hd0x. injection Hd0x as <-.
    rewrite Hn0, Hm0, Hc, Hm. lia.
Qed.

End Cohorts.

(* ------------------------------------------------------------------------- *)
(** ** The retention matrix, cell by cell *)

Section Retention.

Import CohortAnalyzer.

Lemma position_nth x l k :
  position x l = Some k -> (k < List.length l)%nat /\ nth k l 0 = x.
Proof.
  revert k. induction l as [|y l IH]; simpl; intros k H; [discriminate H|].
  destruct (Z.eqb_spec x y) as [->|Hne].
  - injection H as <-. split; [lia | reflexivity].
  - destruct (position x l) as [j|]; [|discriminate H].
    injection H as <-. destruct (IH j eq_refl). split; [lia | assumption].
Qed.

Lemma in_position x l : In x l -> exists k, position x l = Some k.
Proof.
  induction l as [|y l IH]; simpl; intros H; [destruct H|].
  destruct (Z.eqb_spec x y) as [->|Hne]; [eauto|].
  destruct H as [->|H]; [contradiction|].
  destruct (IH H) as [k ->]. simpl. eauto.
Qed.

Lemma insert_label_in x y l : In y (insert_label x l) <-> y = x \/ In y l.
Proof.
  induction l as [|z l IH]; simpl; [intuition|].
  destruct (Z.eqb_spec x z) as [->|Hne]; simpl; [intuition|].
  destruct (x <? z); simpl; [intuition|].
  rewrite IH. intuition.
Qed.

Lemma sorted_labels_in y l : In y (sorted_labels l) <-> In y l.
Proof.
  unfold sorted_labels. induction l as [|x l IH]; simpl; [reflexivity|].
  rewrite insert_label_in, IH. intuition.
Qed.

Lemma nth_map_default {A B} (f : A -> B) l k d d' :
  (k < List.length l)%nat -> nth k (map f l) d' = f (nth k l d).
Proof.
  intros H. rewrite (nth_indep _ d' (f d)) by now rewrite length_map.
  apply map_nth.
Qed.

(** A cell of the retention matrix is the cell of the pivot divided by the
    cell of its row at offset 0. *)
Lemma retention_cell df m i c :
  retention_matrix df = Some m ->
  In i (index m) -> In c (labels m) ->
  cell_at m i c =
  Some (div (pivot_cell count_audiences df i c) (pivot_cell count_audiences df i 0)).
Proof.
  unfold retention_matrix, matrix_column.
  remember (pivot count_audiences df) as m0 eqn:Em0.
  assert (Hval : values m0 =
                 map (fun i => map (pivot_cell count_audiences df i) (labels m0))
                     (index m0)) by (subst m0; reflexivity).
  clear Em0.
  destruct (position 0 (labels m0)) as [k|] eqn:Ek; [|discriminate].
  intros H. injection H as <-. unfold cell_at, div_rows.
  cbn [index labels values]. intros Hi Hc.
  destruct (in_position _ _ Hi) as [a Ea]. destruct (in_position _ _ Hc) as [b Eb].
  rewrite Ea, Eb. f_equal.
  destruct (position_nth _ _ _ Ea) as [Ha Hai].
  destruct (position_nth _ _ _ Eb) as [Hb Hbc].
  destruct (position_nth _ _ _ Ek) as [Hk Hk0].
  assert (Hrows : List.length (values m0) = List.length (index m0)).
  { rewrite Hval. apply length_map. }
  assert (Hrow : forall d, nth a (values m0) d =
                           map (pivot_cell count_audiences df i) (labels m0)).
  { intros d. rewrite Hval.
    rewrite (nth_map_default _ _ _ 0) by exact Ha. now rewrite Hai. }
  rewrite (nth_map_default _ _ _ (@nil num, @None Q)).
  2:{ rewrite length_combine, length_map, Nat.min_id.
      change (a < List.length (values m0))%nat. rewrite Hrows. exact Ha. }
  rewrite combine_nth by now rewrite length_map.
  cbn [fst snd]. rewrite Hrow.
  rewrite (nth_map_default _ _ _ (@nil num)) by lia. rewrite Hrow.
  rewrite (nth_map_default _ _ _ (@None Q)) by now rewrite length_map.
  rewrite !(nth_map_default _ _ _ 0) by assumption.
  rewrite Hbc, Hk0. reflexivity.
Qed.

Lemma distinct_nil l : distinct l = [] -> l = [].
Proof.
  induction l as [|x l IH]; simpl; auto.
  destruct (existsb (String.eqb x) l) eqn:E; [|discriminate].
  intros H. apply IH in H. subst l. discriminate E.
Qed.

(** Where C2 does hold: a cohort row in which some audience has its first
    month carries 1 at offset 0. *)
Lemma retention_baseline_is_one df m r a :
  retention_matrix df = Some m ->
  In r df -> Months_Since_First_Campaign r = 0 ->
  Target_Audience (campaign r) = Some a ->
  exists v, cell_at m (Cohort_Month r) 0 = Some (Some v) /\ (v == 1)%Q.
Proof.
  intros Hm Hr H0 Ha.
  assert (Hidx : In (Cohort_Month r) (index m) /\ In 0 (labels m)).
  { revert Hm. unfold retention_matrix, matrix_column.
    destruct (position 0 _); [|discriminate].
    intros E. injection E as <-. cbn [index labels div_rows pivot].
    split; apply sorted_labels_in.
    - now apply in_map.
    - rewrite <- H0. now apply in_map. }
  destruct Hidx as [Hi Hc].
  rewrite (retention_cell df m _ _ Hm Hi Hc).
  unfold pivot_cell.
  assert (Hb : In r (bucket df (Cohort_Month r) 0)).
  { unfold bucket. apply filter_In. split; auto.
    rewrite H0, !Z.eqb_refl. reflexivity. }
  destruct (bucket df (Cohort_Month r) 0) as [|r0 g] eqn:Eb; [destruct Hb|].
  unfold count_audiences.
  set (n := nunique _).
  assert (Hn : (0 < n)%nat).
  { unfold n, nunique.
    destruct (distinct _) eqn:Ed; [|simpl; lia].
    apply distinct_nil in Ed. exfalso.
    assert (In a (dropna (map (fun r => Target_Audience (campaign r)) (r0 :: g)))) as Hin.
    { unfold dropna. apply in_flat_map. exists (Some a). split; [|simpl; auto].
      rewrite <- Ha.
      exact (in_map (fun x => Target_Audience (campaign x)) _ _ Hb). }
    rewrite Ed in Hin. destruct Hin. }
  unfold div.
  destruct (Qeq_bool (inject_Z (Z.of_nat n)) 0) eqn:Ez.
  - apply Qeq_bool_iff in Ez. unfold Qeq in Ez. simpl in Ez. lia.
  - eexists. split; [reflexivity|].
    apply Qmult_inv_r. intros Ez'. unfold Qeq in Ez'. simpl in Ez'. lia.
Qed.

End Retention.

Lemma create_cohorts_offsets_witness :
  exists out,
    CohortAnalyzer.create_cohorts Samples.season = Some out /\
    Forall (fun r => 0 <= CohortAnalyzer.Months_Since_First_Campaign r) out /\
    map CohortAnalyzer.Cohort_Month out = [612; 613; 613; 614] /\
    map CohortAnalyzer.Months_Since_First_Campaign out = [0; 1; 0; 1].
Proof.
  destruct (CohortAnalyzer.create_cohorts Samples.season) as [out|] eqn:E.
  - exists out. split; [reflexivity|].
    split; [exact (proj1 (proj2 (create_cohorts_offsets _ _ E)))|].
    vm_compute in E. injection E as <-. split; reflexivity.
  - vm_compute in E. discriminate E.
Defined.

(** C2 does not hold of the code.  [create_cohorts] labels a record with the
    month of its own date, not with the first month of its audience, so a
    month in which no audience starts is a row of the retention matrix
    without a cell at offset 0; the division by that absent cell leaves NaN
    in the whole row.  For one audience addressed in January and in February
    2021, the February row has NaN, not 1.0, at offset 0. *)
Theorem retention_row_without_baseline :
  exists cohorts metrics,
    CohortAnalyzer.create_cohorts Samples.returning = Some cohorts /\
    CohortAnalyzer.calculate_cohort_metrics cohorts = Some metrics /\
    CohortAnalyzer.index (CohortAnalyzer.retention metrics) = [612; 613] /\
    CohortAnalyzer.labels (CohortAnalyzer.retention metrics) = [0; 1] /\
    CohortAnalyzer.values (CohortAnalyzer.retention metrics) =
      [[Some 1%Q; None]; [None; None]] /\
    CohortAnalyzer.cell_at (CohortAnalyzer.retention metrics) 613 0 = Some None.
Proof.
  eexists _, _. split; [vm_compute; reflexivity|].
  split; [vm_compute; reflexivity|].
  repeat split; reflexivity.
Qed.

Example retention_season :
  exists cohorts metrics,
    CohortAnalyzer.create_cohorts Samples.season = Some cohorts /\
    CohortAnalyzer.calculate_cohort_metrics cohorts = Some metrics /\
    CohortAnalyzer.index (CohortAnalyzer.retention metrics) = [612; 613; 614] /\
    CohortAnalyzer.values (CohortAnalyzer.retention metrics) =
      [[Some 1%Q; None]; [Some 1%Q; Some 1%Q]; [None; None]].
Proof.
  eexists _, _. split; [vm_compute; reflexivity|].
  split; [vm_compute; reflexivity|].
  repeat split; reflexivity.
Qed.

(* ------------------------------------------------------------------------- *)
(** ** Segments: whole days, and the sizes of the clusters *)

Section Segments.

Import SegmentAnalyzer.

Lemma timedelta_days_whole a b :
  let k := timedelta_days a b in
  k * ns_per_day <= to_ns a - to_ns b < (k + 1) * ns_per_day.
Proof.
  unfold timedelta_days. cbv zeta.
  assert (0 < ns_per_day) by (unfold ns_per_day; lia).
  pose proof (Z.div_mod (to_ns a - to_ns b) ns_per_day ltac:(lia)).
  pose proof (Z.mod_pos_bound (to_ns a - to_ns b) ns_per_day ltac:(lia)).
  nia.
Qed.

Lemma map_fst_combine {A B} (l : list A) (l' : list B) :
  List.length l' = List.length l -> map fst (combine l l') = l.
Proof.
  revert l'. induction l as [|a l IH]; intros [|b l'] H; simpl in *;
    try discriminate; auto.
  f_equal. apply IH. lia.
Qed.

Lemma map_snd_combine {A B} (l : list A) (l' : list B) :
  List.length l' = List.length l -> map snd (combine l l') = l'.
Proof.
  revert l'. induction l as [|a l IH]; intros [|b l'] H; simpl in *;
    try discriminate; auto.
  f_equal. apply IH. lia.
Qed.

Lemma count_one_label (c : nat) (f : nat -> nat) start k :
  list_sum (map (fun i => ((if (c =? i)%nat then 1 else 0) + f i)%nat) (seq start k)) =
  ((if (start <=? c)%nat && (c <? start + k)%nat then 1 else 0)
   + list_sum (map f (seq start k)))%nat.
Proof.
  assert (Hcons : forall a l, list_sum (a :: l) = (a + list_sum l)%nat)
    by reflexivity.
  revert start. induction k as [|k IH]; intros start; cbn [seq map].
  - destruct (start <=? c)%nat eqn:E1, (c <? start + 0)%nat eqn:E2; simpl; auto.
    apply Nat.leb_le in E1. apply Nat.ltb_lt in E2. lia.
  - rewrite !Hcons, IH.
    destruct (Nat.eqb_spec c start) as [Heq|Hne];
      destruct (Nat.leb_spec (S start) c), (Nat.ltb_spec c (S start + k)),
        (Nat.leb_spec start c), (Nat.ltb_spec c (start + S k));
      simpl; lia.
Qed.

(** The cluster groups split the frame: their sizes add up to its length. *)
Lemma cluster_sizes (l : list ClusteredRow) k :
  Forall (fun r => (Cluster r < k)%nat) l ->
  list_sum (map (fun i => List.length (filter (fun r => (Cluster r =? i)%nat) l))
                (seq 0 k)) = List.length l.
Proof.
  induction l as [|r l IH]; intros H.
  - simpl. induction (seq 0 k); simpl; auto.
  - inversion H as [|? ? Hr Hl]; subst. specialize (IH Hl).
    cbn [List.length]. rewrite <- IH.
    transitivity
      (list_sum (map (fun i => ((if (Cluster r =? i)%nat then 1 else 0)
                                + List.length (filter (fun x => (Cluster x =? i)%nat) l))%nat)
                     (seq 0 k))).
    + f_equal. apply map_ext. intros i. cbn [filter].
      destruct (Cluster r =? i)%nat; reflexivity.
    + rewrite count_one_label.
      destruct (Nat.leb_spec 0 (Cluster r)), (Nat.ltb_spec (Cluster r) (0 + k));
        simpl; lia.
Qed.

End Segments.

(* ------------------------------------------------------------------------- *)
(** ** Channels: the significance flag *)

Section Significance.

Import ChannelAnalyzer.

Lemma round_half_even_floor x :
  Qfloor x <= round_half_even x <= Qfloor x + 1.
Proof.
  unfold round_half_even. destruct x as [n d]. cbn [Qfloor Qnum Qden].
  destruct (2 * (n mod Zpos d) <? Zpos d); [lia|].
  destruct (Zpos d <? 2 * (n mod Zpos d)); [lia|].
  destruct (Z.even (n / Zpos d)); lia.
Qed.

Lemma scaled_threshold_le v : (alpha <= v)%Q -> (inject_Z 50 <= v * inject_Z (10 ^ 3))%Q.
Proof.
  unfold alpha, Qle. destruct v as [n d]. cbn. intros H.
  rewrite Pos.mul_1_r. lia.
Qed.

Lemma scaled_threshold_lt v : (v < alpha)%Q -> (v * inject_Z (10 ^ 3) < inject_Z 50)%Q.
Proof.
  unfold alpha, Qlt. destruct v as [n d]. cbn. intros H.
  rewrite Pos.mul_1_r. lia.
Qed.

Lemma unscaled_lt (r : Z) : (inject_Z r / inject_Z (10 ^ 3) < alpha)%Q <-> r < 50.
Proof. unfold alpha, Qlt. cbn. lia. Qed.

Lemma unscaled_le (r : Z) : (inject_Z r / inject_Z (10 ^ 3) <= alpha)%Q <-> r <= 50.
Proof. unfold alpha, Qle. cbn. lia. Qed.

(** A p-value reported below 0.05 was below 0.05 before rounding. *)
Lemma round_below_alpha v : (Num.round v 3 < alpha)%Q -> (v < alpha)%Q.
Proof.
  unfold Num.round. cbv zeta. change (Z.of_nat 3) with 3. rewrite unscaled_lt.
  intros Hr. destruct (Qlt_le_dec v alpha) as [|Hle]; auto.
  apply scaled_threshold_le, Qfloor_resp_le in Hle. rewrite Qfloor_Z in Hle.
  pose proof (round_half_even_floor (v * inject_Z (10 ^ 3))). lia.
Qed.

(** A p-value below 0.05 is reported as 0.05 at most. *)
Lemma below_alpha_round v : (v < alpha)%Q -> (Num.round v 3 <= alpha)%Q.
Proof.
  unfold Num.round. cbv zeta. change (Z.of_nat 3) with 3. rewrite unscaled_le.
  intros Hv. apply scaled_threshold_lt in Hv.
  pose proof (Qfloor_le (v * inject_Z (10 ^ 3))) as Hfl.
  assert (Qfloor (v * inject_Z (10 ^ 3)) < 50).
  { rewrite Zlt_Qlt. eapply Qle_lt_trans; eauto. }
  pose proof (round_half_even_floor (v * inject_Z (10 ^ 3))). lia.
Qed.

Lemma lt_alpha_spec p : lt p (Some alpha) = true <-> exists v, p = Some v /\ (v < alpha)%Q.
Proof.
  destruct p as [v|]; simpl.
  - unfold Qltb. rewrite negb_true_iff. split.
    + intros H. exists v. split; auto.
      destruct (Qlt_le_dec v alpha) as [|Hle]; auto.
      apply Qle_bool_iff in Hle. congruence.
    + intros [w [E Hw]]. injection E as <-.
      destruct (Qle_bool alpha v) eqn:E; auto.
      apply Qle_bool_iff in E. exfalso. eapply Qlt_not_le; eauto.
  - split; [discriminate|]. intros [v [E _]]. discriminate E.
Qed.

Variable f_oneway : list (list num) -> option (num * num).
Variable corr : list (list num) -> list (list num).

(** C6, as the code has it: for each of the three metrics the entry is built
    from the outcome of the F-test over the channel groups; [significant] is
    true exactly when the p-value of the test, before rounding, is below
    0.05, and the reported [p_value] is that p-value rounded to three
    decimals.  So a reported p-value below 0.05 comes with [significant]
    true, and [significant] true comes with a reported p-value of 0.05 at
    most. *)
Theorem anova_significant_iff_raw_p df results :
  perform_statistical_analysis f_oneway corr df = Some results ->
  Forall2 (fun metric entry =>
             fst entry = (num_name metric ++ "_anova")%string /\
             exists f p,
               f_oneway (channel_groups (num_get metric) df) = Some (f, p) /\
               p_value (snd entry) = round_num p 3 /\
               (significant (snd entry) = true <->
                exists v, p = Some v /\ (v < alpha)%Q) /\
               (forall w, p_value (snd entry) = Some w -> (w < alpha)%Q ->
                          significant (snd entry) = true) /\
               (significant (snd entry) = true ->
                exists w, p_value (snd entry) = Some w /\ (w <= alpha)%Q))
          [Conversion_Rate_col; ROI_col; Engagement_Score_col]
          (anovas results).
Proof.
  unfold perform_statistical_analysis.
  destruct (traverse _ _) as [entries|] eqn:E; [|discriminate].
  intros H. injection H as <-. cbn [anovas].
  apply traverse_some in E.
  eapply Forall2_impl; [|exact E].
  intros metric [name a] Ha. unfold anova_for in Ha.
  destruct (f_oneway _) as [[f p]|] eqn:Ef; [|discriminate Ha].
  injection Ha as <- <-. cbn [fst snd].
  split; [reflexivity|]. exists f, p. split; [reflexivity|].
  unfold anova_entry. cbn [p_value significant].
  split; [reflexivity|]. split; [apply lt_alpha_spec|]. split.
  - intros w Hw Hlt. apply lt_alpha_spec.
    destruct p as [v|]; [|discriminate Hw].
    injection Hw as <-. exists v. split; auto. now apply round_below_alpha.
  - intros Hs. apply lt_alpha_spec in Hs as [v [-> Hv]].
    exists (Num.round v 3). split; [reflexivity|]. now apply below_alpha_round.
Qed.

End Significance.

Lemma anova_significant_iff_raw_p_witness :
  exists results,
    ChannelAnalyzer.perform_statistical_analysis Samples.borderline_f_oneway
      Samples.no_corr Samples.season = Some results /\
    List.length (ChannelAnalyzer.anovas results) = 3%nat.
Proof.
  destruct (ChannelAnalyzer.perform_statistical_analysis Samples.borderline_f_oneway
              Samples.no_corr Samples.season) as [results|] eqn:E.
  - exists results. split; [reflexivity|].
    pose proof (anova_significant_iff_raw_p _ _ _ _ E) as H.
    apply Forall2_length in H. symmetry. exact H.
  - vm_compute in E. discriminate E.
Defined.

(** C6, as the specification words it, fails: a p-value of 0.0496 is flagged
    significant and reported as 0.05, which is not below 0.05. *)
Lemma significant_with_reported_p_at_alpha :
  ~ (forall f p,
       ChannelAnalyzer.significant (ChannelAnalyzer.anova_entry f p) = true <->
       lt (ChannelAnalyzer.p_value (ChannelAnalyzer.anova_entry f p))
          (Some ChannelAnalyzer.alpha) = true).
Proof.
  intros H. specialize (H (Some (42 # 10)) (Some (496 # 10000))).
  destruct H as [H _]. specialize (H eq_refl). vm_compute in H. discriminate H.
Qed.

(* ------------------------------------------------------------------------- *)
(** ** Channels: the recommendation rules *)

Section Recommendations.

Import ChannelAnalyzer.

Ltac templates_differ :=
  match goal with
  | H : _ = _ :> string |- _ =>
    unfold high_roi, low_roi, low_conversion, high_cost, low_engagement,
      low_engagement_rate in H;
    cbn [append] in H; discriminate H
  end.

(** The list for one channel, for any outcome of the five comparisons. *)
Lemma advisories (above_roi below_rate above_cost below_score below_er : bool)
      (a1 a2 a3 a4 a5 : num) :
  let recs :=
    [if above_roi then high_roi a1 else low_roi a1]
    ++ (if below_rate then [low_conversion a2] else [])
    ++ (if above_cost then [high_cost a3] else [])
    ++ (if below_score then [low_engagement a4] else [])
    ++ (if below_er then [low_engagement_rate a5] else []) in
  (In (low_conversion a2) recs <-> below_rate = true) /\
  (In (high_cost a3) recs <-> above_cost = true) /\
  (In (low_engagement a4) recs <-> below_score = true) /\
  (In (low_engagement_rate a5) recs <-> below_er = true) /\
  List.length recs =
    (1 + issued below_rate + issued above_cost + issued below_score + issued below_er)%nat.
Proof.
  cbv zeta.
  destruct above_roi, below_rate, above_cost, below_score, below_er;
    cbn [app In List.length issued Nat.add];
    (split; [|split; [|split; [|split]]]); try reflexivity;
    split; intros H;
    first [ reflexivity
          | discriminate H
          | solve [repeat (destruct H as [H|H]; [templates_differ|]); destruct H]
          | auto 10 ].
Qed.

(** C9, as the code has it: every channel of the frame gets a list of
    advisory strings.  The list opens with the ROI advisory, "increase
    budget" when the channel's mean ROI is above the overall mean and
    "review strategy" otherwise.  Each of the four other comparisons adds its
    advisory only when the channel does worse than the overall mean
    (conversion rate below, acquisition cost above, engagement score below,
    engagement rate below) and adds nothing otherwise: between one and five
    strings in all. *)
Theorem channel_recommendation_rules df channel recs :
  In (channel, recs) (calculate_channel_recommendations df) ->
  let avg (metric : Row -> num) := mean (column metric (channel_data df channel)) in
  let overall (metric : Row -> num) := mean (column metric df) in
  In channel (unique (column Channel_Used df)) /\
  hd_error recs =
    Some (if gt (avg ROI) (overall ROI) then high_roi (avg ROI) else low_roi (avg ROI)) /\
  (In (low_conversion (avg Conversion_Rate)) recs <->
   lt (avg Conversion_Rate) (overall Conversion_Rate) = true) /\
  (In (high_cost (avg cost)) recs <-> gt (avg cost) (overall cost) = true) /\
  (In (low_engagement (avg Engagement_Score)) recs <->
   lt (avg Engagement_Score) (overall Engagement_Score) = true) /\
  (In (low_engagement_rate (avg Engagement_Rate)) recs <->
   lt (avg Engagement_Rate) (overall Engagement_Rate) = true) /\
  List.length recs =
    (1 + issued (lt (avg Conversion_Rate) (overall Conversion_Rate))
       + issued (gt (avg cost) (overall cost))
       + issued (lt (avg Engagement_Score) (overall Engagement_Score))
       + issued (lt (avg Engagement_Rate) (overall Engagement_Rate)))%nat /\
  (1 <= List.length recs <= 5)%nat.
Proof.
  intros H. cbv zeta.
  unfold calculate_channel_recommendations in H.
  apply in_map_iff in H as [ch [E Hch]]. injection E as <- <-.
  set (avg := fun metric : Row -> num => mean (column metric (channel_data df ch))).
  set (overall := fun metric : Row -> num => mean (column metric df)).
  split; [exact Hch|]. split; [reflexivity|].
  pose proof (advisories (gt (avg ROI) (overall ROI))
                (lt (avg Conversion_Rate) (overall Conversion_Rate))
                (gt (avg cost) (overall cost))
                (lt (avg Engagement_Score) (overall Engagement_Score))
                (lt (avg Engagement_Rate) (overall Engagement_Rate))
                (avg ROI) (avg Conversion_Rate) (avg cost) (avg Engagement_Score)
                (avg Engagement_Rate)) as (H1 & H2 & H3 & H4 & H5).
  split; [exact H1|]. split; [exact H2|]. split; [exact H3|]. split; [exact H4|].
  split; [exact H5|].
  assert (Hlen : List.length (recommend df ch) =
                 (1 + issued (lt (avg Conversion_Rate) (overall Conversion_Rate))
                    + issued (gt (avg cost) (overall cost))
                    + issued (lt (avg Engagement_Score) (overall Engagement_Score))
                    + issued (lt (avg Engagement_Rate) (overall Engagement_Rate)))%nat)
    by exact H5.
  rewrite Hlen. unfold issued.
  destruct (lt (avg Conversion_Rate) _), (gt (avg cost) _),
    (lt (avg Engagement_Score) _), (lt (avg Engagement_Rate) _); lia.
Qed.

End Recommendations.

Lemma channel_recommendation_rules_witness :
  In (Some "YouTube"%string,
      ["Below average ROI (ROI: 5.58). Review campaign strategy and targeting.";
       "Below average conversion rate (4.50%). Review targeting and creative strategy.";
       "High acquisition cost ($16313.00). Optimize bidding strategy and targeting.";
       "Low engagement score (2.00). Improve content quality and engagement factors.";
       "Low engagement rate (2.18%). Review content strategy and audience targeting."
      ]%string)
     (ChannelAnalyzer.calculate_channel_recommendations Samples.two_channels) /\
  In (Some "YouTube"%string) (unique (column Channel_Used Samples.two_channels)).
Proof.
  assert (H : In (Some "YouTube"%string,
      ["Below average ROI (ROI: 5.58). Review campaign strategy and targeting.";
       "Below average conversion rate (4.50%). Review targeting and creative strategy.";
       "High acquisition cost ($16313.00). Optimize bidding strategy and targeting.";
       "Low engagement score (2.00). Improve content quality and engagement factors.";
       "Low engagement rate (2.18%). Review content strategy and audience targeting."
      ]%string)
     (ChannelAnalyzer.calculate_channel_recommendations Samples.two_channels)).
  { vm_compute. right. left. reflexivity. }
  split; [exact H|].
  exact (proj1 (channel_recommendation_rules _ _ _ H)).
Defined.

(** C9, as the specification words it, fails: a channel that does better
    than the overall mean on every metric gets the ROI advisory and nothing
    else, not one string for each of the five comparisons. *)
Lemma one_advisory_for_the_best_channel :
  In (Some "Google Ads"%string,
      ["High ROI performer (ROI: 6.84). Consider increasing budget allocation."%string])
     (ChannelAnalyzer.calculate_channel_recommendations Samples.two_channels) /\
  ~ (forall df channel recs,
       In (channel, recs) (ChannelAnalyzer.calculate_channel_recommendations df) ->
       List.length recs = 5%nat).
Proof.
  assert (H : In (Some "Google Ads"%string,
      ["High ROI performer (ROI: 6.84). Consider increasing budget allocation."%string])
     (ChannelAnalyzer.calculate_channel_recommendations Samples.two_channels)).
  { vm_compute. left. reflexivity. }
  split; [exact H|].
  intros Hall. apply Hall in H. discriminate H.
Qed.

(* ------------------------------------------------------------------------- *)
(** ** The sample file through Loader and Cleaner *)

Example sample_pipeline :
  exists raw df cleaned summary,
    MarketingDataLoader.load_data Samples.iso_date Samples.no_epoch_dates Samples.disk
      "data/raw/marketing_campaign_dataset.csv" = Some raw /\
    Typed.records raw = Some df /\
    MarketingDataCleaner.clean_data df = Some (cleaned, summary) /\
    MarketingDataCleaner.rows_removed summary = 0%nat /\
    column Campaign_Duration cleaned = [Some 30; Some 60; Some 30; Some 60; Some 15]%Q /\
    column Duration_Category cleaned =
      [Some Medium; Some Long; Some Medium; Some Long; Some Medium] /\
    column Engagement_Category cleaned =
      [Some Medium_engagement; Some High; Some Low; Some High; Some Low] /\
    column Month cleaned = [Some 1; Some 1; Some 1; Some 1; Some 1] /\
    Forall within_ranges cleaned.
Proof.
  eexists _, _, _, _.
  split; [vm_compute; reflexivity|].
  split; [vm_compute; reflexivity|].
  split; [vm_compute; reflexivity|].
  repeat (split; [reflexivity|]).
  repeat constructor; vm_compute; discriminate.
Qed.

(** The scenarios of the specification: a duration of "30 days" is 30 days
    and Medium; an engagement score of 8 is High. *)
Example duration_30_days :
  let d := MarketingDataCleaner.campaign_duration true (CStr "30 days") in
  d = Some 30%Q /\ MarketingDataCleaner.cut_duration d = Some Medium.
Proof. split; reflexivity. Qed.

Example engagement_8 : MarketingDataCleaner.cut_engagement (Some 8%Q) = Some High.
Proof. reflexivity. Qed.

(* ========================================================================= *)
(** * Further properties of the code *)

(* ------------------------------------------------------------------------- *)
(** ** The Loader: what it returns, and when *)

Section LoaderOutcome.

Import MarketingDataLoader.

Variable datetime_of_string : string -> option Timestamp.
Variable datetime_of_number : Q -> option Timestamp.
Variable read_csv : string -> option RawFrame.

Local Abbreviation to_datetime' := (to_datetime datetime_of_string datetime_of_number).
Local Abbreviation validate_data' := (validate_data datetime_of_string datetime_of_number).
Local Abbreviation load_data' := (load_data datetime_of_string datetime_of_number read_csv).
Local Abbreviation converted' := (converted datetime_of_string datetime_of_number).

Lemma traverse_ext_in {A B} (f g : A -> option B) l :
  (forall x, In x l -> f x = g x) -> traverse f l = traverse g l.
Proof.
  induction l as [|a l IH]; simpl; intros H; auto.
  rewrite (H a) by auto. rewrite IH by auto. reflexivity.
Qed.

Lemma validate_data_outcome df :
  missing_cols df = [] ->
  fst (validate_data' df) = negb (isnull (converted' df)) /\
  (forall out, converted' df = Some out -> validate_data' df = (true, out)).
Proof.
  intros Hmiss. unfold validate_data, converted. rewrite Hmiss.
  rewrite convert_types_steps.
  destruct (getitem "Date" df) as [d|] eqn:Hd; [|split; [reflexivity|discriminate]].
  destruct (to_datetime' d) as [d'|] eqn:Hd'; [|split; [reflexivity|discriminate]].
  cbv zeta.
  rewrite (traverse_ext_in (converted_column (setitem "Date" d' df))
             (converted_column df)).
  2:{ intros c Hc. unfold converted_column.
      destruct (numeric_cols_not_special c Hc) as [Hdate _].
      rewrite getitem_setitem_other by congruence. reflexivity. }
  destruct (traverse _ numeric_cols) as [nums|] eqn:Hnums;
    [|split; [reflexivity|discriminate]].
  pose proof (converted_columns_names _ _ _ Hnums) as Hnames.
  assert (Hcost : getitem "Acquisition_Cost"
                    (fold_left store nums (setitem "Date" d' df))
                  = getitem "Acquisition_Cost" df).
  { rewrite (fold_store_other datetime_of_string read_csv).
    - apply getitem_setitem_other. discriminate.
    - rewrite Hnames. unfold numeric_cols. simpl. intuition discriminate. }
  destruct (no_missing_cols df "Acquisition_Cost" Hmiss) as [c Hc].
  { unfold required_columns. simpl. tauto. }
  rewrite Hcost, Hc.
  rewrite (getitem_mem_columns "Acquisition_Cost" _ c) by (rewrite Hcost; exact Hc).
  destruct (currency_to_float c) as [c'|]; split; try reflexivity; try discriminate.
  intros out E. injection E as <-. reflexivity.
Qed.

Lemma load_data_unfolded path :
  load_data' path =
  match read_csv path with
  | None => None
  | Some df =>
    match missing_cols df with
    | [] => converted' df
    | _ :: _ => None
    end
  end.
Proof.
  unfold load_data. destruct (read_csv path) as [df|]; [|reflexivity].
  destruct (missing_cols df) as [|c cs] eqn:Hmiss.
  - destruct (validate_data_outcome df Hmiss) as [Hfst Hout].
    destruct (converted' df) as [out|] eqn:E.
    + rewrite (Hout out eq_refl). reflexivity.
    + destruct (validate_data' df) as [ok df']. simpl in Hfst. subst ok. reflexivity.
  - unfold validate_data. rewrite Hmiss. reflexivity.
Qed.

(** X1: [load_data] returns the frame in which the dates, the five numeric
    columns and the cost are converted, each from the column as it was read,
    when the file can be read, no required column is missing and all three
    conversions go through; in every other case it returns [None]. *)
Theorem load_data_outcome path :
  load_data' path =
  match read_csv path with
  | None => None
  | Some df =>
    match missing_cols df with
    | [] => converted' df
    | _ :: _ => None
    end
  end.
Proof.
  unfold load_data. destruct (read_csv path) as [df|]; [|reflexivity].
  destruct (missing_cols df) as [|c cs] eqn:Hmiss.
  - destruct (validate_data_outcome df Hmiss) as [Hfst Hout].
    destruct (converted' df) as [out|] eqn:E.
    + rewrite (Hout out eq_refl). reflexivity.
    + destruct (validate_data' df) as [ok df']. simpl in Hfst. subst ok. reflexivity.
  - unfold validate_data. rewrite Hmiss. reflexivity.
Qed.

Lemma not_text_no_accessor (col : Series) c :
  Forall (fun x => is_str x = false) (c :: col) -> currency_to_float (c :: col) = None.
Proof.
  intros H. unfold currency_to_float, str_strip_currency, dtype_object.
  destruct (existsb is_str (c :: col)) eqn:E; [|reflexivity].
  apply existsb_exists in E as [x [Hin Hx]].
  rewrite Forall_forall in H. rewrite (H x Hin) in Hx. discriminate Hx.
Qed.

(** X2: a file whose [Acquisition_Cost] column holds no text, only numbers
    or empty cells, does not load: the currency clean-up goes through the
    [.str] accessor, which raises on a column that is not text. *)
Theorem load_data_rejects_numeric_cost path df c col :
  read_csv path = Some df ->
  getitem "Acquisition_Cost" df = Some (c :: col) ->
  Forall (fun x => is_str x = false) (c :: col) ->
  load_data' path = None.
Proof.
  intros Hread Hcost Hnum. rewrite load_data_unfolded, Hread.
  destruct (missing_cols df); [|reflexivity].
  unfold converted. rewrite Hcost, (not_text_no_accessor _ _ Hnum).
  destruct (getitem "Date" df) as [d|]; [|reflexivity].
  destruct (to_datetime' d); [|reflexivity].
  destruct (traverse _ numeric_cols); reflexivity.
Qed.

Lemma astype_float_no_text s s' :
  astype_float s = Some s' -> Forall (fun x => is_str x = false) s'.
Proof.
  unfold astype_float. intros H. apply traverse_some in H.
  induction H as [|x y l l' Hxy _ IH]; constructor; auto.
  destruct x as [|q|txt|t]; simpl in Hxy;
    try (injection Hxy as <-; reflexivity); try discriminate Hxy.
  destruct (Str.float_of_string txt); simpl in Hxy; [|discriminate Hxy].
  injection Hxy as <-. reflexivity.
Qed.

(** X3: validation cannot be repeated.  A frame that [load_data] returned,
    if it has a row, fails [validate_data]: its cost column is float by then
    and the currency clean-up raises on it. *)
Theorem validated_frame_fails_validation path out c col :
  load_data' path = Some out ->
  getitem "Acquisition_Cost" out = Some (c :: col) ->
  fst (validate_data' out) = false.
Proof.
  rewrite load_data_unfolded. intros Hload Hcost.
  destruct (read_csv path) as [df|]; [|discriminate Hload].
  destruct (missing_cols df); [|discriminate Hload].
  unfold converted in Hload.
  destruct (getitem "Date" df) as [d|]; [|discriminate Hload].
  destruct (to_datetime' d) as [d'|]; [|discriminate Hload].
  destruct (traverse _ numeric_cols) as [nums|]; [|discriminate Hload].
  destruct (getitem "Acquisition_Cost" df) as [c0|]; [|discriminate Hload].
  unfold currency_to_float in Hload.
  destruct (str_strip_currency c0) as [stripped|]; [|discriminate Hload].
  destruct (astype_float stripped) as [c'|] eqn:Ec'; [|discriminate Hload].
  injection Hload as <-.
  rewrite getitem_setitem_same in Hcost. injection Hcost as ->.
  apply astype_float_no_text in Ec'.
  set (out := setitem _ _ _).
  assert (Hout : getitem "Acquisition_Cost" out = Some (c :: col))
    by apply getitem_setitem_same.
  destruct (missing_cols out) eqn:Hmiss.
  - destruct (validate_data_outcome out Hmiss) as [-> _].
    unfold converted. rewrite Hout, (not_text_no_accessor _ _ Ec').
    destruct (getitem "Date" out) as [x|]; [|reflexivity].
    destruct (to_datetime' x); [|reflexivity].
    destruct (traverse _ numeric_cols); reflexivity.
  - unfold validate_data. rewrite Hmiss. reflexivity.
Qed.

End LoaderOutcome.

Lemma load_data_rejects_numeric_cost_witness :
  MarketingDataLoader.load_data Samples.iso_date Samples.no_epoch_dates
    bare_cost_disk "data/raw/bare_costs.csv" = None.
Proof.
  apply (load_data_rejects_numeric_cost Samples.iso_date Samples.no_epoch_dates
           bare_cost_disk "data/raw/bare_costs.csv" bare_cost_csv
           (CNum 16174) [CNum 11566; CNum 10200; CNum 12724; CNum 16452]).
  - reflexivity.
  - reflexivity.
  - repeat constructor.
Defined.

Lemma validated_frame_fails_validation_witness :
  exists out,
    MarketingDataLoader.load_data Samples.iso_date Samples.no_epoch_dates Samples.disk
      "data/raw/marketing_campaign_dataset.csv" = Some out /\
    fst (MarketingDataLoader.validate_data Samples.iso_date Samples.no_epoch_dates out)
      = false.
Proof.
  destruct (MarketingDataLoader.load_data Samples.iso_date Samples.no_epoch_dates
              Samples.disk "data/raw/marketing_campaign_dataset.csv") as [out|] eqn:E.
  - exists out. split; [reflexivity|].
    apply (validated_frame_fails_validation Samples.iso_date Samples.no_epoch_dates
             Samples.disk "data/raw/marketing_campaign_dataset.csv" out
             (CNum (1617400 # 100))
             [CNum (1156600 # 100); CNum (1020000 # 100); CNum (1272400 # 100);
              CNum (1645200 # 100)] E).
    vm_compute in E. injection E as <-. reflexivity.
  - vm_compute in E. discriminate E.
Defined.

(* ------------------------------------------------------------------------- *)
(** ** The Cleaner: which rows stay, what they keep *)

Section CleanerRows.

Import MarketingDataCleaner.

Lemma drop_duplicates_first seen df r :
  In r (drop_duplicates seen df) <->
  exists l1 l2, df = l1 ++ r :: l2 /\
                ~ In (Campaign_ID r) seen /\ ~ In (Campaign_ID r) (ids l1).
Proof.
  revert seen. induction df as [|r0 df IH]; intros seen; simpl.
  - split; [intros [] | intros (l1 & l2 & E & _)]. destruct l1; discriminate E.
  - destruct (existsb (Z.eqb (Campaign_ID r0)) seen) eqn:E.
    + apply seen_spec in E. rewrite IH. split.
      * intros (l1 & l2 & -> & Hs & Hl). exists (r0 :: l1), l2.
        split; [reflexivity|]. split; [exact Hs|].
        rewrite ids_cons. intros [Heq|Hin]; [|exact (Hl Hin)].
        apply Hs. rewrite <- Heq. exact E.
      * intros (l1 & l2 & Hdf & Hs & Hl). destruct l1 as [|x l1].
        -- injection Hdf as -> _. contradiction.
        -- injection Hdf as -> ->. exists l1, l2. split; [reflexivity|].
           split; [exact Hs|]. intros Hin. apply Hl. rewrite ids_cons. right. exact Hin.
    + assert (Hfresh : ~ In (Campaign_ID r0) seen).
      { intros Hin. apply seen_spec in Hin. rewrite Hin in E. discriminate E. }
      simpl. rewrite IH. split.
      * intros [->|(l1 & l2 & -> & Hs & Hl)].
        -- exists [], df. split; [reflexivity|]. split; [exact Hfresh|]. intros [].
        -- exists (r0 :: l1), l2. split; [reflexivity|].
           split; [intros Hin; apply Hs; right; exact Hin|].
           rewrite ids_cons. intros [Heq|Hin]; [|exact (Hl Hin)].
           apply Hs. left. exact Heq.
      * intros (l1 & l2 & Hdf & Hs & Hl). destruct l1 as [|x l1].
        -- injection Hdf as -> _. left. reflexivity.
        -- injection Hdf as -> ->. right. exists l1, l2. split; [reflexivity|].
           split.
           ++ intros [Heq|Hin]; [|exact (Hs Hin)].
              apply Hl. rewrite ids_cons. left. exact Heq.
           ++ intros Hin. apply Hl. rewrite ids_cons. right. exact Hin.
Qed.

(** X4: [remove_duplicates] keeps exactly the first record of every
    [Campaign_ID]: a record stays if and only if no record above it in the
    frame has its key. *)
Theorem remove_duplicates_keeps_first df r :
  In r (remove_duplicates df) <->
  exists l1 l2, df = l1 ++ r :: l2 /\ ~ In (Campaign_ID r) (ids l1).
Proof.
  unfold remove_duplicates. rewrite drop_duplicates_first. split.
  - intros (l1 & l2 & E & _ & H). exists l1, l2. split; assumption.
  - intros (l1 & l2 & E & H). exists l1, l2. split; [exact E|]. split; [intros []|exact H].
Qed.

Lemma drop_duplicates_ids seen df i :
  In i (ids (drop_duplicates seen df)) <-> In i (ids df) /\ ~ In i seen.
Proof.
  revert seen. induction df as [|r df IH]; intros seen; cbn [drop_duplicates].
  - split; [intros [] | intros [[] _]].
  - rewrite (ids_cons r df).
    destruct (existsb (Z.eqb (Campaign_ID r)) seen) eqn:E.
    + apply seen_spec in E. rewrite IH. split.
      * intros [H1 H2]. split; [right; exact H1 | exact H2].
      * intros [[Heq|H1] H2]; [|split; assumption].
        exfalso. apply H2. rewrite <- Heq. exact E.
    + assert (Hfresh : ~ In (Campaign_ID r) seen).
      { intros Hin. apply seen_spec in Hin. rewrite Hin in E. discriminate E. }
      rewrite ids_cons. cbn [In]. rewrite IH. split.
      * intros [Heq|[H1 H2]].
        -- split; [left; exact Heq|]. rewrite <- Heq. exact Hfresh.
        -- split; [right; exact H1|]. intros Hin. apply H2. right. exact Hin.
      * intros [[Heq|H1] H2]; [left; exact Heq|].
        destruct (Z.eq_dec (Campaign_ID r) i) as [Heq|Hne]; [left; exact Heq|].
        right. split; [exact H1|]. intros [Heq|Hin]; [exact (Hne Heq)|exact (H2 Hin)].
Qed.

Lemma drop_duplicates_shorter seen df :
  (List.length (drop_duplicates seen df) <= List.length df)%nat.
Proof.
  revert seen. induction df as [|r df IH]; intros seen; simpl; [lia|].
  destruct (existsb _ seen); simpl.
  - specialize (IH seen). lia.
  - specialize (IH (Campaign_ID r :: seen)). lia.
Qed.

(** X5: the summary of [clean_data] adds up: the rows removed and the rows
    left make the rows received.  The frame returned has one record for each
    [Campaign_ID] of the input and no key twice. *)
Theorem clean_data_accounting df out s :
  clean_data df = Some (out, s) ->
  initial_rows s = List.length df /\
  (final_rows s + rows_removed s = initial_rows s)%nat /\
  final_rows s = List.length out /\
  NoDup (ids out) /\
  (forall i, In i (ids out) <-> In i (ids df)).
Proof.
  intros H. pose proof (ids_clean_data _ _ _ H) as Hids.
  destruct (clean_data_steps _ _ _ H) as (d & _ & _ & Hi & Hf & Hr).
  assert (Hlen : (List.length out <= List.length df)%nat).
  { rewrite (ids_length _ _ Hids). unfold imputed, remove_duplicates.
    rewrite <- (ids_length _ _ (ids_handle_missing_values df)).
    apply drop_duplicates_shorter. }
  assert (Hkeys : ids (imputed df) = ids (remove_duplicates df)).
  { unfold imputed, remove_duplicates.
    exact (proj1 (drop_duplicates_keys [] _ _ (ids_handle_missing_values df))). }
  split; [exact Hi|]. split; [rewrite Hf, Hr, Hi; lia|]. split; [exact Hf|].
  rewrite Hids, Hkeys. unfold remove_duplicates. split.
  - apply drop_duplicates_nodup.
  - intros i. rewrite drop_duplicates_ids. split; [intros [H1 _]; exact H1|].
    intros H1. split; [exact H1 | intros []].
Qed.

(** De-duplication selects rows by their keys: two frames with the same keys
    lose the same rows. *)
Lemma drop_duplicates_column {A B} (g : Row -> A) (g' : Row -> B) (h : A -> B)
      seen df df' :
  ids df = ids df' ->
  column g' df' = map h (column g df) ->
  column g' (drop_duplicates seen df') = map h (column g (drop_duplicates seen df)).
Proof.
  revert seen df'. induction df as [|r df IH]; intros seen [|r' df'] Hids Hcol;
    try discriminate Hids; [reflexivity|].
  rewrite !ids_cons in Hids. injection Hids as Hid Hids.
  unfold column in Hcol. simpl in Hcol. injection Hcol as Hhead Hcol.
  simpl. rewrite <- Hid.
  destruct (existsb (Z.eqb (Campaign_ID r)) seen).
  - apply IH; assumption.
  - unfold column. simpl. rewrite Hhead. f_equal. apply IH; assumption.
Qed.

Lemma column_imputed {A} (g : Row -> A) (h : A -> A) df :
  column g (handle_missing_values df) = map h (column g df) ->
  column g (imputed df) = map h (column g (remove_duplicates df)).
Proof.
  intros H. unfold imputed, remove_duplicates.
  apply drop_duplicates_column; [|exact H].
  symmetry. apply ids_handle_missing_values.
Qed.

Lemma column_imputed_untouched {A} (g : Row -> A) df :
  column g (handle_missing_values df) = column g df ->
  column g (imputed df) = column g (remove_duplicates df).
Proof.
  intros H. rewrite (column_imputed g (fun x => x)).
  - apply map_id.
  - rewrite map_id. exact H.
Qed.

Lemma column_counts_repaired {A} (g : Row -> A) df :
  (forall v r, g (set_Clicks v r) = g r) ->
  (forall v r, g (set_Impressions v r) = g r) ->
  (forall v r, g (set_Engagement_Score v r) = g r) ->
  column g (counts_repaired df) = column g (normalize_categorical_values (imputed df)).
Proof.
  intros H1 H2 H3. unfold counts_repaired.
  rewrite (column_repair_negative_other g Engagement_Score_col) by exact H3.
  rewrite (column_repair_negative_other g Impressions_col) by exact H2.
  rewrite (column_repair_negative_other g Clicks_col) by exact H1.
  reflexivity.
Qed.

(** X6: the Cleaner leaves [Campaign_ID], [Company], [Duration] and [Date]
    of the records it keeps as they were, and [ROI] is only imputed: a
    missing ROI receives the median of the ROI column of the whole input,
    duplicates included, and no ROI is checked against a range. *)
Theorem clean_data_untouched df out s :
  clean_data df = Some (out, s) ->
  column Campaign_ID out = column Campaign_ID (remove_duplicates df) /\
  column Company out = column Company (remove_duplicates df) /\
  column Duration out = column Duration (remove_duplicates df) /\
  column Date out = column Date (remove_duplicates df) /\
  column ROI out =
    map (fillna (median (column ROI df))) (column ROI (remove_duplicates df)).
Proof.
  intros H. destruct (clean_data_steps _ _ _ H) as (d & Hd & -> & _).
  assert (Hsame : forall {A} (g : Row -> A),
             (forall v r, g (set_Acquisition_Cost v r) = g r) ->
             (forall v r, g (set_Clicks v r) = g r) ->
             (forall v r, g (set_Impressions v r) = g r) ->
             (forall v r, g (set_Engagement_Score v r) = g r) ->
             (forall v r, g (set_Conversion_Rate v r) = g r) ->
             (forall a b c d e f h r, g (set_derived a b c d e f h r) = g r) ->
             (forall v r, g (set_Campaign_Type v r) = g r) ->
             (forall v r, g (set_Channel_Used v r) = g r) ->
             (forall v r, g (set_Location v r) = g r) ->
             (forall v r, g (set_Customer_Segment v r) = g r) ->
             column g (create_derived_features (repair_conversion_rate d)) =
             column g (imputed df)).
  { intros A g H1 H2 H3 H4 H5 H6 H7 H8 H9 H10.
    rewrite column_derived_other by exact H6.
    rewrite column_repair_rate_other by exact H5.
    rewrite (column_cost_to_float_other g _ _ H1 Hd).
    rewrite column_counts_repaired by assumption.
    unfold normalize_categorical_values.
    rewrite (column_title_other g Customer_Segment_col) by exact H10.
    rewrite (column_title_other g Location_col) by exact H9.
    rewrite (column_title_other g Channel_Used_col) by exact H8.
    rewrite (column_title_other g Campaign_Type_col) by exact H7.
    reflexivity. }
  assert (Hraw : forall {A} (g : Row -> A),
             column g (handle_missing_values df) = column g df ->
             column g (imputed df) = column g (remove_duplicates df))
    by (intros A g; apply column_imputed_untouched).
  repeat split.
  - rewrite Hsame by lens. apply Hraw.
    unfold handle_missing_values, numeric_columns, categorical_columns.
    cbn [fold_left]. other_columns. reflexivity.
  - rewrite Hsame by lens. apply Hraw.
    unfold handle_missing_values, numeric_columns, categorical_columns.
    cbn [fold_left]. other_columns. reflexivity.
  - rewrite Hsame by lens. apply Hraw.
    unfold handle_missing_values, numeric_columns, categorical_columns.
    cbn [fold_left]. other_columns. reflexivity.
  - rewrite Hsame by lens. apply Hraw.
    unfold handle_missing_values, numeric_columns, categorical_columns.
    cbn [fold_left]. other_columns. reflexivity.
  - rewrite Hsame by lens.
    apply (column_imputed ROI (fillna (median (column ROI df)))).
    apply (column_handle_missing_values ROI_col).
    unfold numeric_columns. simpl. auto 6.
Qed.

End CleanerRows.

Lemma clean_data_accounting_witness :
  exists out s,
    MarketingDataCleaner.clean_data Samples.untidy = Some (out, s) /\
    MarketingDataCleaner.initial_rows s = 5%nat /\
    (MarketingDataCleaner.final_rows s + MarketingDataCleaner.rows_removed s = 5)%nat /\
    NoDup (ids out).
Proof.
  destruct (MarketingDataCleaner.clean_data Samples.untidy) as [[out s]|] eqn:E.
  - exists out, s. split; [reflexivity|].
    destruct (clean_data_accounting _ _ _ E) as (Hi & Hsum & _ & Hnd & _).
    rewrite Hsum, Hi. repeat split; try reflexivity. exact Hnd.
  - vm_compute in E. discriminate E.
Defined.

Lemma clean_data_untouched_witness :
  exists out s,
    MarketingDataCleaner.clean_data Samples.untidy = Some (out, s) /\
    column Campaign_ID out = [1; 2; 3; 4] /\
    column Date out =
      column Date (MarketingDataCleaner.remove_duplicates Samples.untidy).
Proof.
  destruct (MarketingDataCleaner.clean_data Samples.untidy) as [[out s]|] eqn:E.
  - exists out, s. split; [reflexivity|].
    destruct (clean_data_untouched _ _ _ E) as (Hid & _ & _ & Hdate & _).
    split; [rewrite Hid; reflexivity | exact Hdate].
  - vm_compute in E. discriminate E.
Defined.

(* ------------------------------------------------------------------------- *)
(** ** The Cleaner: when it raises, what it fills, what it leaves valid *)

Section CleanerCells.

Import MarketingDataCleaner.

Lemma parse_costs_none df :
  parse_costs df = None <->
  exists txt, In (CStr txt) (column Acquisition_Cost df) /\ Str.parse_currency txt = None.
Proof.
  induction df as [|r df IH]; simpl.
  - split; [discriminate | intros (txt & [] & _)].
  - destruct (cost_cell_to_float (Acquisition_Cost r)) as [c|] eqn:Ec.
    + destruct (parse_costs df) as [t|] eqn:Et; simpl.
      * split; [discriminate|]. intros (txt & [Hh|Ht] & Hp).
        -- rewrite Hh in Ec. simpl in Ec. rewrite Hp in Ec. discriminate Ec.
        -- assert (@None DataFrame = None) as _ by reflexivity.
           destruct IH as [_ IH]. discriminate IH. exists txt. split; assumption.
      * split; [|reflexivity]. intros _.
        destruct IH as [IH _]. destruct (IH eq_refl) as (txt & Hin & Hp).
        exists txt. split; [right; exact Hin | exact Hp].
    + split; [|reflexivity]. intros _.
      unfold cost_cell_to_float in Ec.
      destruct (Acquisition_Cost r) as [|q|txt|t] eqn:Ea; try discriminate Ec.
      exists txt. split; [left; reflexivity|].
      destruct (Str.parse_currency txt); [discriminate Ec | reflexivity].
Qed.

Lemma cost_to_float_none df :
  cost_to_float df = None <->
  exists txt, In (CStr txt) (column Acquisition_Cost df) /\ Str.parse_currency txt = None.
Proof.
  unfold cost_to_float. destruct (dtype_object _) eqn:E.
  - apply parse_costs_none.
  - split; [discriminate|]. intros (txt & Hin & _).
    apply not_object_floats in E. unfold floats_only in E.
    rewrite Forall_forall in E. specialize (E _ Hin). discriminate E.
Qed.

Lemma column_cost_kept df :
  column Acquisition_Cost (counts_repaired df) =
  column Acquisition_Cost (remove_duplicates df).
Proof.
  rewrite column_counts_repaired by lens.
  unfold normalize_categorical_values. other_columns.
  apply column_imputed_untouched.
  unfold handle_missing_values, numeric_columns, categorical_columns.
  cbn [fold_left]. other_columns. reflexivity.
Qed.

(** X7: [clean_data] raises in one case only: the cost of a record that
    survives de-duplication is a string that does not read as an amount.  A
    malformed cost in a duplicate that is dropped does no harm. *)
Theorem clean_data_raises df :
  clean_data df = None <->
  exists txt,
    In (CStr txt) (column Acquisition_Cost (remove_duplicates df)) /\
    Str.parse_currency txt = None.
Proof.
  rewrite clean_data_unfold, <- column_cost_kept, <- cost_to_float_none.
  destruct (cost_to_float (counts_repaired df)); split; intros H;
    try reflexivity; discriminate H.
Qed.

Lemma column_update_same_any {A} (g : Row -> A) (q : A -> bool) (m : A)
      (set : A -> Row -> Row) df :
  (forall v r, g (set v r) = v) ->
  column g (map (fun r => if q (g r) then set m r else r) df) =
  map (fun x => if q x then m else x) (column g df).
Proof.
  intros H. rewrite column_map. unfold column. rewrite map_map. apply map_ext.
  intros r. destruct (q (g r)); auto.
Qed.

Lemma column_fill_categorical_same c df :
  (forall v r, text_get c (text_set c v r) = v) ->
  column (text_get c) (fill_categorical c df) =
  map fill_unknown (column (text_get c) df).
Proof.
  intros H. rewrite fill_categorical_map.
  apply (column_update_same_any (text_get c) isnull _ (text_set c)). exact H.
Qed.

Lemma column_title_same c df :
  (forall v r, text_get c (text_set c v r) = v) ->
  column (text_get c) (title_column c df) =
  map (option_map title) (column (text_get c) df).
Proof.
  intros H. unfold title_column. rewrite column_map. unfold column.
  rewrite map_map. apply map_ext. intros r. apply H.
Qed.

Lemma column_text_handled c df :
  In c categorical_columns ->
  column (text_get c) (handle_missing_values df) =
  map fill_unknown (column (text_get c) df).
Proof.
  unfold handle_missing_values, numeric_columns, categorical_columns.
  cbn [fold_left In].
  intros H; repeat (destruct H as [<-|H]); [ | | | | | | destruct H];
    other_columns;
    (rewrite column_fill_categorical_same by lens); other_columns; reflexivity.
Qed.

Lemma column_text_out df out s c :
  clean_data df = Some (out, s) ->
  In c [Campaign_Type_col; Channel_Used_col; Location_col; Customer_Segment_col] ->
  column (text_get c) out =
  map (fun x => option_map title (fill_unknown x))
      (column (text_get c) (remove_duplicates df)).
Proof.
  intros H Hc. destruct (clean_data_steps _ _ _ H) as (d & Hd & -> & _).
  cbn [In] in Hc.
  repeat (destruct Hc as [<-|Hc]); [ | | | | destruct Hc];
    other_columns;
    (match goal with |- column ?g _ = _ =>
       rewrite (column_cost_to_float_other g _ _ ltac:(lens) Hd) end);
    (rewrite column_counts_repaired by lens);
    unfold normalize_categorical_values; other_columns;
    (rewrite column_title_same by lens); other_columns;
    (rewrite (column_imputed _ fill_unknown)
       by (apply column_text_handled; unfold categorical_columns; simpl; auto 7));
    rewrite map_map; reflexivity.
Qed.

Lemma column_text_plain df out s c :
  clean_data df = Some (out, s) ->
  In c [Target_Audience_col; Language_col] ->
  column (text_get c) out =
  map fill_unknown (column (text_get c) (remove_duplicates df)).
Proof.
  intros H Hc. destruct (clean_data_steps _ _ _ H) as (d & Hd & -> & _).
  cbn [In] in Hc.
  repeat (destruct Hc as [<-|Hc]); [ | | destruct Hc];
    other_columns;
    (match goal with |- column ?g _ = _ =>
       rewrite (column_cost_to_float_other g _ _ ltac:(lens) Hd) end);
    (rewrite column_counts_repaired by lens);
    unfold normalize_categorical_values; other_columns;
    (rewrite (column_imputed _ fill_unknown)
       by (apply column_text_handled; unfold categorical_columns; simpl; auto 7));
    reflexivity.
Qed.

(** X8: in the cleaned frame no categorical cell is missing.  A missing
    campaign type, channel, location or customer segment reads "Unknown" and
    the others are title-cased; a missing audience or language reads
    "Unknown" and the others are as they were. *)
Theorem clean_data_categories df out s :
  clean_data df = Some (out, s) ->
  (forall c, In c [Campaign_Type_col; Channel_Used_col; Location_col;
                   Customer_Segment_col] ->
     column (text_get c) out =
     map (fun x => option_map title (fill_unknown x))
         (column (text_get c) (remove_duplicates df))) /\
  (forall c, In c [Target_Audience_col; Language_col] ->
     column (text_get c) out =
     map fill_unknown (column (text_get c) (remove_duplicates df))) /\
  (forall c, In c categorical_columns ->
     Forall (fun x => x <> None) (column (text_get c) out)).
Proof.
  intros H. split; [|split].
  - intros c Hc. exact (column_text_out df out s c H Hc).
  - intros c Hc. exact (column_text_plain df out s c H Hc).
  - intros c Hc. unfold categorical_columns in Hc. cbn [In] in Hc.
    assert (Hcase : In c [Campaign_Type_col; Channel_Used_col; Location_col;
                          Customer_Segment_col] \/
                    In c [Target_Audience_col; Language_col]).
    { cbn [In]. destruct Hc as [Hc|[Hc|[Hc|[Hc|[Hc|[Hc|[]]]]]]]; auto 8. }
    destruct Hcase as [Hc'|Hc'].
    + rewrite (column_text_out df out s c H Hc'). apply Forall_forall.
      intros x Hx. apply in_map_iff in Hx as [y [<- _]].
      destruct y; discriminate.
    + rewrite (column_text_plain df out s c H Hc'). apply Forall_forall.
      intros x Hx. apply in_map_iff in Hx as [y [<- _]].
      destruct y; discriminate.
Qed.

End CleanerCells.

(* ------------------------------------------------------------------------- *)
(** ** The Cleaner on data that is already within its ranges *)

Section CleanerValid.

Import MarketingDataCleaner.

Lemma insert_sorted_in x y l : In y (insert_sorted x l) -> y = x \/ In y l.
Proof.
  induction l as [|z l IH]; simpl.
  - intros [H|[]]; auto.
  - destruct (Qle_bool x z); simpl.
    + intros [H|H]; auto.
    + intros [H|H]; auto. destruct (IH H); auto.
Qed.

Lemma sort_in y l : In y (Num.sort l) -> In y l.
Proof.
  induction l as [|x l IH]; simpl; [auto|].
  intros H. apply insert_sorted_in in H as [H|H]; auto.
Qed.

Lemma dropna_in {A} (v : A) col : In v (dropna col) <-> In (Some v) col.
Proof.
  unfold dropna. rewrite in_flat_map. split.
  - intros ([x|] & Hin & Hv); simpl in Hv; [|destruct Hv].
    destruct Hv as [<-|[]]. exact Hin.
  - intros H. exists (Some v). split; [exact H | left; reflexivity].
Qed.

Lemma in_bounds_mid u x y :
  in_bounds u x -> in_bounds u y -> in_bounds u ((x + y) / 2)%Q.
Proof.
  unfold in_bounds. intros [Hx Hx'] [Hy Hy']. split.
  - apply Qle_shift_div_l; lra.
  - destruct u as [u|]; [|exact I]. apply Qle_shift_div_r; lra.
Qed.

Lemma median_in_bounds u col m :
  (forall v, In (Some v) col -> in_bounds u v) ->
  median col = Some m -> in_bounds u m.
Proof.
  intros Hall. unfold median.
  assert (Hs : forall v, In v (Num.sort (dropna col)) -> in_bounds u v).
  { intros v Hv. apply Hall, dropna_in, sort_in, Hv. }
  revert Hs. generalize (Num.sort (dropna col)) as l. intros l Hs.
  destruct (List.length l) as [|n] eqn:En; [intros H; discriminate H|].
  assert (Hhalf : (S n / 2 < List.length l)%nat).
  { rewrite En. apply Nat.div_lt; lia. }
  set (k := (S n / 2)%nat) in *. clearbody k.
  destruct (Nat.odd (S n)); intros H; injection H as <-.
  - apply Hs, nth_In, Hhalf.
  - apply in_bounds_mid; apply Hs, nth_In; lia.
Qed.

Lemma in_bounds_not_repaired u m x :
  (forall v, x = Some v -> in_bounds u v) ->
  repair_negative_cell m x = x /\
  (u = Some 1%Q -> repair_rate_cell m x = x).
Proof.
  intros H. unfold repair_negative_cell, repair_rate_cell.
  destruct x as [v|]; [|split; reflexivity].
  destruct (H v eq_refl) as [H0 H1].
  assert (E0 : lt (Some v) zero = false).
  { unfold lt, zero, Qltb. apply negb_false_iff, Qle_bool_iff, H0. }
  rewrite E0. split; [reflexivity|]. intros ->.
  assert (E1 : gt (Some v) one = false).
  { unfold gt, lt, one, Qltb. apply negb_false_iff, Qle_bool_iff, H1. }
  rewrite E1. reflexivity.
Qed.

Lemma remove_duplicates_column_incl {A} (g : Row -> A) df x :
  In x (column g (remove_duplicates df)) -> In x (column g df).
Proof.
  unfold column. rewrite !in_map_iff. intros (r & <- & Hr).
  exists r. split; [reflexivity|].
  exact (drop_duplicates_incl [] df r Hr).
Qed.

Lemma column_imputed_filled c df :
  In c numeric_columns ->
  column (num_get c) (imputed df) =
  map (fillna (median (column (num_get c) df)))
      (column (num_get c) (remove_duplicates df)).
Proof.
  intros Hc. apply column_imputed, column_handle_missing_values, Hc.
Qed.

Lemma filled_in_bounds u c df x v :
  In c numeric_columns ->
  (forall w, In (Some w) (column (num_get c) df) -> in_bounds u w) ->
  In x (column (num_get c) (imputed df)) -> x = Some v -> in_bounds u v.
Proof.
  intros Hc Hall Hx ->. rewrite (column_imputed_filled c df Hc) in Hx.
  apply in_map_iff in Hx as (y & Hy & Hin).
  apply remove_duplicates_column_incl in Hin.
  unfold fillna in Hy. destruct y as [w|]; simpl in Hy.
  - injection Hy as ->. apply Hall, Hin.
  - apply (median_in_bounds u _ v Hall Hy).
Qed.

(** X9: a checked column (clicks, impressions, engagement score, conversion
    rate) whose present values are all within the range is left alone by the
    range repair: the cleaned column is the de-duplicated input with its
    missing cells filled by the median of the input column, and every value
    of it is within the range. *)
Theorem clean_data_keeps_valid df out s c u :
  clean_data df = Some (out, s) ->
  In (c, u) range_checks ->
  (forall v, In (Some v) (column (num_get c) df) -> in_bounds u v) ->
  column (num_get c) out =
    map (fillna (median (column (num_get c) df)))
        (column (num_get c) (remove_duplicates df)) /\
  (forall v, In (Some v) (column (num_get c) out) -> in_bounds u v).
Proof.
  intros H Hc Hall.
  assert (Hnum : In c numeric_columns).
  { unfold range_checks in Hc. unfold numeric_columns. cbn [In] in *.
    destruct Hc as [Hc|[Hc|[Hc|[Hc|[]]]]]; injection Hc as <- _; auto 6. }
  assert (Hsame : column (num_get c) out = column (num_get c) (imputed df)).
  { unfold range_checks in Hc. cbn [In] in Hc.
    assert (Hid : forall (g : num -> num),
               (forall x, In x (column (num_get c) (imputed df)) -> g x = x) ->
               map g (column (num_get c) (imputed df)) =
               column (num_get c) (imputed df)).
    { intros g Hg. rewrite <- (map_id (column (num_get c) (imputed df))) at 2.
      apply map_ext_in. exact Hg. }
    destruct Hc as [Hc|[Hc|[Hc|[Hc|[]]]]]; injection Hc as <- <-.
    - rewrite (column_counts df out s Clicks_col H) by (simpl; auto).
      apply Hid. intros x Hx.
      apply (in_bounds_not_repaired None).
      intros v. apply (filled_in_bounds None Clicks_col df x v Hnum Hall Hx).
    - rewrite (column_counts df out s Impressions_col H) by (simpl; auto).
      apply Hid. intros x Hx.
      apply (in_bounds_not_repaired None).
      intros v. apply (filled_in_bounds None Impressions_col df x v Hnum Hall Hx).
    - rewrite (column_counts df out s Engagement_Score_col H) by (simpl; auto).
      apply Hid. intros x Hx.
      apply (in_bounds_not_repaired None).
      intros v. apply (filled_in_bounds None Engagement_Score_col df x v Hnum Hall Hx).
    - change (num_get Conversion_Rate_col) with Conversion_Rate in *.
      rewrite (column_rate df out s H).
      apply Hid. intros x Hx.
      apply (in_bounds_not_repaired (Some 1%Q)); [|reflexivity].
      intros v. apply (filled_in_bounds (Some 1%Q) Conversion_Rate_col df x v Hnum Hall Hx). }
  split.
  - rewrite Hsame. apply column_imputed_filled, Hnum.
  - intros v Hv. rewrite Hsame in Hv.
    apply (filled_in_bounds u c df (Some v) v Hnum Hall Hv eq_refl).
Qed.

Lemma to_lower_cases a :
  (is_upper (to_lower a) || is_lower (to_lower a) = is_upper a || is_lower a) /\
  to_lower (to_lower a) = to_lower a /\
  to_upper (to_lower a) = to_upper a.
Proof.
  destruct a as [[] [] [] [] [] [] [] []]; repeat split; reflexivity.
Qed.

Lemma title_from_lowercase b txt :
  title_from b (lowercase txt) = title_from b txt.
Proof.
  revert b. induction txt as [|a t IH]; intros b; [reflexivity|].
  cbn [lowercase title_from].
  destruct (to_lower_cases a) as (-> & -> & ->).
  rewrite !IH.
  destruct (is_upper a || is_lower a) eqn:E; [reflexivity|].
  apply orb_false_elim in E as [E _].
  unfold to_lower. rewrite E. reflexivity.
Qed.

Lemma title_lowercase_eq x y :
  option_map lowercase x = option_map lowercase y ->
  option_map title x = option_map title y.
Proof.
  destruct x as [x|], y as [y|]; simpl; intros H; try discriminate H;
    [|reflexivity].
  injection H as H. unfold title.
  rewrite <- (title_from_lowercase false x), <- (title_from_lowercase false y), H.
  reflexivity.
Qed.

(** X10: in the four columns it normalises, [normalize_categorical_values]
    sees no difference between spellings that differ in letter case only:
    two frames whose column agrees after lowering every letter have the same
    normalised column. *)
Theorem normalize_merges_case c df df' :
  In c [Campaign_Type_col; Channel_Used_col; Location_col; Customer_Segment_col] ->
  map (option_map lowercase) (column (text_get c) df) =
  map (option_map lowercase) (column (text_get c) df') ->
  column (text_get c) (normalize_categorical_values df) =
  column (text_get c) (normalize_categorical_values df').
Proof.
  intros Hc Hlow.
  assert (Hn : forall d, column (text_get c) (normalize_categorical_values d) =
                         map (option_map title) (column (text_get c) d)).
  { intros d. unfold normalize_categorical_values. cbn [In] in Hc.
    destruct Hc as [<-|[<-|[<-|[<-|[]]]]];
      other_columns; (rewrite column_title_same by lens); other_columns;
      reflexivity. }
  rewrite !Hn. clear Hn Hc.
  revert Hlow. generalize (column (text_get c) df') as l'.
  generalize (column (text_get c) df) as l.
  induction l as [|x l IH]; intros [|y l'] H; simpl in *;
    try discriminate H; [reflexivity|].
  injection H as Hxy Hrest.
  rewrite (title_lowercase_eq x y Hxy), (IH l' Hrest). reflexivity.
Qed.

End CleanerValid.

Lemma clean_data_categories_witness :
  exists out s,
    MarketingDataCleaner.clean_data unlabelled = Some (out, s) /\
    column Channel_Used out = [Some "Unknown"; Some "Youtube"]%string.
Proof.
  destruct (MarketingDataCleaner.clean_data unlabelled) as [[out s]|] eqn:E.
  - exists out, s. split; [reflexivity|].
    destruct (clean_data_categories _ _ _ E) as (Htitled & _ & _).
    change (column Channel_Used out) with (column (text_get Channel_Used_col) out).
    rewrite (Htitled Channel_Used_col) by (simpl; auto).
    reflexivity.
  - vm_compute in E. discriminate E.
Defined.

Lemma clean_data_keeps_valid_witness :
  exists out s,
    MarketingDataCleaner.clean_data Samples.season = Some (out, s) /\
    column Conversion_Rate out = column Conversion_Rate Samples.season /\
    (forall v, In (Some v) (column Conversion_Rate out) -> in_bounds (Some 1%Q) v).
Proof.
  destruct (MarketingDataCleaner.clean_data Samples.season) as [[out s]|] eqn:E.
  - exists out, s. split; [reflexivity|].
    destruct (clean_data_keeps_valid _ _ _ Conversion_Rate_col (Some 1%Q) E)
      as [Hcol Hin].
    + simpl. auto.
    + intros v Hv. vm_compute in Hv.
      repeat (destruct Hv as [Hv|Hv];
              [injection Hv as <-; split; intros Hc; discriminate Hc|]).
      destruct Hv.
    + split; [etransitivity; [exact Hcol | reflexivity] | exact Hin].
  - vm_compute in E. discriminate E.
Defined.

Lemma normalize_merges_case_witness :
  column Channel_Used
    (MarketingDataCleaner.normalize_categorical_values
       (map (set_Channel_Used (Some "google ads"%string)) Samples.returning)) =
  column Channel_Used
    (MarketingDataCleaner.normalize_categorical_values
       (map (set_Channel_Used (Some "GOOGLE ADS"%string)) Samples.returning)).
Proof.
  apply (normalize_merges_case Channel_Used_col); [simpl; auto | reflexivity].
Defined.

(* ------------------------------------------------------------------------- *)
(** ** Cohorts: when the frame is built, and in which order *)

Section CohortFrame.

Import CohortAnalyzer.

Lemma calendar_compare_antisym a b :
  Calendar.compare b a = CompOpp (Calendar.compare a b).
Proof.
  unfold Calendar.compare.
  rewrite (Z.compare_antisym (year a) (year b)).
  destruct (year a ?= year b); simpl; try reflexivity.
  rewrite (Z.compare_antisym (month_number (month a)) (month_number (month b))).
  destruct (month_number (month a) ?= month_number (month b)); simpl; try reflexivity.
  rewrite (Z.compare_antisym (day a) (day b)).
  destruct (day a ?= day b); simpl; try reflexivity.
  apply Z.compare_antisym.
Qed.

Lemma date_compare_antisym a b : date_compare b a = CompOpp (date_compare a b).
Proof.
  destruct a as [a|], b as [b|]; simpl; try reflexivity.
  apply calendar_compare_antisym.
Qed.

Lemma row_leb_total a b : row_leb a b = false -> row_leb b a = true.
Proof.
  unfold row_leb. rewrite (date_compare_antisym (Date a) (Date b)).
  destruct (date_compare (Date a) (Date b)); simpl; intros H;
    try reflexivity; try discriminate H.
  apply Z.leb_le. apply Z.leb_gt in H. lia.
Qed.

Lemma insert_row_hd r x l :
  in_order x r -> HdRel in_order x l -> HdRel in_order x (insert_row r l).
Proof.
  intros Hxr Hl. destruct l as [|y l]; simpl.
  - constructor. exact Hxr.
  - destruct (row_leb r y); constructor; [exact Hxr|].
    inversion Hl; assumption.
Qed.

Lemma insert_row_sorted r l : Sorted in_order l -> Sorted in_order (insert_row r l).
Proof.
  induction l as [|x l IH]; simpl; intros Hs.
  - constructor; constructor.
  - destruct (row_leb r x) eqn:E.
    + constructor; [exact Hs|]. constructor. exact E.
    + inversion Hs as [|? ? Hs' Hhd]; subst.
      constructor; [apply IH, Hs'|].
      apply insert_row_hd; [|exact Hhd].
      apply row_leb_total, E.
Qed.

Lemma sort_values_sorted df : Sorted in_order (sort_values df).
Proof.
  unfold sort_values. induction df as [|r df IH]; simpl.
  - constructor.
  - apply insert_row_sorted, IH.
Qed.

Lemma in_order_months a b da db :
  in_order a b -> Date a = Some da -> Date b = Some db ->
  to_period_M da <= to_period_M db.
Proof.
  unfold in_order, row_leb. intros H Ha Hb. rewrite Ha, Hb in H. simpl in H.
  apply to_period_M_mono, leb_before. unfold Calendar.leb.
  destruct (Calendar.compare da db); try reflexivity. discriminate H.
Qed.

Lemma cohort_months_sorted (out : list CohortRow) :
  (forall r, In r out ->
     exists d, Date (campaign r) = Some d /\ Cohort_Month r = to_period_M d) ->
  Sorted in_order (map campaign out) ->
  Sorted Z.le (map Cohort_Month out).
Proof.
  induction out as [|r out IH]; simpl; intros Hrow Hs; [constructor|].
  inversion Hs as [|? ? Hs' Hhd]; subst.
  constructor; [apply IH; auto|].
  destruct out as [|r' out]; simpl in *; constructor.
  inversion Hhd as [|? ? Hrr']; subst.
  destruct (Hrow r (or_introl eq_refl)) as (d & Hd & ->).
  destruct (Hrow r' (or_intror (or_introl eq_refl))) as (d' & Hd' & ->).
  exact (in_order_months _ _ _ _ Hrr' Hd Hd').
Qed.

Lemma cohort_row_month df out r :
  traverse (assign_cohort df) df = Some out -> In r out ->
  exists d, Date (campaign r) = Some d /\ Cohort_Month r = to_period_M d.
Proof.
  intros H Hr. destruct (traverse_in _ _ _ _ H Hr) as [x [_ Ha]].
  destruct (assign_cohort_spec _ _ _ Ha) as (d & d0 & Hd & _ & Hc & Hm & _).
  exists d. rewrite Hc. split; assumption.
Qed.

(** X11: the frame [create_cohorts] returns is in the order of
    [sort_values(['Date', 'Campaign_ID'])], whatever the order of the input:
    no record is followed by an earlier one, nor by one of the same date with
    a smaller identifier; so the cohort months never decrease down the
    frame, and each is the month of the record's own date. *)
Theorem create_cohorts_chronological df out :
  create_cohorts df = Some out ->
  Sorted in_order (map campaign out) /\
  StronglySorted Z.le (map Cohort_Month out) /\
  Forall (fun r => exists d, Date (campaign r) = Some d /\
                             Cohort_Month r = to_period_M d) out.
Proof.
  intros H. apply create_cohorts_some in H as [_ H].
  assert (Hs : Sorted in_order (map campaign out)).
  { rewrite (traverse_campaigns _ _ _ H). apply sort_values_sorted. }
  assert (Hrow := fun r => cohort_row_month _ out r H).
  split; [exact Hs|]. split.
  - apply Sorted_StronglySorted; [intros x y z; apply Z.le_trans|].
    apply cohort_months_sorted; assumption.
  - apply Forall_forall. exact Hrow.
Qed.

Lemma first_date_some df r a d :
  In r df -> Target_Audience r = Some a -> Date r = Some d ->
  first_date df (Some a) <> None.
Proof.
  intros Hr Ha Hd. unfold first_date, series_min.
  destruct (dropna _) as [|t rest] eqn:E; [|discriminate].
  apply dropna_nil in E. rewrite Forall_forall in E.
  assert (Hin : In (Some d) (column Date
            (filter (fun r => text_eqb (Target_Audience r) (Some a)) df))).
  { unfold column. rewrite <- Hd. apply in_map, filter_In. split; [exact Hr|].
    rewrite Ha. apply text_eqb_refl. }
  specialize (E _ Hin). discriminate E.
Qed.

Lemma first_date_no_audience df : first_date df None = None.
Proof.
  unfold first_date.
  replace (filter (fun r => text_eqb (Target_Audience r) None) df) with (@nil Row);
    [reflexivity|].
  induction df as [|r df IH]; simpl; [reflexivity|].
  destruct (Target_Audience r); simpl; exact IH.
Qed.

Lemma assign_cohort_none df r :
  In r df ->
  (assign_cohort df r = None <-> Date r = None \/ Target_Audience r = None).
Proof.
  intros Hr. unfold assign_cohort.
  destruct (Date r) as [d|] eqn:Hd; [|split; auto].
  destruct (Target_Audience r) as [a|] eqn:Ha.
  - destruct (first_date df (Some a)) eqn:Ef.
    + split; [intros H; discriminate H | intros [H|H]; discriminate H].
    + exfalso. exact (first_date_some df r a d Hr Ha Hd Ef).
  - rewrite first_date_no_audience. split; auto.
Qed.

(** X12: [create_cohorts] raises in two cases only: the frame has no record
    (its date column is then not a datetime column), or a record has no date
    or no target audience (its month offset is then read from NaT). *)
Theorem create_cohorts_raises df :
  create_cohorts df = None <->
  df = [] \/
  exists r, In r df /\ (Date r = None \/ Target_Audience r = None).
Proof.
  destruct df as [|r0 df].
  - split; [intros _; left; reflexivity | reflexivity].
  - change (create_cohorts (r0 :: df))
      with (traverse (assign_cohort (sort_values (r0 :: df))) (sort_values (r0 :: df))).
    rewrite traverse_none. split.
    + intros (r & Hr & Hn). right. exists r.
      split; [apply (Permutation_in _ (Permutation_sym (sort_values_perm (r0 :: df)))), Hr|].
      apply (assign_cohort_none _ _ Hr), Hn.
    + intros [E|(r & Hr & Hn)]; [discriminate E|].
      assert (Hr' : In r (sort_values (r0 :: df)))
        by apply (Permutation_in _ (sort_values_perm (r0 :: df))), Hr.
      exists r. split; [exact Hr'|]. apply (assign_cohort_none _ _ Hr'), Hn.
Qed.

End CohortFrame.

Lemma create_cohorts_chronological_witness :
  exists out,
    CohortAnalyzer.create_cohorts Samples.season = Some out /\
    column Campaign_ID (map CohortAnalyzer.campaign out) = [1; 2; 3; 4] /\
    StronglySorted Z.le (map CohortAnalyzer.Cohort_Month out).
Proof.
  destruct (CohortAnalyzer.create_cohorts Samples.season) as [out|] eqn:E.
  - exists out. split; [reflexivity|].
    split; [|exact (proj1 (proj2 (create_cohorts_chronological _ _ E)))].
    vm_compute in E. injection E as <-. reflexivity.
  - vm_compute in E. discriminate E.
Defined.

(* ------------------------------------------------------------------------- *)
(** ** Cohorts: the three matrices *)

Section CohortMatrices.

Import CohortAnalyzer.

Lemma position_none x l : position x l = None <-> ~ In x l.
Proof.
  split.
  - intros H Hin. destruct (in_position _ _ Hin) as [k Hk].
    rewrite Hk in H. discriminate H.
  - intros H. destruct (position x l) as [k|] eqn:E; [|reflexivity].
    exfalso. apply H. destruct (position_nth _ _ _ E) as [Hk <-].
    apply nth_In, Hk.
Qed.

Lemma retention_matrix_none cohorts :
  retention_matrix cohorts = None <->
  ~ In 0 (map Months_Since_First_Campaign cohorts).
Proof.
  unfold retention_matrix, matrix_column. cbn [labels pivot].
  rewrite <- (sorted_labels_in 0 (map Months_Since_First_Campaign cohorts)).
  rewrite <- position_none.
  destruct (position 0 _); split; intros H; try reflexivity; discriminate H.
Qed.

Lemma calculate_cohort_metrics_unfold cohorts :
  calculate_cohort_metrics cohorts =
  match retention_matrix cohorts with
  | None => None
  | Some r => Some (mkMetrics r (pivot mean_conversion cohorts) (pivot mean_roi cohorts))
  end.
Proof. reflexivity. Qed.

(** X13: [calculate_cohort_metrics] raises exactly when no record of the
    frame is at offset 0 (the column [0] of the retention pivot is then
    absent). *)
Theorem cohort_metrics_raise cohorts :
  calculate_cohort_metrics cohorts = None <->
  Forall (fun r => Months_Since_First_Campaign r <> 0) cohorts.
Proof.
  rewrite calculate_cohort_metrics_unfold.
  assert (H : retention_matrix cohorts = None <->
              Forall (fun r => Months_Since_First_Campaign r <> 0) cohorts).
  { rewrite retention_matrix_none, Forall_forall, in_map_iff. split.
    - intros Hn r Hr E. apply Hn. exists r. split; assumption.
    - intros Hall (r & E & Hr). exact (Hall r Hr E). }
  rewrite <- H.
  destruct (retention_matrix cohorts); split; intros E;
    try reflexivity; discriminate E.
Qed.

Lemma cohort_of_record df cohorts r :
  create_cohorts df = Some cohorts -> In r df ->
  exists r' d d0,
    In r' cohorts /\ campaign r' = r /\ Date r = Some d /\
    first_date (sort_values df) (Target_Audience r) = Some d0 /\
    Cohort_Month r' = to_period_M d /\
    Months_Since_First_Campaign r' = to_period_M d - to_period_M d0.
Proof.
  intros H Hr. apply create_cohorts_some in H as [_ H].
  assert (Hr' : In r (sort_values df))
    by apply (Permutation_in _ (sort_values_perm df)), Hr.
  destruct (traverse_in_source _ _ _ r H Hr') as [r' [Hin Ha]].
  destruct (assign_cohort_spec _ _ _ Ha) as (d & d0 & Hd & Hd0 & Hc & Hm & Hn).
  exists r', d, d0. repeat split; assumption.
Qed.

Lemma first_date_record df a d0 :
  first_date df a = Some d0 ->
  (exists r, In r df /\ Target_Audience r = a /\ Date r = Some d0) /\
  (forall r d, In r df -> Target_Audience r = a -> Date r = Some d -> before d0 d).
Proof.
  unfold first_date. intros H. apply series_min_spec in H as [Hin Hmin]. split.
  - unfold column in Hin. apply in_map_iff in Hin as [x [Hx Hin]].
    apply filter_In in Hin as [Hx' Haud]. apply text_eqb_eq in Haud.
    exists x. repeat split; assumption.
  - intros r d Hr Ha Hd.
    assert (Hsome : exists x, a = Some x).
    { unfold column in Hin. apply in_map_iff in Hin as [x [_ Hx]].
      apply filter_In in Hx as [_ Hx]. destruct a as [x'|]; [eauto|].
      destruct (Target_Audience x); discriminate Hx. }
    destruct Hsome as [x ->].
    apply Hmin. unfold column. rewrite <- Hd. apply in_map, filter_In.
    split; [exact Hr|]. rewrite Ha. apply text_eqb_refl.
Qed.

Lemma cohorts_have_baseline df cohorts r :
  create_cohorts df = Some cohorts -> In r df ->
  exists r0, In r0 cohorts /\ Months_Since_First_Campaign r0 = 0.
Proof.
  intros H Hr.
  destruct (cohort_of_record df cohorts r H Hr)
    as (r' & d & d0 & _ & _ & _ & Hd0 & _).
  destruct (first_date_record _ _ _ Hd0) as [(x & Hx & Hax & Hdx) _].
  assert (Hx' : In x df)
    by apply (Permutation_in _ (Permutation_sym (sort_values_perm df))), Hx.
  destruct (cohort_of_record df cohorts x H Hx')
    as (x' & dx & d0x & Hin & _ & Hdx' & Hd0x & _ & Hoff).
  exists x'. split; [exact Hin|].
  rewrite Hdx in Hdx'. injection Hdx' as <-.
  rewrite Hax, Hd0 in Hd0x. injection Hd0x as <-.
  rewrite Hoff. lia.
Qed.

(** X14: on the frame that [create_cohorts] built, the metrics can be
    computed unless the input had no record at all: every audience has a
    record at offset 0, so the baseline column is there; on the empty frame
    it is not, and [calculate_cohort_metrics] raises. *)
Theorem cohort_metrics_of_cohorts df cohorts :
  create_cohorts df = Some cohorts ->
  (calculate_cohort_metrics cohorts = None <-> df = []).
Proof.
  intros H. rewrite calculate_cohort_metrics_unfold. split.
  - intros E. destruct df as [|r df]; [reflexivity|]. exfalso.
    destruct (cohorts_have_baseline _ _ r H (or_introl eq_refl)) as (r0 & Hr0 & H0).
    destruct (retention_matrix cohorts) eqn:Er; [discriminate E|].
    apply retention_matrix_none in Er. apply Er.
    rewrite <- H0. apply in_map, Hr0.
  - intros ->. discriminate H.
Qed.

(** X15: in the month in which an audience is first addressed, the retention
    matrix has 1 at offset 0: for a record none of whose audience is in an
    earlier month, the row of its month starts with 1. *)
Theorem first_month_retention df cohorts metrics r d a :
  create_cohorts df = Some cohorts ->
  calculate_cohort_metrics cohorts = Some metrics ->
  In r df -> Date r = Some d -> Target_Audience r = Some a ->
  (forall r' d', In r' df -> Target_Audience r' = Some a -> Date r' = Some d' ->
     to_period_M d <= to_period_M d') ->
  exists v, cell_at (retention metrics) (to_period_M d) 0 = Some (Some v) /\
            (v == 1)%Q.
Proof.
  intros H Hm Hr Hd Ha Hfirst.
  destruct (cohort_of_record df cohorts r H Hr)
    as (r' & d1 & d0 & Hin & Hc & Hd1 & Hd0 & Hmonth & Hoff).
  rewrite Hd in Hd1. injection Hd1 as <-.
  rewrite Ha in Hd0.
  destruct (first_date_record _ _ _ Hd0) as [(x & Hx & Hax & Hdx) Hmin].
  assert (Hx' : In x df)
    by apply (Permutation_in _ (Permutation_sym (sort_values_perm df))), Hx.
  assert (Hle : to_period_M d <= to_period_M d0)
    by exact (Hfirst x d0 Hx' Hax Hdx).
  assert (Hge : to_period_M d0 <= to_period_M d).
  { apply to_period_M_mono. apply (Hmin r d); [|exact Ha|exact Hd].
    apply (Permutation_in _ (sort_values_perm df)), Hr. }
  rewrite calculate_cohort_metrics_unfold in Hm.
  destruct (retention_matrix cohorts) as [m|] eqn:Er; [|discriminate Hm].
  injection Hm as <-. cbn [retention].
  rewrite <- Hmonth.
  apply (retention_baseline_is_one cohorts m r' a Er Hin).
  - rewrite Hoff. lia.
  - rewrite Hc. exact Ha.
Qed.

Lemma pivot_cell_at agg df i c :
  In i (index (pivot agg df)) -> In c (labels (pivot agg df)) ->
  cell_at (pivot agg df) i c = Some (pivot_cell agg df i c).
Proof.
  unfold cell_at. cbn [index labels values pivot]. intros Hi Hc.
  destruct (in_position _ _ Hi) as [a Ea]. destruct (in_position _ _ Hc) as [b Eb].
  rewrite Ea, Eb. f_equal.
  destruct (position_nth _ _ _ Ea) as [Ha Hai].
  destruct (position_nth _ _ _ Eb) as [Hb Hbc].
  rewrite (nth_map_default _ _ _ 0) by exact Ha.
  rewrite (nth_map_default _ _ _ 0) by exact Hb.
  rewrite Hai, Hbc. reflexivity.
Qed.

(** X16: the three matrices of [calculate_cohort_metrics] have the same row
    and column labels, the cohort months and the offsets that occur, in
    increasing order; a cell of the conversion (ROI) matrix is the mean
    conversion rate (ROI) of the records of that month at that offset, and
    NaN where there is none. *)
Theorem cohort_metric_cells cohorts metrics :
  calculate_cohort_metrics cohorts = Some metrics ->
  let months := sorted_labels (map Cohort_Month cohorts) in
  let offsets := sorted_labels (map Months_Since_First_Campaign cohorts) in
  index (retention metrics) = months /\ labels (retention metrics) = offsets /\
  index (conversion metrics) = months /\ labels (conversion metrics) = offsets /\
  index (roi metrics) = months /\ labels (roi metrics) = offsets /\
  (forall i c, In i months -> In c offsets ->
     cell_at (conversion metrics) i c = Some (pivot_cell mean_conversion cohorts i c) /\
     cell_at (roi metrics) i c = Some (pivot_cell mean_roi cohorts i c)).
Proof.
  rewrite calculate_cohort_metrics_unfold.
  destruct (retention_matrix cohorts) as [m|] eqn:Er; [|intros E; discriminate E].
  intros E. injection E as <-. cbn [retention conversion roi].
  assert (Hm : index m = sorted_labels (map Cohort_Month cohorts) /\
               labels m = sorted_labels (map Months_Since_First_Campaign cohorts)).
  { revert Er. unfold retention_matrix. destruct (matrix_column _ 0); [|discriminate].
    intros E. injection E as <-. split; reflexivity. }
  destruct Hm as [Hi Hl].
  repeat (split; [first [exact Hi | exact Hl | reflexivity]|]).
  intros i c Hin Hc. split; apply pivot_cell_at; assumption.
Qed.

End CohortMatrices.

Lemma cohort_metrics_of_cohorts_witness :
  exists cohorts,
    CohortAnalyzer.create_cohorts Samples.season = Some cohorts /\
    (CohortAnalyzer.calculate_cohort_metrics cohorts = None <-> Samples.season = []).
Proof.
  destruct (CohortAnalyzer.create_cohorts Samples.season) as [cohorts|] eqn:E.
  - exists cohorts. split; [reflexivity|].
    exact (cohort_metrics_of_cohorts _ _ E).
  - vm_compute in E. discriminate E.
Defined.

Lemma first_month_retention_witness :
  exists cohorts metrics v,
    CohortAnalyzer.create_cohorts Samples.season = Some cohorts /\
    CohortAnalyzer.calculate_cohort_metrics cohorts = Some metrics /\
    CohortAnalyzer.cell_at (CohortAnalyzer.retention metrics) 613 0 = Some (Some v) /\
    (v == 1)%Q.
Proof.
  destruct (CohortAnalyzer.create_cohorts Samples.season) as [cohorts|] eqn:E;
    [|vm_compute in E; discriminate E].
  destruct (CohortAnalyzer.calculate_cohort_metrics cohorts) as [metrics|] eqn:Em;
    [|vm_compute in E; injection E as <-; vm_compute in Em; discriminate Em].
  destruct (first_month_retention Samples.season cohorts metrics
              (Samples.campaign 3 "Women 35-44" "YouTube" (date 2021 Feb 20)
                 (7 # 100) (CNum 10200) (718 # 100) 584 7698 1)
              (date 2021 Feb 20) "Women 35-44"%string E Em) as (v & Hv & H1).
  - simpl. auto.
  - reflexivity.
  - reflexivity.
  - intros r' d' Hr' Ha' Hd'. simpl in Hr'.
    destruct Hr' as [<-|[<-|[<-|[<-|[]]]]];
      try discriminate Ha'; injection Hd' as <-; vm_compute; intros Hc; discriminate Hc.
  - exists cohorts, metrics, v. split; [reflexivity|]. split; [exact Em|].
    split; [exact Hv | exact H1].
Defined.

Lemma cohort_metric_cells_witness :
  exists cohorts metrics,
    CohortAnalyzer.create_cohorts Samples.season = Some cohorts /\
    CohortAnalyzer.calculate_cohort_metrics cohorts = Some metrics /\
    CohortAnalyzer.index (CohortAnalyzer.conversion metrics) = [612; 613; 614] /\
    CohortAnalyzer.cell_at (CohortAnalyzer.conversion metrics) 613 0 =
      Some (Some (7 # 100)).
Proof.
  destruct (CohortAnalyzer.create_cohorts Samples.season) as [cohorts|] eqn:E;
    [|vm_compute in E; discriminate E].
  destruct (CohortAnalyzer.calculate_cohort_metrics cohorts) as [metrics|] eqn:Em;
    [|vm_compute in E; injection E as <-; vm_compute in Em; discriminate Em].
  exists cohorts, metrics. split; [reflexivity|]. split; [exact Em|].
  destruct (cohort_metric_cells cohorts metrics Em)
    as (_ & _ & Hi & _ & _ & _ & Hcell).
  vm_compute in E. injection E as <-.
  split; [rewrite Hi; reflexivity|].
  rewrite (proj1 (Hcell 613 0 ltac:(vm_compute; auto) ltac:(vm_compute; auto))).
  vm_compute. reflexivity.
Defined.

(* ------------------------------------------------------------------------- *)
(** ** Group keys: order and counts *)

Section GroupKeys.

Lemma ascii_compare_lt_trans x y z :
  Ascii.compare x y = Lt -> Ascii.compare y z = Lt -> Ascii.compare x z = Lt.
Proof.
  unfold Ascii.compare. rewrite !N.compare_lt_iff. apply N.lt_trans.
Qed.

Lemma key_before_trans a b c : key_before a b -> key_before b c -> key_before a c.
Proof.
  unfold key_before. revert b c.
  induction a as [|x a IH]; intros [|y b] [|z c]; simpl; intros H1 H2;
    try discriminate H1; try discriminate H2; try reflexivity.
  destruct (Ascii.compare x y) eqn:Exy; try discriminate H1.
  - apply Ascii.compare_eq_iff in Exy. subst y.
    destruct (Ascii.compare x z); try discriminate H2; try reflexivity.
    exact (IH b c H1 H2).
  - destruct (Ascii.compare y z) eqn:Eyz; try discriminate H2.
    + apply Ascii.compare_eq_iff in Eyz. subst z. rewrite Exy. reflexivity.
    + rewrite (ascii_compare_lt_trans x y z Exy Eyz). reflexivity.
Qed.

Lemma key_before_irrefl a : ~ key_before a a.
Proof.
  unfold key_before. intros H.
  pose proof (String.compare_antisym a a) as Ha. rewrite H in Ha. discriminate Ha.
Qed.

Lemma not_leb_key_before x y : String.leb x y = false -> key_before y x.
Proof.
  unfold String.leb, key_before. rewrite (String.compare_antisym y x).
  destruct (String.compare x y); simpl; intros H; try discriminate H. reflexivity.
Qed.

Lemma leb_key_before x y :
  String.eqb x y = false -> String.leb x y = true -> key_before x y.
Proof.
  unfold String.leb, key_before. intros Hne H.
  destruct (String.compare x y) eqn:E; try discriminate H; [|reflexivity].
  apply String.compare_eq_iff in E. subst y.
  rewrite String.eqb_refl in Hne. discriminate Hne.
Qed.

Lemma insert_key_in x y l : In y (insert_key x l) <-> y = x \/ In y l.
Proof.
  induction l as [|z l IH]; simpl; [intuition|].
  destruct (String.eqb_spec x z) as [->|Hne]; simpl; [intuition|].
  destruct (String.leb x z); simpl; [intuition|].
  rewrite IH. intuition.
Qed.

Lemma group_keys_in k col : In k (group_keys col) <-> In (Some k) col.
Proof.
  unfold group_keys. rewrite <- dropna_in.
  induction (dropna col) as [|x l IH]; simpl; [reflexivity|].
  rewrite insert_key_in, IH. intuition.
Qed.

Lemma insert_key_sorted x l :
  StronglySorted key_before l -> StronglySorted key_before (insert_key x l).
Proof.
  induction l as [|y l IH]; simpl; intros Hs.
  - constructor; constructor.
  - inversion Hs as [|? ? Hs' Hall]; subst.
    destruct (String.eqb x y) eqn:Exy; [exact Hs|].
    destruct (String.leb x y) eqn:Ele.
    + pose proof (leb_key_before x y Exy Ele) as Hxy.
      constructor; [exact Hs|]. constructor; [exact Hxy|].
      apply Forall_forall. intros z Hz. rewrite Forall_forall in Hall.
      exact (key_before_trans x y z Hxy (Hall z Hz)).
    + constructor; [apply IH, Hs'|].
      apply Forall_forall. intros z Hz. apply insert_key_in in Hz as [->|Hz].
      * apply not_leb_key_before, Ele.
      * rewrite Forall_forall in Hall. exact (Hall z Hz).
Qed.

Lemma group_keys_sorted col : StronglySorted key_before (group_keys col).
Proof.
  unfold group_keys. induction (dropna col) as [|x l IH]; simpl.
  - constructor.
  - apply insert_key_sorted, IH.
Qed.

Lemma sorted_keys_nodup l : StronglySorted key_before l -> NoDup l.
Proof.
  induction 1 as [|x l Hs IH Hall]; constructor; [|exact IH].
  intros Hin. rewrite Forall_forall in Hall.
  exact (key_before_irrefl x (Hall x Hin)).
Qed.

Lemma list_sum_add {A} (f g : A -> nat) l :
  list_sum (map (fun k => (f k + g k)%nat) l) =
  (list_sum (map f l) + list_sum (map g l))%nat.
Proof.
  unfold list_sum. induction l as [|x l IH]; simpl; [reflexivity|].
  rewrite IH. lia.
Qed.

Lemma one_key_counts (x : text) keys :
  NoDup keys ->
  (forall k, x = Some k -> In k keys) ->
  list_sum (map (fun k => if text_eqb x (Some k) then 1%nat else 0%nat) keys) =
  if isnull x then 0%nat else 1%nat.
Proof.
  destruct x as [a|]; simpl.
  - intros Hnd Hin. specialize (Hin a eq_refl).
    induction keys as [|k keys IH]; [destruct Hin|].
    inversion Hnd as [|? ? Hk Hnd']; subst.
    change (list_sum (map (fun k0 => if String.eqb a k0 then 1%nat else 0%nat) (k :: keys)))
      with ((if String.eqb a k then 1 else 0)
            + list_sum (map (fun k0 => if String.eqb a k0 then 1%nat else 0%nat) keys))%nat.
    destruct (String.eqb_spec a k) as [->|Hne].
    + assert (Hz : list_sum (map (fun k0 => if String.eqb k k0 then 1%nat else 0%nat) keys)
                   = 0%nat).
      { clear IH Hnd Hnd' Hin. induction keys as [|k' keys IH]; [reflexivity|].
        change (list_sum (map (fun k0 => if String.eqb k k0 then 1%nat else 0%nat)
                              (k' :: keys)))
          with ((if String.eqb k k' then 1 else 0)
                + list_sum (map (fun k0 => if String.eqb k k0 then 1%nat else 0%nat)
                                keys))%nat.
        destruct (String.eqb_spec k k') as [->|Hne].
        - exfalso. apply Hk. left. reflexivity.
        - rewrite IH; [reflexivity|]. intros H. apply Hk. right. exact H. }
      rewrite Hz. reflexivity.
    + destruct Hin as [->|Hin]; [contradiction|].
      rewrite (IH Hnd' Hin). reflexivity.
  - intros _ _. induction keys as [|k keys IH]; [reflexivity|].
    exact IH.
Qed.

(** The groups by key divide the cells that hold a key. *)
Lemma occurrences_partition col keys :
  NoDup keys ->
  (forall k, In (Some k) col -> In k keys) ->
  list_sum (map (occurrences col) keys) = List.length (dropna col).
Proof.
  intros Hnd. induction col as [|x col IH]; intros Hin.
  - unfold occurrences. simpl. clear Hnd Hin.
    induction keys as [|k keys IHk]; [reflexivity | exact IHk].
  - assert (Hstep : forall k, occurrences (x :: col) k =
              ((if text_eqb x (Some k) then 1 else 0) + occurrences col k)%nat).
    { intros k. unfold occurrences. simpl.
      destruct (text_eqb x (Some k)); reflexivity. }
    rewrite (map_ext _ _ Hstep), list_sum_add.
    rewrite IH by (intros k Hk; apply Hin; right; exact Hk).
    rewrite one_key_counts;
      [|exact Hnd|intros k ->; apply Hin; left; reflexivity].
    destruct x; reflexivity.
Qed.

Lemma occurrences_column (key : Row -> text) df k :
  List.length (filter (fun r => text_eqb (key r) (Some k)) df) =
  occurrences (column key df) k.
Proof.
  unfold occurrences, column.
  induction df as [|r df IH]; simpl; [reflexivity|].
  destruct (text_eqb (key r) (Some k)); simpl; rewrite IH; reflexivity.
Qed.

Lemma occurrences_positive col k : In (Some k) col -> (1 <= occurrences col k)%nat.
Proof.
  unfold occurrences. intros H.
  assert (Hin : In (Some k) (filter (fun x => text_eqb x (Some k)) col)).
  { apply filter_In. split; [exact H | apply text_eqb_refl]. }
  destruct (filter (fun x => text_eqb x (Some k)) col);
    [destruct Hin | simpl; lia].
Qed.

Lemma group_sizes (key : Row -> text) df :
  list_sum (map (fun k => List.length (filter (fun r => text_eqb (key r) (Some k)) df))
                (group_keys (column key df))) =
  List.length (dropna (column key df)).
Proof.
  rewrite (map_ext _ _ (occurrences_column key df)).
  apply occurrences_partition.
  - apply sorted_keys_nodup, group_keys_sorted.
  - intros k Hk. apply group_keys_in, Hk.
Qed.

End GroupKeys.

(* ------------------------------------------------------------------------- *)
(** ** Segments: the RFM table *)

Section RfmTable.

Import SegmentAnalyzer.


End RfmTable.

(* ------------------------------------------------------------------------- *)
(** ** Channels: the table of metrics *)

Section ChannelTable.

Import ChannelAnalyzer ChannelTables.


End ChannelTable.

(* ------------------------------------------------------------------------- *)
(** ** Channels: advice at the edges *)

Section Advice.

Import ChannelAnalyzer.

Lemma unique_from_missing seen col :
  In None col -> In None seen \/ In None (unique_from seen col).
Proof.
  revert seen. induction col as [|x col IH]; intros seen H; [destruct H|].
  cbn [unique_from].
  destruct (existsb _ seen) eqn:E.
  - destruct H as [->|H]; [|apply IH, H].
    left. apply existsb_exists in E as ([y|] & Hy & Hm); [discriminate Hm | exact Hy].
  - destruct H as [->|H]; [right; left; reflexivity|].
    destruct (IH (x :: seen) H) as [[Hx|Hs]|Hu].
    + right. left. exact Hx.
    + left. exact Hs.
    + right. right. exact Hu.
Qed.

Lemma channel_data_missing df : channel_data df None = [].
Proof.
  unfold channel_data. induction df as [|r df IH]; [reflexivity|].
  simpl. destruct (Channel_Used r); exact IH.
Qed.

Lemma recommend_missing df : recommend df None = [low_roi None].
Proof.
  unfold recommend. rewrite channel_data_missing. cbv zeta.
  change (column ROI []) with (@nil num).
  change (column Conversion_Rate []) with (@nil num).
  change (column cost []) with (@nil num).
  change (column Engagement_Score []) with (@nil num).
  change (column Engagement_Rate []) with (@nil num).
  change (mean []) with (@None Q).
  unfold gt, lt.
  destruct (mean (column ROI df)), (mean (column Conversion_Rate df)),
    (mean (column cost df)), (mean (column Engagement_Score df)),
    (mean (column Engagement_Rate df)); reflexivity.
Qed.


Lemma unique_from_constant ch col :
  (forall x, In x col -> x = Some ch) -> unique_from [Some ch] col = [].
Proof.
  induction col as [|x col IH]; intros H; [reflexivity|].
  cbn [unique_from]. rewrite (H x (or_introl eq_refl)).
  cbn [existsb text_eqb]. rewrite String.eqb_refl. cbn [orb].
  apply IH. intros y Hy. apply H. right. exact Hy.
Qed.

Lemma channel_data_constant ch df :
  (forall r, In r df -> Channel_Used r = Some ch) -> channel_data df (Some ch) = df.
Proof.
  unfold channel_data. induction df as [|r df IH]; intros H; [reflexivity|].
  simpl. rewrite (H r (or_introl eq_refl)), text_eqb_refl. f_equal.
  apply IH. intros x Hx. apply H. right. exact Hx.
Qed.

Lemma lt_irrefl (x : num) : lt x x = false.
Proof.
  destruct x as [v|]; [|reflexivity]. unfold lt, Qltb.
  apply negb_false_iff, Qle_bool_iff, Qle_refl.
Qed.

(** X20: on a frame whose cost column is float and in which every record has
    the same channel, that channel is its own average: nothing is above or
    below, and the one advisory it gets is the [else] branch of the ROI
    rule, "Below average ROI".  (On a cost column that still holds text the
    mean raises.) *)
Theorem single_channel_advice df r ch :
  float_column (column Acquisition_Cost (r :: df)) ->
  (forall x, In x (r :: df) -> Channel_Used x = Some ch) ->
  calculate_channel_recommendations (r :: df) =
  [(Some ch, [low_roi (mean (column ROI (r :: df)))])].
Proof.
  intros _ H. unfold calculate_channel_recommendations.
  assert (Hu : unique (column Channel_Used (r :: df)) = [Some ch]).
  { unfold unique, column. cbn [map unique_from existsb].
    rewrite (H r (or_introl eq_refl)). f_equal.
    apply unique_from_constant. intros x Hx.
    apply in_map_iff in Hx as (y & <- & Hy). apply H. right. exact Hy. }
  rewrite Hu. cbn [map]. f_equal. f_equal.
  unfold recommend. rewrite (channel_data_constant ch (r :: df) H). cbv zeta.
  unfold gt. rewrite !lt_irrefl. reflexivity.
Qed.

Section Tests.

Variable f_oneway : list (list num) -> option (num * num).
Variable corr : list (list num) -> list (list num).

(** X21: [perform_statistical_analysis], the correlation matrix being one
    that can be computed, raises exactly when the F-test raises on the groups
    of one of the three metrics; no partial result is returned.  When it returns, the tests are those of the conversion rate,
    the ROI and the engagement score, in that order. *)
Theorem statistical_analysis_raises df :
  (perform_statistical_analysis f_oneway corr df = None <->
   exists m, In m [Conversion_Rate_col; ROI_col; Engagement_Score_col] /\
             f_oneway (channel_groups (num_get m) df) = None) /\
  (forall results,
     perform_statistical_analysis f_oneway corr df = Some results ->
     map fst (anovas results) =
     ["Conversion_Rate_anova"; "ROI_anova"; "Engagement_Score_anova"]%string).
Proof.
  unfold perform_statistical_analysis. split.
  - destruct (traverse (anova_for f_oneway df) _) as [entries|] eqn:E.
    + split; [intros H; discriminate H|].
      intros (m & Hm & Hf). exfalso.
      assert (Hn : traverse (anova_for f_oneway df)
                     [Conversion_Rate_col; ROI_col; Engagement_Score_col] = None).
      { apply traverse_none. exists m. split; [exact Hm|].
        unfold anova_for. rewrite Hf. reflexivity. }
      rewrite Hn in E. discriminate E.
    + split; [|reflexivity]. intros _.
      apply traverse_none in E as (m & Hm & Ha). exists m. split; [exact Hm|].
      unfold anova_for in Ha.
      destruct (f_oneway (channel_groups (num_get m) df)) as [[f p]|];
        [discriminate Ha | reflexivity].
  - intros results. cbn [traverse]. unfold anova_for.
    destruct (f_oneway (channel_groups (num_get Conversion_Rate_col) df)) as [[f1 p1]|];
      [|intros H; discriminate H].
    destruct (f_oneway (channel_groups (num_get ROI_col) df)) as [[f2 p2]|];
      [|intros H; discriminate H].
    destruct (f_oneway (channel_groups (num_get Engagement_Score_col) df)) as [[f3 p3]|];
      [|intros H; discriminate H].
    cbn [option_map]. intros H. injection H as <-. reflexivity.
Qed.

End Tests.

(** X22: the groups handed to the F-test are one for each channel, none of
    them empty; a record without a channel is in no group, every other
    record in one, with its cell of the metric even when that is NaN. *)
Theorem channel_groups_cover (metric : Row -> num) df :
  let groups := channel_groups metric df in
  List.length groups = List.length (group_keys (column Channel_Used df)) /\
  Forall (fun g => g <> []) groups /\
  list_sum (map (@List.length num) groups) =
    List.length (dropna (column Channel_Used df)).
Proof.
  cbv zeta. unfold channel_groups. split; [apply length_map|]. split.
  - apply Forall_forall. intros g Hg.
    apply in_map_iff in Hg as (ch & <- & Hch). apply group_keys_in in Hch.
    pose proof (occurrences_positive _ _ Hch) as Hpos.
    rewrite <- occurrences_column in Hpos.
    unfold column. intros E. apply (f_equal (@List.length num)) in E.
    rewrite length_map in E. simpl in E. lia.
  - rewrite map_map.
    rewrite (map_ext _ (fun ch => List.length
               (filter (fun r => text_eqb (Channel_Used r) (Some ch)) df)))
      by (intros ch; apply length_map).
    apply group_sizes.
Qed.

End Advice.


Lemma single_channel_advice_witness :
  ChannelAnalyzer.calculate_channel_recommendations one_channel =
  [(Some "Google Ads"%string,
    ["Below average ROI (ROI: 6.84). Review campaign strategy and targeting."%string])].
Proof.
  remember one_channel as frame eqn:E. vm_compute in E. subst frame.
  rewrite (single_channel_advice _ _ "Google Ads"%string).
  - reflexivity.
  - repeat constructor.
  - intros x [<-|[<-|[]]]; reflexivity.
Defined.

(* ------------------------------------------------------------------------- *)
(** ** Currency marks *)

Section CurrencyMarks.

Import Str.

Lemma remove_char_app c a b :
  remove_char c (a ++ b) = (remove_char c a ++ remove_char c b)%string.
Proof.
  induction a as [|x a IH]; simpl; [reflexivity|].
  destruct (Ascii.eqb x c); simpl; rewrite IH; reflexivity.
Qed.

Lemma strip_currency_app a b :
  strip_currency (a ++ b) = (strip_currency a ++ strip_currency b)%string.
Proof. unfold strip_currency. rewrite !remove_char_app. reflexivity. Qed.

(** X23: the currency sign and the thousands mark are removed wherever they
    stand, not only in front and between groups of three digits: a string
    reads as it would without them. *)
Theorem parse_currency_ignores_marks a b :
  parse_currency (a ++ "$" ++ b) = parse_currency (a ++ b) /\
  parse_currency (a ++ "," ++ b) = parse_currency (a ++ b) /\
  MarketingDataCleaner.cost_cell_to_float (CStr (a ++ "," ++ b)) =
  MarketingDataCleaner.cost_cell_to_float (CStr (a ++ b)).
Proof.
  assert (H1 : parse_currency (a ++ "$" ++ b) = parse_currency (a ++ b)).
  { unfold parse_currency. rewrite !strip_currency_app. reflexivity. }
  assert (H2 : parse_currency (a ++ "," ++ b) = parse_currency (a ++ b)).
  { unfold parse_currency. rewrite !strip_currency_app. reflexivity. }
  split; [exact H1|]. split; [exact H2|].
  unfold MarketingDataCleaner.cost_cell_to_float. rewrite H2. reflexivity.
Qed.

End CurrencyMarks.

(* ------------------------------------------------------------------------- *)
(** ** The summary of the cleaned frame *)

Section Summary.

Import MarketingDataCleaner SummaryStats.

Lemma max_before_l a b : before a (Calendar.max a b).
Proof.
  unfold Calendar.max. destruct (Calendar.leb a b) eqn:E.
  - apply leb_before, E.
  - apply before_refl.
Qed.

Lemma max_before_r a b : before b (Calendar.max a b).
Proof.
  unfold Calendar.max. destruct (Calendar.leb a b) eqn:E.
  - apply before_refl.
  - destruct (before_total a b) as [H|H]; [|exact H].
    apply leb_before in H. rewrite H in E. discriminate E.
Qed.

Lemma fold_max_after rest t :
  before t (fold_left Calendar.max rest t) /\
  forall x, In x rest -> before x (fold_left Calendar.max rest t).
Proof.
  revert t. induction rest as [|y rest IH]; intros t; simpl.
  - split; [apply before_refl | intros x []].
  - destruct (IH (Calendar.max t y)) as [H1 H2]. split.
    + eapply before_trans; [apply max_before_l | exact H1].
    + intros x [<-|Hx]; [|apply H2, Hx].
      eapply before_trans; [apply max_before_r | exact H1].
Qed.

Lemma series_range col a b :
  series_min col = Some a -> series_max col = Some b -> before a b.
Proof.
  unfold series_min, series_max.
  destruct (dropna col) as [|t rest]; [intros H; discriminate H|].
  intros Ha Hb. injection Ha as <-. injection Hb as <-.
  eapply before_trans.
  - apply (proj1 (fold_min_before rest t)).
  - apply (proj1 (fold_max_after rest t)).
Qed.

Lemma distinct_in k l : In k (distinct l) <-> In k l.
Proof.
  induction l as [|x l IH]; simpl; [reflexivity|].
  destruct (existsb (String.eqb x) l) eqn:E.
  - rewrite IH. split; [auto|]. intros [<-|H]; [|exact H].
    apply existsb_exists in E as (y & Hy & Hxy).
    apply String.eqb_eq in Hxy. subst y. exact Hy.
  - simpl. rewrite IH. reflexivity.
Qed.

Lemma distinct_nodup l : NoDup (distinct l).
Proof.
  induction l as [|x l IH]; simpl; [constructor|].
  destruct (existsb (String.eqb x) l) eqn:E; [exact IH|].
  constructor; [|exact IH]. intros H. apply (proj1 (distinct_in x l)) in H.
  assert (Ht : existsb (String.eqb x) l = true).
  { apply existsb_exists. exists x. split; [exact H | apply String.eqb_refl]. }
  rewrite Ht in E. discriminate E.
Qed.

Lemma counted_value_counts col keys :
  counted (value_counts col) keys = list_sum (map (occurrences col) keys).
Proof.
  unfold counted. f_equal. apply map_ext. intros k.
  unfold value_counts, occurrences.
  destruct (List.length (filter (fun x => text_eqb x (Some k)) col)); reflexivity.
Qed.

Lemma value_counts_total col :
  counted (value_counts col) (distinct (dropna col)) = List.length (dropna col).
Proof.
  rewrite counted_value_counts. apply occurrences_partition.
  - apply distinct_nodup.
  - intros k Hk. apply distinct_in, dropna_in, Hk.
Qed.

Lemma dropna_full {A} (col : list (option A)) :
  Forall (fun x => x <> None) col -> List.length (dropna col) = List.length col.
Proof.
  induction 1 as [|x col Hx _ IH]; [reflexivity|].
  destruct x as [a|]; [|contradiction]. simpl. rewrite <- IH. reflexivity.
Qed.

Lemma category_filled df out s c :
  clean_data df = Some (out, s) -> In c categorical_columns ->
  Forall (fun x => x <> None) (column (text_get c) out).
Proof.
  intros H Hc. unfold categorical_columns in Hc. cbn [In] in Hc.
  assert (Hcase : In c [Campaign_Type_col; Channel_Used_col; Location_col;
                        Customer_Segment_col] \/
                  In c [Target_Audience_col; Language_col]).
  { cbn [In]. destruct Hc as [Hc|[Hc|[Hc|[Hc|[Hc|[Hc|[]]]]]]]; auto 8. }
  destruct Hcase as [Hc'|Hc'].
  - rewrite (column_text_out df out s c H Hc'). apply Forall_forall.
    intros x Hx. apply in_map_iff in Hx as [y [<- _]]. destruct y; discriminate.
  - rewrite (column_text_plain df out s c H Hc'). apply Forall_forall.
    intros x Hx. apply in_map_iff in Hx as [y [<- _]]. destruct y; discriminate.
Qed.

(** X24: the summary the pipeline writes for the cleaned frame agrees with
    the cleaning summary on the number of campaigns; the counts per campaign
    type, per channel and per customer segment each add up to that number,
    no such cell being missing after cleaning, while the counts per company,
    a column the Cleaner does not fill, leave out the records without one;
    and the date range does not end before it starts. *)
Theorem summary_of_cleaned_frame df out s :
  clean_data df = Some (out, s) ->
  let stats := get_summary_stats out in
  total_campaigns stats = final_rows s /\
  counted (campaign_types stats) (distinct (dropna (column Campaign_Type out))) =
    total_campaigns stats /\
  counted (channels stats) (distinct (dropna (column Channel_Used out))) =
    total_campaigns stats /\
  counted (customer_segments stats) (distinct (dropna (column Customer_Segment out))) =
    total_campaigns stats /\
  counted (companies stats) (distinct (dropna (column Company out))) =
    List.length (dropna (column Company out)) /\
  (forall a b, date_range_start stats = Some a -> date_range_end stats = Some b ->
     before a b).
Proof.
  intros H. cbv zeta. unfold get_summary_stats.
  cbn [total_campaigns campaign_types channels customer_segments companies
       date_range_start date_range_end].
  destruct (clean_data_steps _ _ _ H) as (d & _ & _ & _ & Hf & _).
  assert (Hfull : forall c, In c categorical_columns ->
            counted (value_counts (column (text_get c) out))
                    (distinct (dropna (column (text_get c) out))) = List.length out).
  { intros c Hc. rewrite value_counts_total.
    rewrite (dropna_full _ (category_filled df out s c H Hc)).
    apply length_map. }
  split; [symmetry; exact Hf|].
  split; [apply (Hfull Campaign_Type_col); unfold categorical_columns; simpl; auto|].
  split; [apply (Hfull Channel_Used_col); unfold categorical_columns; simpl; auto|].
  split; [apply (Hfull Customer_Segment_col); unfold categorical_columns; simpl; auto 7|].
  split; [apply value_counts_total|].
  intros a b. apply series_range.
Qed.

End Summary.

Lemma summary_of_cleaned_frame_witness :
  exists out s,
    MarketingDataCleaner.clean_data Samples.untidy = Some (out, s) /\
    SummaryStats.total_campaigns (SummaryStats.get_summary_stats out) = 4%nat /\
    SummaryStats.counted
      (SummaryStats.channels (SummaryStats.get_summary_stats out))
      (distinct (dropna (column Channel_Used out))) = 4%nat.
Proof.
  destruct (MarketingDataCleaner.clean_data Samples.untidy) as [[out s]|] eqn:E.
  - exists out, s. split; [reflexivity|].
    destruct (summary_of_cleaned_frame _ _ _ E) as (Ht & _ & Hc & _).
    rewrite Hc, Ht.
    vm_compute in E. injection E as <- <-. split; reflexivity.
  - vm_compute in E. discriminate E.
Defined.

(* ------------------------------------------------------------------------- *)
(** ** Durations written as a number of days *)

Section Durations.

Import MarketingDataCleaner SegmentAnalyzer.

Lemma digit_char_digit k :
  (k < 10)%nat ->
  Str.is_digit (digit_char k) = true /\ Str.digit_val (digit_char k) = Z.of_nat k.
Proof.
  intros H. unfold Str.is_digit, Str.digit_val, digit_char.
  rewrite nat_ascii_embedding by lia. split.
  - apply andb_true_intro. split; apply Nat.leb_le; lia.
  - lia.
Qed.

Lemma nat_digits_app fuel n t rest :
  nat_digits fuel n (t ++ rest) = (nat_digits fuel n t ++ rest)%string.
Proof.
  revert n t. induction fuel as [|fuel IH]; intros n t; [reflexivity|].
  cbn [nat_digits]. destruct (n <? 10)%nat; [reflexivity|].
  apply (IH (n / 10)%nat (String (digit_char (n mod 10)) t)).
Qed.

Lemma take_digits_nat_digits fuel n rest a c :
  (n < fuel)%nat ->
  exists k d t,
    nat_digits fuel n rest = String d t /\ Str.is_digit d = true /\
    Str.take_digits a c (nat_digits fuel n rest) =
    Str.take_digits (a * 10 ^ Z.of_nat k + Z.of_nat n) (c + k) rest.
Proof.
  revert n rest a c. induction fuel as [|fuel IH]; intros n rest a c Hn; [lia|].
  cbn [nat_digits].
  assert (Hmod : (n mod 10 < 10)%nat) by (apply Nat.mod_upper_bound; lia).
  destruct (digit_char_digit _ Hmod) as [Hd Hv].
  destruct (Nat.ltb_spec n 10) as [Hlt|Hge].
  - exists 1%nat, (digit_char (n mod 10)), rest.
    split; [reflexivity|]. split; [exact Hd|].
    cbn [Str.take_digits]. rewrite Hd, Hv.
    rewrite Nat.mod_small by exact Hlt.
    replace (c + 1)%nat with (S c) by lia.
    replace (a * 10 ^ Z.of_nat 1 + Z.of_nat n) with (10 * a + Z.of_nat n);
      [reflexivity|].
    change (10 ^ Z.of_nat 1) with 10. lia.
  - assert (Hdiv : (n / 10 < fuel)%nat).
    { pose proof (Nat.div_lt n 10). lia. }
    destruct (IH (n / 10)%nat (String (digit_char (n mod 10)) rest) a c Hdiv)
      as (k & d & t & Hhead & Hdig & Htake).
    exists (S k), d, t. split; [exact Hhead|]. split; [exact Hdig|].
    rewrite Htake. cbn [Str.take_digits]. rewrite Hd, Hv.
    replace (c + S k)%nat with (S (c + k)) by lia.
    replace (a * 10 ^ Z.of_nat (S k) + Z.of_nat n)
      with (10 * (a * 10 ^ Z.of_nat k + Z.of_nat (n / 10)) + Z.of_nat (n mod 10));
      [reflexivity|].
    rewrite Nat2Z.inj_succ, Z.pow_succ_r by lia.
    pose proof (Nat.div_mod_eq n 10) as Hdm.
    apply (f_equal Z.of_nat) in Hdm.
    rewrite Nat2Z.inj_add, Nat2Z.inj_mul in Hdm.
    change (Z.of_nat 10) with 10 in Hdm. lia.
Qed.

Lemma extract_digits_days n :
  extract_digits (string_of_nat n ++ " days") = Some (Z.of_nat n).
Proof.
  unfold string_of_nat.
  rewrite <- (nat_digits_app (S n) n EmptyString " days").
  change (EmptyString ++ " days")%string with " days"%string.
  destruct (take_digits_nat_digits (S n) n " days"%string 0 0%nat ltac:(lia))
    as (k & d & t & Hhead & Hdig & Htake).
  rewrite Hhead in *. cbn [extract_digits]. rewrite Hdig, Htake.
  reflexivity.
Qed.

Lemma le_inject_Z a b : le (inject_Z a) (inject_Z b) = (a <=? b)%Z.
Proof. unfold le, Qle_bool. simpl. rewrite !Z.mul_1_r. reflexivity. Qed.

Lemma cut_duration_days n :
  cut_duration (Some (inject_Z (Z.of_nat n))) = duration_label n.
Proof.
  unfold cut_duration, duration_label.
  change 0%Q with (inject_Z 0). change 7%Q with (inject_Z 7).
  change 30%Q with (inject_Z 30). rewrite !le_inject_Z.
  destruct (Nat.eqb_spec n 0) as [->|H0]; [reflexivity|].
  destruct (Z.leb_spec (Z.of_nat n) 0); [lia|].
  destruct (Nat.leb_spec n 7), (Z.leb_spec (Z.of_nat n) 7); try lia; [reflexivity|].
  destruct (Nat.leb_spec n 30), (Z.leb_spec (Z.of_nat n) 30); try lia; reflexivity.
Qed.

(** X25: a duration written as the sample generators write it, a number and
    the word days, is read back as that number, whatever the number; its
    category is Short up to 7 days, Medium up to 30 and Long beyond, and a
    duration of 0 days has no category. *)
Theorem duration_in_days df r n :
  In r df -> Duration r = CStr (string_of_nat n ++ " days") ->
  exists r',
    In r' (create_derived_features df) /\
    Campaign_ID r' = Campaign_ID r /\
    Campaign_Duration r' = Some (inject_Z (Z.of_nat n)) /\
    Duration_Category r' = duration_label n.
Proof.
  intros Hr Hd. unfold create_derived_features.
  assert (Hobj : dtype_object (column Duration df) = true).
  { unfold dtype_object.
    assert (Hin : In (CStr (string_of_nat n ++ " days")) (column Duration df)).
    { rewrite <- Hd. unfold column. apply in_map, Hr. }
    destruct (column Duration df) as [|c col] eqn:E; [reflexivity|].
    apply existsb_exists. eexists. split; [exact Hin | reflexivity]. }
  rewrite Hobj.
  eexists. split; [apply in_map, Hr|]. cbv zeta.
  rewrite Hd. cbn [campaign_duration]. rewrite extract_digits_days.
  cbn [option_map]. rewrite cut_duration_days.
  repeat split; reflexivity.
Qed.

End Durations.

Lemma duration_in_days_witness :
  exists r',
    In r' (MarketingDataCleaner.create_derived_features Samples.returning) /\
    Campaign_ID r' = 2 /\
    Campaign_Duration r' = Some 30%Q /\
    Duration_Category r' = Some Medium.
Proof.
  destruct (duration_in_days Samples.returning
              (Samples.campaign 2 "Men 18-24" "YouTube" (date 2021 Feb 10)
                 (12 # 100) (CNum 11566) (561 # 100) 116 7523 7) 30%nat)
    as (r' & Hin & Hid & Hdur & Hcat).
  - simpl. auto.
  - reflexivity.
  - exists r'. repeat split; assumption.
Defined.

(* ------------------------------------------------------------------------- *)
(** ** The Loader: the shape of the frame *)

Section LoaderShape.

Import MarketingDataLoader.

Variable datetime_of_string : string -> option Timestamp.
Variable datetime_of_number : Q -> option Timestamp.
Variable read_csv : string -> option RawFrame.

Local Abbreviation load_data' := (load_data datetime_of_string datetime_of_number read_csv).
Local Abbreviation converted' := (converted datetime_of_string datetime_of_number).

Lemma columns_setitem name s df :
  mem name (columns df) = true -> columns (setitem name s df) = columns df.
Proof.
  unfold mem, columns. induction df as [|[n old] rest IH]; simpl; [discriminate|].
  rewrite (String.eqb_sym name n).
  destruct (String.eqb n name); simpl; [reflexivity|].
  intros H. rewrite (IH H). reflexivity.
Qed.

Lemma columns_fold_store cols df :
  (forall c, In c (map fst cols) -> mem c (columns df) = true) ->
  columns (fold_left store cols df) = columns df.
Proof.
  revert df. induction cols as [|[c v] rest IH]; intros df H; [reflexivity|].
  cbn [fold_left].
  assert (Hc : columns (store df (c, v)) = columns df).
  { unfold store. cbn [fst snd]. apply columns_setitem, H. left. reflexivity. }
  rewrite IH; [exact Hc|].
  intros c' Hc'. rewrite Hc. apply H. right. exact Hc'.
Qed.

Lemma converted_shape df out :
  converted' df = Some out ->
  columns out = columns df /\
  (forall c, ~ In c ("Date" :: "Acquisition_Cost" :: numeric_cols)%string ->
     getitem c out = getitem c df).
Proof.
  unfold converted.
  destruct (getitem "Date" df) as [d|] eqn:Hd; [|intros H; discriminate H].
  destruct (to_datetime datetime_of_string datetime_of_number d) as [d'|];
    [|intros H; discriminate H].
  destruct (traverse (converted_column df) numeric_cols) as [nums|] eqn:Hn;
    [|intros H; discriminate H].
  destruct (getitem "Acquisition_Cost" df) as [c|] eqn:Hc; [|intros H; discriminate H].
  destruct (currency_to_float c) as [c'|]; [|intros H; discriminate H].
  intros H. injection H as <-.
  pose proof (converted_columns_names _ _ _ Hn) as Hnames.
  assert (HA : columns (setitem "Date" d' df) = columns df).
  { apply columns_setitem. exact (getitem_mem_columns _ _ _ Hd). }
  assert (HB : columns (fold_left store nums (setitem "Date" d' df)) = columns df).
  { rewrite columns_fold_store; [exact HA|].
    intros x Hx. rewrite HA, Hnames in *.
    destruct (converted_columns_in _ _ _ x Hn Hx) as (v & _ & Hv & _).
    exact (getitem_mem_columns _ _ _ Hv). }
  split.
  - rewrite columns_setitem; [exact HB|].
    rewrite HB. exact (getitem_mem_columns _ _ _ Hc).
  - intros x Hx. cbn [In] in Hx.
    rewrite getitem_setitem_other by (intros E; apply Hx; right; left; exact E).
    rewrite (fold_store_other datetime_of_string read_csv)
      by (rewrite Hnames; intros E; apply Hx; right; right; exact E).
    apply getitem_setitem_other. intros E. apply Hx. left. exact E.
Qed.

(** X26: the frame [load_data] returns has the columns of the file, in the
    order of the header, no required column missing; and apart from the
    dates, the cost and the five numeric columns, every column is as it was
    read. *)
Theorem load_data_shape path out :
  load_data' path = Some out ->
  exists df,
    read_csv path = Some df /\
    columns out = columns df /\
    missing_cols out = [] /\
    (forall c, ~ In c ("Date" :: "Acquisition_Cost" :: numeric_cols)%string ->
       getitem c out = getitem c df).
Proof.
  rewrite load_data_unfolded.
  destruct (read_csv path) as [df|]; [|intros H; discriminate H].
  destruct (missing_cols df) as [|c cs] eqn:Hmiss; [|intros H; discriminate H].
  intros H. destruct (converted_shape df out H) as [Hcols Hother].
  exists df. split; [reflexivity|]. split; [exact Hcols|].
  split; [|exact Hother].
  unfold missing_cols in *. rewrite Hcols. exact Hmiss.
Qed.

End LoaderShape.

Lemma load_data_shape_witness :
  exists out,
    MarketingDataLoader.load_data Samples.iso_date Samples.no_epoch_dates Samples.disk
      "data/raw/marketing_campaign_dataset.csv" = Some out /\
    MarketingDataLoader.columns out = MarketingDataLoader.columns Samples.sample_csv /\
    MarketingDataLoader.getitem "Duration" out =
    MarketingDataLoader.getitem "Duration" Samples.sample_csv.
Proof.
  destruct (MarketingDataLoader.load_data Samples.iso_date Samples.no_epoch_dates
              Samples.disk "data/raw/marketing_campaign_dataset.csv") as [out|] eqn:E.
  - exists out. split; [reflexivity|].
    destruct (load_data_shape Samples.iso_date Samples.no_epoch_dates Samples.disk
                "data/raw/marketing_campaign_dataset.csv" out E)
      as (df & Hread & Hcols & _ & Hother).
    vm_compute in Hread. injection Hread as <-.
    split; [exact Hcols|].
    apply Hother. cbn [In MarketingDataLoader.numeric_cols].
    intros H. repeat (destruct H as [H|H]; [discriminate H|]). exact H.
  - vm_compute in E. discriminate E.
Defined.

(* ------------------------------------------------------------------------- *)
(** ** Segments: the recency of an audience *)

Section Recency.

Import SegmentAnalyzer.

Lemma before_antisym a b : before a b -> before b a -> a = b.
Proof.
  unfold before. destruct a as [ya ma da na], b as [yb mb db nb].
  cbn [year month day nanos]. intros H1 H2.
  assert (Hy : ya = yb) by lia. subst yb.
  assert (Hm : month_number ma = month_number mb) by lia.
  assert (Hm' : ma = mb) by (destruct ma, mb; simpl in Hm; try reflexivity; lia).
  subst mb.
  assert (Hd : da = db) by lia. subst db.
  assert (Hn : na = nb) by lia. subst nb. reflexivity.
Qed.

Lemma fold_max_in rest t : In (fold_left Calendar.max rest t) (t :: rest).
Proof.
  revert t. induction rest as [|y rest IH]; intros t; simpl; auto.
  destruct (IH (Calendar.max t y)) as [H|H]; auto.
  rewrite <- H. unfold Calendar.max. destruct (Calendar.leb t y); auto.
Qed.

(** [Series.max()] is a date of the column and no date of it is later. *)
Lemma series_max_spec col d1 :
  series_max col = Some d1 ->
  In (Some d1) col /\ forall d, In (Some d) col -> before d d1.
Proof.
  unfold series_max.
  destruct (dropna col) as [|t rest] eqn:E; [intros H; discriminate H|].
  intros H. injection H as <-. split.
  - apply dropna_in. rewrite E. apply fold_max_in.
  - intros d Hd. apply dropna_in in Hd. rewrite E in Hd.
    destruct (fold_max_after rest t) as [H1 H2].
    destruct Hd as [<-|Hd]; [exact H1 | exact (H2 d Hd)].
Qed.

Lemma series_max_none col :
  series_max col = None <-> forall d, ~ In (Some d) col.
Proof.
  unfold series_max. split.
  - destruct (dropna col) as [|t rest] eqn:E; [|intros H; discriminate H].
    intros _ d Hd. apply dropna_in in Hd. rewrite E in Hd. destruct Hd.
  - intros H. destruct (dropna col) as [|t rest] eqn:E; [reflexivity|].
    exfalso. apply (H t), dropna_in. rewrite E. left. reflexivity.
Qed.

Lemma group_dates df a d :
  In (Some d) (column Date (audience_group df a)) <->
  exists r, In r df /\ Target_Audience r = Some a /\ Date r = Some d.
Proof.
  unfold column, audience_group. rewrite in_map_iff. split.
  - intros (r & Hd & Hr). apply filter_In in Hr as [Hr Ha].
    apply text_eqb_eq in Ha. exists r. repeat split; assumption.
  - intros (r & Hr & Ha & Hd). exists r. split; [exact Hd|].
    apply filter_In. split; [exact Hr|]. rewrite Ha. apply text_eqb_refl.
Qed.

(** The latest date of the group of an audience is what [x.max()] gives on
    the dates of the group, and nothing else is. *)
Lemma group_latest df a d :
  series_max (column Date (audience_group df a)) = Some d <-> latest_date df a d.
Proof.
  unfold latest_date. split.
  - intros H. apply series_max_spec in H as [Hin Hmax]. split.
    + apply group_dates, Hin.
    + intros r d' Hr Ha Hd. apply Hmax, group_dates.
      exists r. repeat split; assumption.
  - intros [Hex Hlast].
    destruct (series_max (column Date (audience_group df a))) as [d1|] eqn:E.
    + apply series_max_spec in E as [Hin Hmax]. f_equal.
      apply before_antisym.
      * apply group_dates in Hin as (r & Hr & Ha & Hd). exact (Hlast r d1 Hr Ha Hd).
      * apply Hmax, group_dates, Hex.
    + exfalso. apply (proj1 (series_max_none _) E d), group_dates, Hex.
Qed.

Lemma later_clock now later d :
  to_ns now + ns_per_day <= to_ns later ->
  timedelta_days now d < timedelta_days later d.
Proof.
  intros H.
  pose proof (timedelta_days_whole now d) as Hn.
  pose proof (timedelta_days_whole later d) as Hl.
  cbv zeta in Hn, Hl.
  assert (Hday : 0 < ns_per_day) by (unfold ns_per_day; lia).
  nia.
Qed.

(** C10: in the RFM table computed when the clock reads [now], the recency
    of an audience is the number of whole days from the latest date of the
    records of that audience, those of the other audiences aside and
    whatever the order of the records, to [now]; it is missing exactly when
    no record of the audience has a date.  The table is a function of the
    frame and of the reading of the clock: a call on the same frame a day
    or more later has the same audiences, frequencies and spends, and a
    larger recency for every audience that has one. *)
Theorem rfm_recency_follows_clock now df row :
  float_column (column Acquisition_Cost df) ->
  In row (calculate_rfm_metrics now df) ->
  (forall d, latest_date df (audience row) d ->
     Recency_Days row = Some (timedelta_days now d) /\
     timedelta_days now d * ns_per_day <= to_ns now - to_ns d
       < (timedelta_days now d + 1) * ns_per_day) /\
  (forall k, Recency_Days row = Some k ->
     exists d, latest_date df (audience row) d /\ k = timedelta_days now d) /\
  (Recency_Days row = None <->
   forall r, In r df -> Target_Audience r = Some (audience row) -> Date r = None) /\
  (forall later,
     exists row',
       In row' (calculate_rfm_metrics later df) /\
       audience row' = audience row /\
       Campaign_Frequency row' = Campaign_Frequency row /\
       Total_Spend row' = Total_Spend row /\
       Avg_Spend_per_Campaign row' = Avg_Spend_per_Campaign row /\
       (forall k, Recency_Days row = Some k ->
          to_ns now + ns_per_day <= to_ns later ->
          exists k', Recency_Days row' = Some k' /\ k < k')).
Proof.
  intros _ Hrow. unfold calculate_rfm_metrics in Hrow.
  apply in_map_iff in Hrow as (a & <- & Ha).
  cbn [audience Recency_Days Campaign_Frequency Total_Spend Avg_Spend_per_Campaign].
  unfold recency.
  split; [|split; [|split]].
  - intros d Hd. apply group_latest in Hd. rewrite Hd. cbn [option_map].
    split; [reflexivity | apply timedelta_days_whole].
  - intros k Hk.
    destruct (series_max (column Date (audience_group df a))) as [d|] eqn:E;
      [|discriminate Hk].
    cbn [option_map] in Hk. injection Hk as <-.
    exists d. split; [apply group_latest, E | reflexivity].
  - destruct (series_max (column Date (audience_group df a))) as [d|] eqn:E;
      cbn [option_map].
    + split; [intros H; discriminate H|]. intros Hnone. exfalso.
      apply series_max_spec in E as [Hin _].
      apply group_dates in Hin as (r & Hr & Hra & Hd).
      rewrite (Hnone r Hr Hra) in Hd. discriminate Hd.
    + split; [|reflexivity]. intros _ r Hr Hra.
      destruct (Date r) as [d|] eqn:Hd; [|reflexivity]. exfalso.
      apply (proj1 (series_max_none _) E d), group_dates.
      exists r. repeat split; assumption.
  - intros later.
    eexists. split.
    + unfold calculate_rfm_metrics. apply in_map_iff. exists a.
      split; [reflexivity | exact Ha].
    + cbn [audience Recency_Days Campaign_Frequency Total_Spend
           Avg_Spend_per_Campaign].
      repeat (split; [reflexivity|]).
      intros k Hk Hlater. unfold recency.
      destruct (series_max (column Date (audience_group df a))) as [d|];
        [|discriminate Hk].
      cbn [option_map] in *. injection Hk as <-.
      exists (timedelta_days later d). split; [reflexivity|].
      apply later_clock, Hlater.
Qed.

End Recency.

Lemma rfm_recency_follows_clock_witness :
  exists men women,
    SegmentAnalyzer.calculate_rfm_metrics
      (mkTimestamp 2021 Mar 5 (12 * 3600 * 1000000000)) Samples.season =
    [men; women] /\
    SegmentAnalyzer.audience men = "Men 18-24"%string /\
    SegmentAnalyzer.Recency_Days men = Some 23 /\
    SegmentAnalyzer.audience women = "Women 35-44"%string /\
    SegmentAnalyzer.Recency_Days women = Some 3.
Proof.
  set (now := mkTimestamp 2021 Mar 5 (12 * 3600 * 1000000000)).
  set (table := SegmentAnalyzer.calculate_rfm_metrics now Samples.season).
  set (nobody := SegmentAnalyzer.mkRfm EmptyString None 0 0 None).
  set (men := nth 0 table nobody). set (women := nth 1 table nobody).
  assert (Htable : table = [men; women]) by reflexivity.
  assert (Hmen : In men table) by (rewrite Htable; left; reflexivity).
  assert (Hwomen : In women table) by (rewrite Htable; right; left; reflexivity).
  assert (Hcost : float_column (column Acquisition_Cost Samples.season))
    by (repeat constructor).
  exists men, women. split; [exact Htable|].
  destruct (rfm_recency_follows_clock now Samples.season men Hcost Hmen)
    as (Hlatest_men & _).
  destruct (rfm_recency_follows_clock now Samples.season women Hcost Hwomen)
    as (Hlatest_women & _).
  destruct (Hlatest_men (date 2021 Feb 10)) as [Hdays_men _].
  { split.
    - exists (Samples.campaign 2 "Men 18-24" "YouTube" (date 2021 Feb 10)
                (12 # 100) (CNum 11566) (561 # 100) 116 7523 7).
      split; [right; right; right; left; reflexivity | split; reflexivity].
    - intros r d' Hr Haud Hd. simpl in Hr.
      destruct Hr as [<-|[<-|[<-|[<-|[]]]]];
        try discriminate Haud; injection Hd as <-;
        unfold before; simpl; lia. }
  destruct (Hlatest_women (date 2021 Mar 2)) as [Hdays_women _].
  { split.
    - exists (Samples.campaign 4 "Women 35-44" "YouTube" (date 2021 Mar 2)
                (11 # 100) (CNum 12724) (555 # 100) 217 1820 7).
      split; [left; reflexivity | split; reflexivity].
    - intros r d' Hr Haud Hd. simpl in Hr.
      destruct Hr as [<-|[<-|[<-|[<-|[]]]]];
        try discriminate Haud; injection Hd as <-;
        unfold before; simpl; lia. }
  split; [reflexivity|]. split; [rewrite Hdays_men; reflexivity|].
  split; [reflexivity|]. rewrite Hdays_women. reflexivity.
Defined.

(** The sample of one audience, read at noon on two consecutive days. *)
Example rfm_recency_one_day_later :
  let noon_1_march := mkTimestamp 2021 Mar 1 (12 * 3600 * 1000000000) in
  let noon_2_march := mkTimestamp 2021 Mar 2 (12 * 3600 * 1000000000) in
  map SegmentAnalyzer.Recency_Days
      (SegmentAnalyzer.calculate_rfm_metrics noon_1_march Samples.returning) = [Some 19] /\
  map SegmentAnalyzer.Recency_Days
      (SegmentAnalyzer.calculate_rfm_metrics noon_2_march Samples.returning) = [Some 20].
Proof. cbv zeta. split; vm_compute; reflexivity. Qed.

(* ------------------------------------------------------------------------- *)
(** ** Segments: the clusters *)

Section Clusters.

Import SegmentAnalyzer.

Variable sqrt : Q -> Q.
Variable pick : Z -> list point -> nat -> nat.

Local Abbreviation fit_transform' := (fit_transform sqrt).
Local Abbreviation fit_predict' := (fit_predict pick).
Local Abbreviation perform_cluster_analysis' := (perform_cluster_analysis sqrt pick).

Lemma argmin_from_lt best least i l :
  (best < i)%nat -> (argmin_from best least i l < i + List.length l)%nat.
Proof.
  revert best least i. induction l as [|v l IH]; intros best least i H; simpl.
  - lia.
  - destruct (Qltb v least).
    + pose proof (IH i v (S i) ltac:(lia)). lia.
    + pose proof (IH best least (S i) ltac:(lia)). lia.
Qed.

Lemma nearest_lt centres x :
  (0 < List.length centres)%nat -> (nearest centres x < List.length centres)%nat.
Proof.
  unfold nearest, argmin. intros H.
  rewrite <- (length_map (squared_distance x) centres) in *.
  destruct (map (squared_distance x) centres) as [|v t]; [simpl in H; lia|].
  pose proof (argmin_from_lt 0 v 1 t ltac:(lia)). simpl. lia.
Qed.

Lemma length_update_centres centres X :
  List.length (update_centres centres X) = List.length centres.
Proof.
  unfold update_centres.
  rewrite length_map, length_combine, length_seq. apply Nat.min_id.
Qed.

Lemma length_lloyd n centres X :
  List.length (lloyd n centres X) = List.length centres.
Proof.
  revert centres. induction n as [|n IH]; intros centres; [reflexivity|].
  cbn [lloyd]. cbv zeta.
  destruct (same_centres (update_centres centres X) centres).
  - apply length_update_centres.
  - rewrite IH. apply length_update_centres.
Qed.

Lemma length_initial_centres k state X :
  List.length (initial_centres pick k state X) = k.
Proof. unfold initial_centres. rewrite length_map. apply length_seq. Qed.

Lemma traverse_length {A B} (f : A -> option B) l out :
  traverse f l = Some out -> List.length out = List.length l.
Proof.
  intros H. apply traverse_some in H. symmetry.
  exact (Forall2_length H).
Qed.

(** The labels of [KMeans]: one for each sample, each the index of a
    centre. *)
Lemma fit_predict_labels k state X labels :
  fit_predict' k state X = Some labels ->
  List.length labels = List.length X /\ Forall (fun l => (l < k)%nat) labels.
Proof.
  unfold fit_predict.
  destruct (check_array X) as [pts|] eqn:Ec; [|intros H; discriminate H].
  destruct ((k =? 0)%nat || (List.length pts <? k)%nat) eqn:Ek;
    [intros H; discriminate H|].
  apply orb_false_elim in Ek as [Ek _]. apply Nat.eqb_neq in Ek.
  generalize (length_lloyd max_iter (initial_centres pick k state pts) pts).
  generalize (lloyd max_iter (initial_centres pick k state pts) pts) as centres.
  intros centres Hlen H. injection H as <-.
  rewrite length_initial_centres in Hlen. split.
  - rewrite length_map. exact (traverse_length _ _ _ Ec).
  - apply Forall_forall. intros l Hl. apply in_map_iff in Hl as (x & <- & _).
    rewrite <- Hlen. apply nearest_lt. lia.
Qed.

Lemma full_row (row : list num) :
  Forall (fun v => v <> None) row ->
  exists p, traverse (fun v : num => v) row = Some p.
Proof.
  induction 1 as [|v row Hv _ [p IH]]; [exists []; reflexivity|].
  destruct v as [x|]; [|contradiction].
  exists (x :: p). simpl. rewrite IH. reflexivity.
Qed.

Lemma check_array_full X :
  Forall (Forall (fun v => v <> None)) X ->
  exists pts, check_array X = Some pts /\ List.length pts = List.length X.
Proof.
  unfold check_array. induction 1 as [|row X Hrow _ (pts & IH & Hlen)].
  - exists []. split; reflexivity.
  - destruct (full_row row Hrow) as [p Hp].
    exists (p :: pts). cbn [traverse]. rewrite Hp, IH.
    split; [reflexivity | simpl; rewrite Hlen; reflexivity].
Qed.

Lemma fit_predict_returns k state X :
  Forall (Forall (fun v => v <> None)) X ->
  (1 <= k <= List.length X)%nat ->
  exists labels, fit_predict' k state X = Some labels.
Proof.
  intros Hfull Hk. unfold fit_predict.
  destruct (check_array_full X Hfull) as (pts & -> & Hlen).
  destruct (Nat.eqb_spec k 0) as [Hz|_]; [lia|].
  destruct (Nat.ltb_spec (List.length pts) k) as [Hlt|_]; [lia|].
  cbn [orb]. eexists. reflexivity.
Qed.

Lemma in_numbered {A} (j : nat) (v d : A) (l : list A) start :
  In (j, v) (combine (seq start (List.length l)) l) ->
  (start <= j)%nat /\ nth (j - start) l d = v.
Proof.
  revert start. induction l as [|x l IH]; intros start H; [destruct H|].
  cbn [List.length seq combine] in H. destruct H as [E|H].
  - injection E as <- <-. rewrite Nat.sub_diag. split; [lia | reflexivity].
  - destruct (IH (S start) H) as [Hle Hnth]. split; [lia|].
    replace (j - start)%nat with (S (j - S start)) by lia. exact Hnth.
Qed.

(** The scaled matrix has the rows of the features, and no NaN where the
    features have none. *)
Lemma fit_transform_full X :
  X <> [] ->
  Forall (Forall (fun v => v <> None)) X ->
  exists scaled,
    fit_transform' X = Some scaled /\
    List.length scaled = List.length X /\
    Forall (Forall (fun v => v <> None)) scaled.
Proof.
  intros Hne Hfull. destruct X as [|row0 X']; [contradiction|].
  set (X := row0 :: X') in *. unfold fit_transform.
  eexists. split; [reflexivity|]. split; [apply length_map|].
  apply Forall_forall. intros out Hout.
  apply in_map_iff in Hout as (row & <- & Hrow).
  apply Forall_forall. intros cell Hcell.
  apply in_map_iff in Hcell as ([j v] & <- & Hjv). cbn [fst snd].
  pose proof (in_numbered j v None row 0 Hjv) as [_ Hnth].
  rewrite Nat.sub_0_r in Hnth.
  assert (Hv : v <> None).
  { rewrite Forall_forall in Hfull. specialize (Hfull row Hrow).
    rewrite Forall_forall in Hfull. apply Hfull.
    apply in_combine_r in Hjv. exact Hjv. }
  destruct v as [x|]; [|contradiction].
  assert (Hcol : In (Some x) (feature_column X j)).
  { unfold feature_column. rewrite <- Hnth.
    exact (in_map (fun r : list num => nth j r None) X row Hrow). }
  apply dropna_in in Hcol.
  unfold mean, scale_of.
  destruct (dropna (feature_column X j)) as [|y ys]; [destruct Hcol|].
  discriminate.
Qed.

(** What the call returns on a frame it accepts, from the labels of
    [KMeans] on. *)
Lemma perform_cluster_analysis_returns global_state df n_clusters :
  let k := match n_clusters with Some k => k | None => 5%nat end in
  Forall (fun r => Forall (fun v => v <> None) (segment_features r)) df ->
  (1 <= k <= List.length df)%nat ->
  exists labels,
    List.length labels = List.length df /\
    Forall (fun l => (l < k)%nat) labels /\
    perform_cluster_analysis' global_state df n_clusters =
    let assigned := map (fun rl => mkClustered (fst rl) (snd rl)) (combine df labels) in
    Some (assigned,
          map (fun i =>
                 (("Cluster_" ++ string_of_nat i)%string,
                  describe_cluster (filter (fun r => (Cluster r =? i)%nat) assigned)))
              (seq 0 k)).
Proof.
  intros k Hfeat Hk. unfold perform_cluster_analysis. fold k.
  assert (Hne : map segment_features df <> []).
  { destruct df; [simpl in Hk; lia | discriminate]. }
  assert (Hfull : Forall (Forall (fun v => v <> None)) (map segment_features df)).
  { apply Forall_forall. intros row Hrow.
    apply in_map_iff in Hrow as (r & <- & Hr).
    rewrite Forall_forall in Hfeat. exact (Hfeat r Hr). }
  destruct (fit_transform_full _ Hne Hfull) as (scaled & -> & Hlen & Hscaled).
  rewrite length_map in Hlen.
  unfold check_random_state.
  assert (Hk' : (1 <= k <= List.length scaled)%nat).
  { destruct Hk as [Hk1 Hk2]. split; [exact Hk1|].
    exact (eq_ind_r (fun n => (k <= n)%nat) Hk2 Hlen). }
  destruct (fit_predict_returns k 42 scaled Hscaled Hk') as [labels El].
  rewrite El.
  destruct (fit_predict_labels _ _ _ _ El) as [Hl Hrange].
  assert (Hl' : List.length labels = List.length df) by exact (eq_trans Hl Hlen).
  rewrite Hl', Nat.eqb_refl.
  exists labels. split; [exact Hl'|]. split; [exact Hrange | reflexivity].
Qed.

(** The generator of [KMeans] is seeded by the call.  The state of the
    process-wide generator is not read, and of the draws of the seeding only
    those of the generator seeded with 42 are: two seedings that agree
    there give the same outcome. *)
Lemma fit_predict_seeded pick' k X :
  (forall pts i, pick' 42 pts i = pick 42 pts i) ->
  fit_predict pick' k 42 X = fit_predict' k 42 X.
Proof.
  intros Hsame. unfold fit_predict.
  destruct (check_array X) as [pts|]; [|reflexivity].
  destruct ((k =? 0)%nat || (List.length pts <? k)%nat); [reflexivity|].
  assert (Hinit : initial_centres pick' k 42 pts = initial_centres pick k 42 pts).
  { unfold initial_centres. apply map_ext. intros i. rewrite Hsame. reflexivity. }
  rewrite Hinit. reflexivity.
Qed.

Lemma perform_cluster_analysis_seeded pick' state state' df n_clusters :
  (forall pts i, pick' 42 pts i = pick 42 pts i) ->
  perform_cluster_analysis sqrt pick' state df n_clusters =
  perform_cluster_analysis' state' df n_clusters.
Proof.
  intros Hsame. unfold perform_cluster_analysis, check_random_state.
  destruct (fit_transform' (map segment_features df)) as [scaled|]; [|reflexivity].
  rewrite (fit_predict_seeded pick' _ scaled Hsame). reflexivity.
Qed.


End Clusters.

